(** * The memory-vault indexing pipeline of the RAG service

    A shallow embedding of [rag-service/indexer.py] (frontmatter parsing and
    chunking), of the indexing endpoints of [rag-service/main.py]
    (single-document index, directory sweep, delete-by-path) and of the
    cosine similarity of [rag-service/embeddings.py], together with the
    properties of these functions.

    Conventions of the embedding.
    - A Python [str] is a [list ascii]; the embedding covers ASCII text, a
      character above 127 is kept as an opaque symbol that is neither
      whitespace nor a cased letter.  Python's case mapping of letters
      outside ASCII can change the length of a text, so what is said of
      [str.title] is said of ASCII text.  [py "..."] writes a literal.
    - Python integers ([len], [chunk_size]) are [Z]; the entries of a
      [numpy] array are binary64 floats, and a flattened array is their
      list.
    - Values whose type is only known at run time (what [yaml.safe_load]
      returns, the fields of a metadata [dict]) are [pyval]s.
    - A call that may raise returns a [result]; an endpoint returns an
      [http] answer and the new application state.
    - Libraries the service only calls ([yaml], [hashlib], the sentence
      embedder, the clock, the checks of the vector store, [numpy]) are
      variables of a section.
    - The vectors of the embedder have the dimension of the collection, and
      numbers in frontmatter and request bodies are integers. *)

From Stdlib Require Import String Ascii ZArith Lia Bool List DecimalString.
From Stdlib Require PrimFloat.
From stdpp Require Import gmap strings list.
Import ListNotations.
Open Scope Z_scope.
Set Warnings "-register-all".


Abbreviation str := (list ascii).

Definition py (s : string) : str := list_ascii_of_string s.

Definition len {A} (l : list A) : Z := Z.of_nat (length l).

(** ** Python's [str] methods *)

Module Str.

Definition eqb (a b : str) : bool := bool_decide (a = b).

Definition nonempty {A} (l : list A) : bool :=
  match l with [] => false | _ :: _ => true end.

(** [c.isspace()] for one character: TAB, LF, VT, FF, CR, the four
    separators FS, GS, RS, US, and the space. *)
Definition is_space (c : ascii) : bool :=
  let n := nat_of_ascii c in
  ((9 <=? n)%nat && (n <=? 13)%nat) || ((28 <=? n)%nat && (n <=? 32)%nat).

Definition is_lower (c : ascii) : bool :=
  let n := nat_of_ascii c in (97 <=? n)%nat && (n <=? 122)%nat.

Definition is_upper (c : ascii) : bool :=
  let n := nat_of_ascii c in (65 <=? n)%nat && (n <=? 90)%nat.

Definition to_upper (c : ascii) : ascii :=
  if is_lower c then ascii_of_nat (nat_of_ascii c - 32) else c.

Definition to_lower (c : ascii) : ascii :=
  if is_upper c then ascii_of_nat (nat_of_ascii c + 32) else c.

Fixpoint drop_while (p : ascii -> bool) (s : str) : str :=
  match s with
  | [] => []
  | c :: r => if p c then drop_while p r else s
  end.

Fixpoint take_while (p : ascii -> bool) (s : str) : str :=
  match s with
  | [] => []
  | c :: r => if p c then c :: take_while p r else []
  end.

Definition lstrip (s : str) : str := drop_while is_space s.
Definition rstrip (s : str) : str := rev (drop_while is_space (rev s)).

(** [s.strip()] *)
Definition strip (s : str) : str := rstrip (lstrip s).

(** [s.split(sep)] for a one-character separator. *)
Fixpoint split_char_from (sep : ascii) (acc : str) (s : str) : list str :=
  match s with
  | [] => [rev acc]
  | c :: r =>
      if Ascii.eqb c sep then rev acc :: split_char_from sep [] r
      else split_char_from sep (c :: acc) r
  end.

Definition split_char (sep : ascii) (s : str) : list str :=
  split_char_from sep [] s.

(** [s.split("\n\n")]: the separators are the occurrences of two line
    feeds found from left to right, without overlap. *)
Fixpoint split_blank_from (acc : str) (s : str) : list str :=
  match s with
  | [] => [rev acc]
  | c :: r =>
      match r with
      | d :: r' =>
          if Ascii.eqb c "010" && Ascii.eqb d "010"
          then rev acc :: split_blank_from [] r'
          else split_blank_from (c :: acc) r
      | [] => split_blank_from (c :: acc) r
      end
  end.

Definition split_blank (s : str) : list str := split_blank_from [] s.

(** [sep.join(parts)] *)
Fixpoint join (sep : str) (parts : list str) : str :=
  match parts with
  | [] => []
  | [p] => p
  | p :: rest => p ++ sep ++ join sep rest
  end.

(** [s.replace(a, b)] for one-character [a] and [b]. *)
Definition replace_char (a b : ascii) (s : str) : str :=
  map (fun c => if Ascii.eqb c a then b else c) s.

(** [s.title()] on ASCII text: a cased letter is upper-cased when the
    character before it is not a cased letter, and lower-cased otherwise. *)
Fixpoint title_from (prev_cased : bool) (s : str) : str :=
  match s with
  | [] => []
  | c :: r =>
      if is_lower c then
        (if prev_cased then c else to_upper c) :: title_from true r
      else if is_upper c then
        (if prev_cased then to_lower c else c) :: title_from true r
      else c :: title_from false r
  end.

Definition title (s : str) : str := title_from false s.

(** [s.startswith(p)], returning what follows the prefix. *)
Fixpoint strip_prefix (p s : str) : option str :=
  match p, s with
  | [], _ => Some s
  | a :: p', b :: s' => if Ascii.eqb a b then strip_prefix p' s' else None
  | _ :: _, [] => None
  end.

(** [s.rfind(c)] as the text before and after the last [c]. *)
Fixpoint rsplit_last (c : ascii) (s : str) : option (str * str) :=
  match s with
  | [] => None
  | a :: r =>
      match rsplit_last c r with
      | Some (pre, post) => Some (a :: pre, post)
      | None => if Ascii.eqb a c then Some ([], r) else None
      end
  end.

End Str.

Arguments Str.is_space : simpl never.

(** ** Run-time values, exceptions and results *)

(** The values [yaml.safe_load] and a JSON request body can hold.  Mapping
    keys are strings. *)
Inductive pyval :=
| VNone
| VBool (b : bool)
| VInt (n : Z)
| VStr (s : str)
| VList (l : list pyval)
| VDict (d : list (str * pyval)).

Abbreviation dict := (list (str * pyval)).

(** [bool(v)] *)
Definition truthy (v : pyval) : bool :=
  match v with
  | VNone => false
  | VBool b => b
  | VInt n => negb (n =? 0)
  | VStr s => Str.nonempty s
  | VList l => Str.nonempty l
  | VDict d => Str.nonempty d
  end.

(** [a or b] *)
Definition py_or (a b : pyval) : pyval := if truthy a then a else b.

(** [type(v).__name__] *)
Definition type_name (v : pyval) : str :=
  match v with
  | VNone => py "NoneType"
  | VBool _ => py "bool"
  | VInt _ => py "int"
  | VStr _ => py "str"
  | VList _ => py "list"
  | VDict _ => py "dict"
  end.

Definition is_str (v : pyval) : bool :=
  match v with VStr _ => true | _ => false end.

(** [d.get(k)] on a dict; [None] stands for a missing key. *)
Fixpoint dict_get (k : str) (d : dict) : option pyval :=
  match d with
  | [] => None
  | (k', v) :: r => if Str.eqb k' k then Some v else dict_get k r
  end.

(** [d[k] = v]: an existing key keeps its place, a new one goes last. *)
Fixpoint dict_set (k : str) (v : pyval) (d : dict) : dict :=
  match d with
  | [] => [(k, v)]
  | (k', v') :: r =>
      if Str.eqb k' k then (k', v) :: r else (k', v') :: dict_set k v r
  end.

(** [{**d, **extra}] *)
Definition dict_update (d extra : dict) : dict :=
  fold_left (fun acc kv => dict_set (fst kv) (snd kv) acc) extra d.

Inductive exn_class :=
| YAMLError | AttributeError | TypeError | ValueError | OSError
| UnicodeDecodeError | RuntimeError.

(** An exception with the text [str(e)] gives. *)
Record exn := Exn { exn_kind : exn_class; exn_msg : str }.

Inductive result (A : Type) :=
| Ok (a : A)
| Raise (e : exn).
Arguments Ok {A} a.
Arguments Raise {A} e.

#[export] Instance result_ret : MRet result := fun A a => Ok a.

#[export] Instance result_bind : MBind result := fun A B k r =>
  match r with
  | Ok a => k a
  | Raise e => Raise e
  end.

Definition is_ok {A} (r : result A) : bool :=
  match r with Ok _ => true | Raise _ => false end.

(** [isinstance(e, yaml.YAMLError)] *)
Definition is_yaml_error (e : exn) : bool :=
  match exn_kind e with YAMLError => true | _ => false end.

(** [obj.get] exists on a dict only: on any other value the attribute
    lookup raises [AttributeError]. *)
Definition no_attribute (v : pyval) (attr : str) : exn :=
  Exn AttributeError
      (py "'" ++ type_name v ++ py "' object has no attribute '" ++ attr ++ py "'").

Definition get_method (v : pyval) : result dict :=
  match v with
  | VDict d => Ok d
  | _ => Raise (no_attribute v (py "get"))
  end.

(** ** The two patterns of the indexer *)

(** [FRONTMATTER_PATTERN = re.compile(r'^---\n(.*?)\n---\n?', re.DOTALL)],
    used through [.match]: the text must start with three dashes and a line
    feed; the lazy group stops at the first line feed followed by three
    dashes; one more line feed is consumed when present. *)
Fixpoint until_closing_dashes (s : str) : option (str * str) :=
  match Str.strip_prefix (py "
---") s with
  | Some tail => Some ([], tail)
  | None =>
      match s with
      | [] => None
      | c :: r =>
          match until_closing_dashes r with
          | Some (g, tail) => Some (c :: g, tail)
          | None => None
          end
      end
  end.

(** The result is [(m.group(1), content[m.end():])]. *)
Definition FRONTMATTER_PATTERN_match (content : str) : option (str * str) :=
  match Str.strip_prefix (py "---
") content with
  | None => None
  | Some rest =>
      match until_closing_dashes rest with
      | None => None
      | Some (g, tail) =>
          Some (g, match tail with
                   | c :: t => if Ascii.eqb c "010" then t else tail
                   | [] => tail
                   end)
      end
  end.

Definition not_newline (c : ascii) : bool := negb (Ascii.eqb c "010").

(** What the engine finds when the whitespace run after the hash reaches
    the end of the text: it gives back whitespace until a character other
    than a line feed can start the group, keeping at least one character
    for [\s+].  [w] is the run without its first character; the group is
    then that single character. *)
Fixpoint last_non_newline (w : str) : option ascii :=
  match w with
  | [] => None
  | c :: r =>
      match last_non_newline r with
      | Some d => Some d
      | None => if not_newline c then Some c else None
      end
  end.

(** [HEADING_PATTERN = re.compile(r'^#\s+(.+)$', re.MULTILINE)] tried at one
    line start: a hash, a greedy whitespace run (which may cross line
    feeds), then the group up to the end of its line. *)
Definition heading_at (s : str) : option str :=
  match s with
  | c :: r =>
      if Ascii.eqb c "#" then
        match Str.take_while Str.is_space r with
        | [] => None
        | _ :: w =>
            match Str.drop_while Str.is_space r with
            | (_ :: _) as rest => Some (Str.take_while not_newline rest)
            | [] => option_map (fun d => [d]) (last_non_newline w)
            end
        end
      else None
  | [] => None
  end.

(** [.search]: the first line start (the start of the text, or just after a
    line feed) where the pattern matches; the result is [group(1)]. *)
Fixpoint heading_search_from (line_start : bool) (s : str) : option str :=
  match (if line_start then heading_at s else None) with
  | Some g => Some g
  | None =>
      match s with
      | [] => None
      | c :: r => heading_search_from (Ascii.eqb c "010") r
      end
  end.

Definition HEADING_PATTERN_search (body : str) : option str :=
  heading_search_from true body.

(** [re.split(r'(?<=[.!?])\s+', text)]: a separator is a whitespace run that
    follows a full stop, an exclamation mark or a question mark.
    [skipping] holds inside a separator, [after_mark] right after a mark. *)
Definition is_mark (c : ascii) : bool :=
  Ascii.eqb c "." || Ascii.eqb c "!" || Ascii.eqb c "?".

Fixpoint sentence_split_from (skipping after_mark : bool) (acc s : str)
  : list str :=
  match s with
  | [] => [rev acc]
  | c :: r =>
      if Str.is_space c then
        if skipping then sentence_split_from true false acc r
        else if after_mark then rev acc :: sentence_split_from true false [] r
        else sentence_split_from false false (c :: acc) r
      else sentence_split_from false (is_mark c) (c :: acc) r
  end.

Definition SENTENCE_PATTERN_split (text : str) : list str :=
  sentence_split_from false false [] text.

(** ** [pathlib.Path] on a POSIX system *)

Module Path.

Definition components (p : str) : list str :=
  List.filter (fun c => negb (Str.eqb c [] || Str.eqb c (py ".")))
              (Str.split_char "/" p).

(** The root: one slash, or two when the path starts with exactly two. *)
Definition root (p : str) : list str :=
  match p with
  | a :: r =>
      if Ascii.eqb a "/" then
        match r with
        | b :: r' =>
            if Ascii.eqb b "/" then
              match r' with
              | c :: _ => if Ascii.eqb c "/" then [py "/"] else [py "//"]
              | [] => [py "//"]
              end
            else [py "/"]
        | [] => [py "/"]
        end
      else []
  | [] => []
  end.

(** [Path(p).parts] *)
Definition parts (p : str) : list str := root p ++ components p.

(** [Path(p).name] *)
Definition name (p : str) : str := List.last (components p) [].

(** [Path(p).stem]: the name without its last suffix; a dot that starts or
    ends the name does not begin a suffix. *)
Definition stem (p : str) : str :=
  let n := name p in
  match Str.rsplit_last "." n with
  | Some (pre, post) =>
      if Str.nonempty pre && Str.nonempty post then pre else n
  | None => n
  end.

End Path.

(** ** [indexer.py] *)

Record ParsedDocument := {
  path : str;
  title : pyval;
  content : str;
  category : pyval;
  tags : pyval;
  metadata : dict;
  chunks : option (list str);
}.

Record VaultIndexer := {
  chunk_size : Z;
  chunk_overlap : Z;
}.

(** [VaultIndexer(embedder)] with the default sizes. *)
Definition default_indexer : VaultIndexer :=
  {| chunk_size := 500; chunk_overlap := 50 |}.

(** The title taken from the file name:
    [Path(path).stem.replace("-", " ").replace("_", " ").title()]. *)
Definition filename_title (p : str) : str :=
  Str.title (Str.replace_char "_" " " (Str.replace_char "-" " " (Path.stem p))).

(** The tags of the frontmatter: a string is split on commas and each part
    is stripped, anything else is kept as it is. *)
Definition read_tags (t : pyval) : pyval :=
  match t with
  | VStr s => VList (map (fun x => VStr (Str.strip x)) (Str.split_char "," s))
  | _ => t
  end.

Section Parser.

(** [yaml.safe_load]: the loaded value, or the exception it raises. *)
Variable safe_load : str -> result pyval.

(** The first block of [parse_markdown]: the value bound to [metadata]
    and the text bound to [body].  Only [yaml.YAMLError] is caught. *)
Definition extract_frontmatter (text : str) : result (pyval * str) :=
  match FRONTMATTER_PATTERN_match text with
  | None => Ok (VDict [], text)
  | Some (frontmatter_text, rest) =>
      match safe_load frontmatter_text with
      | Ok v => Ok (py_or v (VDict []), rest)
      | Raise e =>
          if is_yaml_error e then Ok (VDict [], text) else Raise e
      end
  end.

Definition parse_markdown (text : str) (p : str) : result ParsedDocument :=
  '(loaded, body) ← extract_frontmatter text;
  (* every later use of [metadata] is a call of [metadata.get] *)
  md ← get_method loaded;
  let title0 := default VNone (dict_get (py "title") md) in
  let title1 :=
    if truthy title0 then title0
    else match HEADING_PATTERN_search body with
         | Some g => VStr (Str.strip g)
         | None => VStr (filename_title p)
         end in
  let category0 := default VNone (dict_get (py "category") md) in
  let category1 :=
    if truthy category0 then category0
    else let path_parts := Path.parts p in
         if len path_parts >? 1
         then match path_parts with
              | first :: _ => VStr first
              | [] => category0
              end
         else category0 in
  let tags1 := read_tags (default (VList []) (dict_get (py "tags") md)) in
  Ok {| path := p;
        title := title1;
        content := Str.strip body;
        category := category1;
        tags := tags1;
        metadata := md;
        chunks := None |}.

End Parser.

(** [_split_sentences] *)
Definition _split_sentences (text : str) : list str :=
  List.filter Str.nonempty (map Str.strip (SENTENCE_PATTERN_split text)).

(** [chunks.append(current_chunk.strip())] under [if current_chunk:] *)
Definition flush (chunks : list str) (current_chunk : str) : list str :=
  if Str.nonempty current_chunk then chunks ++ [Str.strip current_chunk]
  else chunks.

(** The loop state of [chunk_document]: [(chunks, current_chunk)]. *)
Definition sentence_step (cs : Z) (st : list str * str) (sentence : str)
  : list str * str :=
  let '(chunks, current_chunk) := st in
  if len current_chunk + len sentence + 1 >? cs
  then (flush chunks current_chunk, sentence)
  else (chunks, Str.strip (current_chunk ++ py " " ++ sentence)).

Definition paragraph_step (cs : Z) (st : list str * str) (para0 : str)
  : list str * str :=
  let '(chunks, current_chunk) := st in
  let para := Str.strip para0 in
  if negb (Str.nonempty para) then st
  else if len current_chunk + len para + 2 >? cs then
    let chunks := flush chunks current_chunk in
    if len para >? cs
    then fold_left (sentence_step cs) (_split_sentences para)
                   (chunks, current_chunk)
    else (chunks, para)
  else (chunks, Str.strip (current_chunk ++ py "

" ++ para)).

Definition chunk_document (self : VaultIndexer) (doc : ParsedDocument)
  : list str :=
  let cs := chunk_size self in
  if len (content doc) <=? cs then [content doc]
  else
    let '(chunks, current_chunk) :=
      fold_left (paragraph_step cs) (Str.split_blank (content doc)) ([], []) in
    flush chunks current_chunk.

(** ** [main.py]: the indexing endpoints *)

Inductive http (A : Type) :=
| Response (a : A)
| HTTPException (status_code : Z) (detail : str).
Arguments Response {A} a.
Arguments HTTPException {A} status_code detail.

Record IndexRequest := {
  req_path : str;
  req_content : str;
  req_metadata : option dict;
}.

(** The answer of [/index]. *)
Record IndexResponse := {
  ir_success : bool;
  ir_path : str;
  ir_doc_id : str;
  ir_title : pyval;
}.

(** The answer of [DELETE /document/{path}]. *)
Record DeleteResponse := {
  dr_success : bool;
  dr_path : str;
  dr_doc_id : str;
}.

(** One [{"file": ..., "error": ...}] of the sweep. *)
Record FileError := { file : str; error : str }.

(** The answer of [/index-vault]. *)
Record VaultResponse := {
  vr_success : bool;
  indexed : Z;
  total_files : Z;
  errors : option (list FileError);
}.

(** One path found by [vault_path.rglob("*.md")]: [str(md_file)],
    [str(md_file.relative_to(vault_path))] and what
    [md_file.read_text(encoding="utf-8")] does. *)
Record md_file := {
  full_path : str;
  relative_path : str;
  read_text : result str;
}.

(** The vault directory as the sweep sees it. *)
Record Vault := {
  VAULT_PATH : str;
  vault_exists : bool;
  rglob_md : list md_file;
}.

Record EmbeddingModel := { model_name : str }.

(** [str(i)] for a list index. *)
Definition str_of_nat (i : nat) : str :=
  py (DecimalString.NilEmpty.string_of_uint (Nat.to_uint i)).

(** The items of [",".join(items)] must all be strings. *)
Fixpoint join_items (i : nat) (items : list pyval) : result (list str) :=
  match items with
  | [] => Ok []
  | VStr s :: r => rest ← join_items (S i) r; Ok (s :: rest)
  | v :: _ =>
      Raise (Exn TypeError
                 (py "sequence item " ++ str_of_nat i
                  ++ py ": expected str instance, " ++ type_name v ++ py " found"))
  end.

(** [",".join(doc.tags)]: a list is joined, a dict gives its keys, a string
    its characters; nothing else can be iterated. *)
Definition join_tags (t : pyval) : result str :=
  match t with
  | VList l => items ← join_items 0 l; Ok (Str.join (py ",") items)
  | VDict d => Ok (Str.join (py ",") (map fst d))
  | VStr s => Ok (Str.join (py ",") (map (fun c => [c]) s))
  | _ => Raise (Exn TypeError (py "can only join an iterable"))
  end.

(** *** What the collection keeps of a metadata dict

    [collection.upsert] is chromadb's.  Before it stores a record it checks
    the metadata field by field, in the order of the dict, and raises on
    the first field it refuses (a mapping as a value, say); a field it
    accepts is kept as the library renders it, or not kept at all (a
    [None]).  A string under a key of the caller's is kept as it is; the
    keys that start with "chroma:" are the library's own.  For every other
    field [chroma_field key value] is the library's answer: the exception,
    or what is kept. *)

Definition reserved_key (k : str) : bool :=
  match Str.strip_prefix (py "chroma:") k with
  | Some _ => true
  | None => false
  end.

Section Chroma.

Variable chroma_field : str -> pyval -> result (option pyval).

Definition store_field (k : str) (v : pyval) : result (option pyval) :=
  match v with
  | VStr _ => if reserved_key k then chroma_field k v else Ok (Some v)
  | _ => chroma_field k v
  end.

(** The metadata kept with the entry, or the exception of the check. *)
Fixpoint stored_metadata (md : dict) : result dict :=
  match md with
  | [] => Ok []
  | (k, v) :: r =>
      kept ← store_field k v;
      rest ← stored_metadata r;
      Ok (match kept with
          | Some v' => (k, v') :: rest
          | None => rest
          end)
  end.

End Chroma.

Section Service.

Variable safe_load : str -> result pyval.

(** [hashlib.md5(s.encode()).hexdigest()] *)
Variable md5_hexdigest : str -> str.

(** The embedding vectors and [embedder.encode(text)]. *)
Variable vector : Type.
Variable encode : str -> result vector.

(** [datetime.utcnow().isoformat()] at the [n]-th reading of the clock. *)
Variable utcnow : nat -> str.

(** The check of one metadata field by the collection. *)
Variable chroma_field : str -> pyval -> result (option pyval).

(** What the collection keeps under one identifier. *)
Record IndexEntry := {
  embedding : vector;
  document : str;
  entry_metadata : dict;
}.

Record AppState := {
  embedder : option EmbeddingModel;
  collection : option (gmap str IndexEntry);
  indexer : option VaultIndexer;
  last_indexed : option str;
}.

(** The service and the number of clock readings made so far. *)
Record World := { state : AppState; clock : nat }.

(** The document identifier, computed alike by [/index], [/index-vault]
    and the delete endpoint. *)
Definition doc_id_of (p : str) : str := md5_hexdigest p.

(** [state.embedder.encode(text)] *)
Definition embedder_encode (st : AppState) (text : str) : result vector :=
  match embedder st with
  | Some _ => encode text
  | None => Raise (no_attribute VNone (py "encode"))
  end.

(** The dict literal bound to [metadata]; [extra] is [request.metadata or
    {}] in [/index] and empty in the sweep, which has no such fields. *)
Definition build_metadata (p : str) (doc : ParsedDocument) (now : str)
           (extra : dict) : dict :=
  dict_update
    [ (py "path", VStr p);
      (py "title", title doc);
      (py "category", py_or (category doc) (VStr (py "uncategorized")));
      (py "indexed_at", VStr now) ]
    extra.

(** [if doc.tags: metadata["tags"] = ",".join(doc.tags)] *)
Definition add_tags (doc : ParsedDocument) (md : dict) : result dict :=
  if truthy (tags doc) then
    joined ← join_tags (tags doc); Ok (dict_set (py "tags") (VStr joined) md)
  else Ok md.

(** The statements both endpoints run inside their [try], from
    [parse_markdown] to [collection.upsert]: the clock after them, and the
    new collection with the parsed document, or the exception.  The clock
    is read once, after the embedding is computed.  [upsert] raises when
    the collection refuses the metadata, and stores nothing then. *)
Definition parse_and_upsert (st : AppState) (coll : gmap str IndexEntry)
           (t : nat) (p text : str) (extra : dict)
  : nat * result (gmap str IndexEntry * ParsedDocument) :=
  match (doc ← parse_markdown safe_load text p;
         emb ← embedder_encode st (content doc);
         Ok (doc, emb)) with
  | Raise e => (t, Raise e)
  | Ok (doc, emb) =>
      let doc_id := doc_id_of p in
      match add_tags doc (build_metadata p doc (utcnow t) extra) with
      | Raise e => (S t, Raise e)
      | Ok md =>
          match stored_metadata chroma_field md with
          | Raise e => (S t, Raise e)
          | Ok kept =>
              (S t,
               Ok (<[doc_id := {| embedding := emb;
                                  document := content doc;
                                  entry_metadata := kept |}]> coll,
                   doc))
          end
      end
  end.

Definition with_collection (st : AppState) (coll : gmap str IndexEntry)
           (stamp : option str) : AppState :=
  {| embedder := embedder st;
     collection := Some coll;
     indexer := indexer st;
     last_indexed := stamp |}.

(** [POST /index] *)
Definition index_document (w : World) (request : IndexRequest)
  : World * http IndexResponse :=
  match collection (state w), indexer (state w) with
  | Some coll, Some _ =>
      match parse_and_upsert (state w) coll (clock w) (req_path request)
              (req_content request) (default [] (req_metadata request)) with
      | (t, Ok (coll', doc)) =>
          ({| state := with_collection (state w) coll' (Some (utcnow t));
              clock := S t |},
           Response {| ir_success := true;
                       ir_path := req_path request;
                       ir_doc_id := doc_id_of (req_path request);
                       ir_title := title doc |})
      | (t, Raise e) =>
          ({| state := state w; clock := t |}, HTTPException 500 (exn_msg e))
      end
  | _, _ => (w, HTTPException 503 (py "Service not initialized"))
  end.

(** The loop state of the sweep: collection, clock, [indexed], [errors]. *)
Record Sweep := {
  sw_collection : gmap str IndexEntry;
  sw_clock : nat;
  sw_indexed : Z;
  sw_errors : list FileError;
}.

(** The body of [for md_file in md_files]. *)
Definition sweep_file (st : AppState) (s : Sweep) (f : md_file) : Sweep :=
  let failed t e :=
    {| sw_collection := sw_collection s;
       sw_clock := t;
       sw_indexed := sw_indexed s;
       sw_errors := sw_errors s
                    ++ [{| file := full_path f; error := exn_msg e |}] |} in
  match read_text f with
  | Raise e => failed (sw_clock s) e
  | Ok text =>
      match parse_and_upsert st (sw_collection s) (sw_clock s)
              (relative_path f) text [] with
      | (t, Ok (coll', _)) =>
          {| sw_collection := coll';
             sw_clock := t;
             sw_indexed := sw_indexed s + 1;
             sw_errors := sw_errors s |}
      | (t, Raise e) => failed t e
      end
  end.

(** [POST /index-vault] *)
Definition index_entire_vault (w : World) (vault : Vault)
  : World * http VaultResponse :=
  match collection (state w), indexer (state w) with
  | Some coll, Some _ =>
      if negb (vault_exists vault) then
        (w, HTTPException 404 (py "Vault path not found: " ++ VAULT_PATH vault))
      else
        let md_files := rglob_md vault in
        let s := fold_left (sweep_file (state w)) md_files
                   {| sw_collection := coll;
                      sw_clock := clock w;
                      sw_indexed := 0;
                      sw_errors := [] |} in
        ({| state := with_collection (state w) (sw_collection s)
                       (Some (utcnow (sw_clock s)));
            clock := S (sw_clock s) |},
         Response {| vr_success := true;
                     indexed := sw_indexed s;
                     total_files := len md_files;
                     errors := if Str.nonempty (sw_errors s)
                               then Some (sw_errors s) else None |})
  | _, _ => (w, HTTPException 503 (py "Service not initialized"))
  end.

(** [DELETE /document/{path}] *)
Definition delete_document (w : World) (p : str)
  : World * http DeleteResponse :=
  match collection (state w) with
  | Some coll =>
      let doc_id := doc_id_of p in
      ({| state := with_collection (state w) (delete doc_id coll)
                     (last_indexed (state w));
          clock := clock w |},
       Response {| dr_success := true; dr_path := p; dr_doc_id := doc_id |})
  | None => (w, HTTPException 503 (py "Service not initialized"))
  end.

(** [state.collection.count()] *)
Definition count (w : World) : Z :=
  match collection (state w) with
  | Some coll => Z.of_nat (size coll)
  | None => 0
  end.

End Service.

Arguments embedding {vector} _.
Arguments document {vector} _.
Arguments entry_metadata {vector} _.
Arguments embedder {vector} _.
Arguments collection {vector} _.
Arguments indexer {vector} _.
Arguments last_indexed {vector} _.
Arguments state {vector} _.
Arguments clock {vector} _.
Arguments sw_collection {vector} _.
Arguments sw_clock {vector} _.
Arguments sw_indexed {vector} _.
Arguments sw_errors {vector} _.
Arguments count {vector} _.

(** ** [indexer.py]: keywords and search text *)

Definition is_digit (c : ascii) : bool :=
  let n := nat_of_ascii c in (48 <=? n)%nat && (n <=? 57)%nat.

Definition is_letter (c : ascii) : bool := Str.is_lower c || Str.is_upper c.

(** [\w]: a letter, a digit or the underscore. *)
Definition is_word_char (c : ascii) : bool :=
  is_letter c || is_digit c || Ascii.eqb c "_".

(** [s.lower()] *)
Definition lower (s : str) : str := map Str.to_lower s.

(** [re.findall(r'\b[a-zA-Z]{3,}\b', text)]: the runs of word characters
    that are made of letters only and have three letters or more.  [run]
    holds the letters read since the last word boundary, last first, or
    nothing once the run has a digit or an underscore. *)
Definition emit_word (run : option str) : list str :=
  match run with
  | Some acc => if (3 <=? length acc)%nat then [rev acc] else []
  | None => []
  end.

Fixpoint WORD_PATTERN_findall_from (run : option str) (s : str) : list str :=
  match s with
  | [] => emit_word run
  | c :: r =>
      if is_letter c then WORD_PATTERN_findall_from (option_map (cons c) run) r
      else if is_word_char c then WORD_PATTERN_findall_from None r
      else emit_word run ++ WORD_PATTERN_findall_from (Some []) r
  end.

Definition WORD_PATTERN_findall (body : str) : list str :=
  WORD_PATTERN_findall_from (Some []) body.

Definition stop_words : list str :=
  map py
  ["the"; "a"; "an"; "and"; "or"; "but"; "in"; "on"; "at"; "to"; "for";
   "of"; "with"; "by"; "from"; "up"; "about"; "into"; "through"; "during";
   "before"; "after"; "above"; "below"; "between"; "under"; "again";
   "further"; "then"; "once"; "here"; "there"; "when"; "where"; "why";
   "how"; "all"; "each"; "few"; "more"; "most"; "other"; "some"; "such";
   "no"; "nor"; "not"; "only"; "own"; "same"; "so"; "than"; "too"; "very";
   "s"; "t"; "can"; "will"; "just"; "don"; "should"; "now"; "d"; "ll"; "m";
   "o"; "re"; "ve"; "y"; "ain"; "aren"; "couldn"; "didn"; "doesn"; "hadn";
   "hasn"; "haven"; "isn"; "ma"; "mightn"; "mustn"; "needn"; "shan";
   "shouldn"; "wasn"; "weren"; "won"; "wouldn"; "is"; "are"; "was"; "were";
   "be"; "been"; "being"; "have"; "has"; "had"; "having"; "do"; "does";
   "did"; "doing"; "would"; "could"; "might"; "must"; "shall"; "this";
   "that"; "these"; "those"; "i"; "me"; "my"; "myself"; "we"; "our";
   "ours"; "ourselves"; "you"; "your"; "yours"; "yourself"; "he"; "him";
   "his"; "himself"; "she"; "her"; "hers"; "herself"; "it"; "its";
   "itself"; "they"; "them"; "their"; "theirs"; "themselves"; "what";
   "which"; "who"; "whom"; "as"; "if"; "because"; "while" ]%string.

(** [word in stop_words] *)
Definition is_stop_word (w : str) : bool := existsb (Str.eqb w) stop_words.

(** [word_freq[word] = word_freq.get(word, 0) + 1]; a dict keeps its keys
    in the order they were first written. *)
Fixpoint count_word (w : str) (freq : list (str * Z)) : list (str * Z) :=
  match freq with
  | [] => [(w, 1)]
  | (w', n) :: r =>
      if Str.eqb w' w then (w', n + 1) :: r else (w', n) :: count_word w r
  end.

Definition word_frequencies (words : list str) : list (str * Z) :=
  fold_left (fun freq w => if is_stop_word w then freq else count_word w freq)
            words [].

(** [sorted(items, key=lambda x: x[1], reverse=True)]: the sort is stable,
    items with the same count keep their order. *)
Fixpoint insert_by_count (x : str * Z) (l : list (str * Z)) : list (str * Z) :=
  match l with
  | [] => [x]
  | y :: r => if y.2 >? x.2 then y :: insert_by_count x r else x :: l
  end.

Definition sorted_by_count (l : list (str * Z)) : list (str * Z) :=
  fold_right insert_by_count [] l.

(** [l[:k]]: the first [k] items, or all but the last [-k] ones. *)
Definition slice_to {A} (k : Z) (l : list A) : list A :=
  if 0 <=? k then take (Z.to_nat k) l
  else take (length l - Z.to_nat (- k)) l.

Definition extract_keywords (doc : ParsedDocument) (top_k : Z) : list str :=
  let words := WORD_PATTERN_findall (lower (content doc)) in
  let word_freq := word_frequencies words in
  let sorted_words := sorted_by_count word_freq in
  map fst (slice_to top_k sorted_words).

(** [sep.join(items)] for a run-time value: a list of strings is joined, a
    dict gives its keys, a string its characters. *)
Definition join_values (sep : str) (t : pyval) : result str :=
  match t with
  | VList l => items ← join_items 0 l; Ok (Str.join sep items)
  | VDict d => Ok (Str.join sep (map fst d))
  | VStr s => Ok (Str.join sep (map (fun c => [c]) s))
  | _ => Raise (Exn TypeError (py "can only join an iterable"))
  end.

Section SearchText.

(** [str(v)], as an f-string writes a value that is not a string. *)
Variable str_of_value : pyval -> str.

Definition format_value (v : pyval) : str :=
  match v with
  | VStr s => s
  | _ => str_of_value v
  end.

Definition create_search_text (doc : ParsedDocument) : result str :=
  let parts :=
    (if truthy (title doc)
     then [py "Title: " ++ format_value (title doc)] else [])
    ++ (if truthy (category doc)
        then [py "Category: " ++ format_value (category doc)] else []) in
  parts ←
    (if truthy (tags doc)
     then joined ← join_values (py ", ") (tags doc);
          Ok (parts ++ [py "Tags: " ++ joined])
     else Ok parts);
  Ok (Str.join (py "

") (parts ++ [content doc])).

End SearchText.

(** ** [main.py]: statistics and reset *)

(** A value that can be a dict key: lists and dicts cannot. *)
Definition hashable (v : pyval) : bool :=
  match v with
  | VList _ | VDict _ => false
  | _ => true
  end.

(** [a == b] for two keys: booleans are the numbers 0 and 1. *)
Definition key_eqb (a b : pyval) : bool :=
  match a, b with
  | VNone, VNone => true
  | VBool x, VBool y => Bool.eqb x y
  | VBool x, VInt n | VInt n, VBool x => n =? (if x then 1 else 0)
  | VInt n, VInt m => n =? m
  | VStr s, VStr t => Str.eqb s t
  | _, _ => false
  end.

(** [categories[cat] = categories.get(cat, 0) + 1] *)
Fixpoint count_category (c : pyval) (cats : list (pyval * Z))
  : list (pyval * Z) :=
  match cats with
  | [] => [(c, 1)]
  | (c', n) :: r =>
      if key_eqb c' c then (c', n + 1) :: r else (c', n) :: count_category c r
  end.

Record IndexStats := {
  total_documents : Z;
  total_chunks : Z;
  categories : list (pyval * Z);
  stats_last_indexed : option str;
  vault_path : str;
}.

(** The answer of [/reset]. *)
Record ResetResponse := { rr_success : bool; rr_message : str }.

Section Statistics.

Variable vector : Type.

(** The loop of [get_stats] over the metadata of the entries; a category
    that cannot be a dict key raises [TypeError]. *)
Fixpoint count_categories (mds : list dict) (cats : list (pyval * Z))
  : result (list (pyval * Z)) :=
  match mds with
  | [] => Ok cats
  | md :: r =>
      let cat := default (VStr (py "uncategorized"))
                         (dict_get (py "category") md) in
      if hashable cat then count_categories r (count_category cat cats)
      else Raise (Exn TypeError
                      (py "unhashable type: '" ++ type_name cat ++ py "'"))
  end.

(** [GET /stats]; [collection.get] lists the entries in the order of the
    map. *)
Definition get_stats (w : World vector) (configured_vault : str)
  : http IndexStats :=
  match collection (state w) with
  | Some coll =>
      let metadatas := map (fun kv => entry_metadata kv.2) (map_to_list coll) in
      match count_categories metadatas [] with
      | Ok cats =>
          Response {| total_documents := count w;
                      total_chunks := count w;
                      categories := cats;
                      stats_last_indexed := last_indexed (state w);
                      vault_path := configured_vault |}
      | Raise e => HTTPException 500 (exn_msg e)
      end
  | None => HTTPException 503 (py "Service not initialized")
  end.

(** [POST /reset]: the collection is deleted and created again.
    [chroma_client] tells whether [state.chroma_client] is set. *)
Definition reset_index (chroma_client : bool) (w : World vector)
  : World vector * http ResetResponse :=
  if chroma_client then
    ({| state := {| embedder := embedder (state w);
                    collection := Some ∅;
                    indexer := indexer (state w);
                    last_indexed := None |};
        clock := clock w |},
     Response {| rr_success := true;
                 rr_message := py "Index reset successfully" |})
  else (w, HTTPException 503 (py "Service not initialized")).

End Statistics.

(** ** [embeddings.py]: cosine similarity *)

Section Similarity.

Import PrimFloat.

(** [np.dot] on two flat arrays of the same size, and [np.linalg.norm] on
    a flat array. *)
Variable np_dot : list float -> list float -> float.
Variable np_norm : list float -> float.

(** The exception of [np.dot] on flat arrays of different sizes. *)
Definition shapes_not_aligned (n m : nat) : exn :=
  Exn ValueError
      (py "shapes (" ++ str_of_nat n ++ py ",) and (" ++ str_of_nat m
       ++ py ",) not aligned: " ++ str_of_nat n ++ py " (dim 0) != "
       ++ str_of_nat m ++ py " (dim 0)").

(** [EmbeddingModel.similarity] on the flattened arrays. *)
Definition similarity (e1 e2 : list float) : result float :=
  if negb (length e1 =? length e2)%nat then
    Raise (shapes_not_aligned (length e1) (length e2))
  else
    let dot_product := np_dot e1 e2 in
    let norm1 := np_norm e1 in
    let norm2 := np_norm e2 in
    if (norm1 =? 0)%float || (norm2 =? 0)%float then Ok 0%float
    else Ok (dot_product / (norm1 * norm2))%float.

End Similarity.

(** ** Notions used to state the properties *)

(** *** The chunker as the specification words it

    Paragraphs are accumulated in a buffer; a paragraph that does not fit
    closes the buffer as a chunk and starts the next buffer; a paragraph
    longer than the limit closes the buffer and is packed sentence by
    sentence, by the same rule, into a buffer that starts empty. *)

Definition paragraphs (text : str) : list str :=
  List.filter Str.nonempty (map Str.strip (Str.split_blank text)).

Definition spec_flush (chunks : list str) (buffer : str) : list str :=
  if Str.nonempty buffer then chunks ++ [buffer] else chunks.

Definition spec_pack (cs : Z) (sep : str) (st : list str * str) (unit : str)
  : list str * str :=
  let '(chunks, buffer) := st in
  if Str.nonempty buffer then
    if len (buffer ++ sep ++ unit) >? cs
    then (chunks ++ [buffer], unit)
    else (chunks, buffer ++ sep ++ unit)
  else (chunks, unit).

Definition spec_paragraph (cs : Z) (st : list str * str) (para : str)
  : list str * str :=
  if len para >? cs
  then fold_left (spec_pack cs (py " ")) (_split_sentences para)
                 (spec_flush (fst st) (snd st), [])
  else spec_pack cs (py "

") st para.

Definition chunk_as_specified (cs : Z) (text : str) : list str :=
  if len text <=? cs then [text]
  else
    let '(chunks, buffer) :=
      fold_left (spec_paragraph cs) (paragraphs text) ([], []) in
    spec_flush chunks buffer.

(** *** The pieces of a document and the chunks as runs of pieces

    A piece is a paragraph that fits the limit, or a sentence of a paragraph
    that does not; [sep] is what the chunker writes before the piece when it
    appends it to a buffer that is not empty. *)

Record piece := { sep : str; text : str }.

Definition pieces_of_paragraph (cs : Z) (para0 : str) : list piece :=
  let para := Str.strip para0 in
  if negb (Str.nonempty para) then []
  else if len para >? cs
       then map (fun s => {| sep := py " "; text := s |}) (_split_sentences para)
       else [{| sep := py "

"; text := para |}].

Definition pieces (cs : Z) (body : str) : list piece :=
  concat (map (pieces_of_paragraph cs) (Str.split_blank body)).

Fixpoint render_rest (ps : list piece) : str :=
  match ps with
  | [] => []
  | p :: r => sep p ++ text p ++ render_rest r
  end.

(** The text of a run of pieces: the pieces with their separators between. *)
Definition render (ps : list piece) : str :=
  match ps with
  | [] => []
  | p :: r => text p ++ render_rest r
  end.

(** The pieces numbered [s], ..., [e - 1]. *)
Definition slice {A} (iv : nat * nat) (l : list A) : list A :=
  take (iv.2 - iv.1) (drop iv.1 l).

Fixpoint adjacent (ivs : list (nat * nat)) : Prop :=
  match ivs with
  | iv :: r =>
      match r with
      | iv' :: _ => (iv.1 <= iv'.1 <= iv.2)%nat /\ (iv.2 <= iv'.2)%nat
      | [] => True
      end /\ adjacent r
  | [] => True
  end.

(** Runs that follow the order of the [n] pieces and lose none: every run
    is not empty, a run starts no earlier than the one before it and no
    later than where that one stops, stops no earlier than it, the first run
    starts at the first piece and the last one stops at the last piece. *)
Definition ordered_cover (n : nat) (ivs : list (nat * nat)) : Prop :=
  Forall (fun iv => (iv.1 < iv.2 <= n)%nat) ivs
  /\ adjacent ivs
  /\ (forall iv, head ivs = Some iv -> iv.1 = 0%nat)
  /\ (forall iv, last ivs = Some iv -> iv.2 = n)
  /\ (ivs = [] -> n = 0%nat).

(** What the loop of [chunk_document] does, piece by piece: it feeds a piece
    to the buffer, or it closes the buffer as a chunk and keeps it (before
    the sentences of a paragraph longer than the limit). *)
Inductive event :=
| Feed (p : piece)
| Reflush.

Definition event_step (cs : Z) (st : list str * str) (ev : event)
  : list str * str :=
  let '(chunks, current_chunk) := st in
  match ev with
  | Feed p =>
      if len current_chunk + len (text p) + len (sep p) >? cs
      then (flush chunks current_chunk, text p)
      else (chunks, Str.strip (current_chunk ++ sep p ++ text p))
  | Reflush => (flush chunks current_chunk, current_chunk)
  end.

Definition events_of_paragraph (cs : Z) (para0 : str) : list event :=
  let para := Str.strip para0 in
  if negb (Str.nonempty para) then []
  else if len para >? cs
       then Reflush
            :: map (fun s => Feed {| sep := py " "; text := s |})
                   (_split_sentences para)
       else [Feed {| sep := py "

"; text := para |}].

Definition fed (ev : event) : list piece :=
  match ev with Feed p => [p] | Reflush => [] end.

(** A text that is not empty and neither starts nor ends with whitespace. *)
Definition starts_ns (s : str) : Prop :=
  match s with
  | c :: _ => Str.is_space c = false
  | [] => False
  end.

Definition trimmed (s : str) : Prop := starts_ns s /\ starts_ns (rev s).

Definition wf_piece (p : piece) : Prop :=
  trimmed (text p) /\ Forall (fun c => Str.is_space c = true) (sep p).

(** A chunk within the limit, and a chunk that is one sentence, longer than
    the limit, of a paragraph of the document. *)
Definition oversized_sentence (cs : Z) (body c : str) : Prop :=
  exists para0, In para0 (Str.split_blank body)
    /\ len (Str.strip para0) > cs
    /\ In c (_split_sentences (Str.strip para0))
    /\ len c > cs.

(** A chunk is [fitting] when it is within the limit or is one sentence
    that alone exceeds it; a loop state is [sized] when its chunks and its
    buffer are. *)
Definition fitting (cs : Z) (body c : str) : Prop :=
  len c <= cs \/ oversized_sentence cs body c.

Definition sized (cs : Z) (body : str) (st : list str * str) : Prop :=
  Forall (fitting cs body) st.1 /\ (st.2 = [] \/ fitting cs body st.2).

(** The bookkeeping of the chunker after [n] pieces: the runs closed so far
    and the piece [b] at which the buffer starts. *)
Definition bounds (n : nat) (ivs : list (nat * nat)) (b : nat) : Prop :=
  Forall (fun iv => (iv.1 < iv.2 <= n)%nat) ivs
  /\ adjacent ivs
  /\ (forall iv, head ivs = Some iv -> iv.1 = 0%nat)
  /\ match last ivs with
     | Some iv => (iv.1 <= b <= iv.2)%nat
     | None => b = 0%nat
     end
  /\ (b <= n)%nat
  /\ (b = n -> n = 0%nat).

(** A loop state [(chunks, current_chunk)] read as runs of the pieces
    [done] fed so far. *)
Definition tracks (done : list piece) (ivs : list (nat * nat)) (b : nat)
           (st : list str * str) : Prop :=
  Forall wf_piece done
  /\ st.1 = map (fun iv => render (slice iv done)) ivs
  /\ st.2 = render (drop b done)
  /\ bounds (length done) ivs b.

(** *** Frontmatter fields and headings *)

(** A frontmatter field that is present with a value Python takes as true. *)
Definition field_given (md : dict) (k : str) : bool :=
  truthy (default VNone (dict_get k md)).

(** *** The title as the specification words it

    "Title resolution order: frontmatter [title] field, first level-1
    markdown heading found anywhere in the body, filename-derived
    fallback."  A level-1 heading is a line that starts with one hash,
    followed on that line by whitespace and by the text of the heading. *)

(** The lines of a text. *)
Definition lines (s : str) : list str := Str.split_char "010" s.

(** The text of a line that is a level-1 heading. *)
Definition heading_line (l : str) : option str :=
  match l with
  | c :: r =>
      if Ascii.eqb c "#"
         && Str.nonempty (Str.take_while Str.is_space r)
         && Str.nonempty (Str.strip r)
      then Some (Str.strip r)
      else None
  | [] => None
  end.

Fixpoint first_heading_of (ls : list str) : option str :=
  match ls with
  | [] => None
  | l :: r =>
      match heading_line l with
      | Some t => Some t
      | None => first_heading_of r
      end
  end.

Definition first_level1_heading (body : str) : option str :=
  first_heading_of (lines body).

(** The title of a document with frontmatter [md] and body [body] at path
    [p], in the order of the specification. *)
Definition title_as_specified (md : dict) (body p : str) : pyval :=
  let given := default VNone (dict_get (py "title") md) in
  if truthy given then given
  else match first_level1_heading body with
       | Some t => VStr t
       | None => VStr (filename_title p)
       end.

(** [c.isascii()] and ASCII text. *)
Definition is_ascii (c : ascii) : bool := (nat_of_ascii c <? 128)%nat.

Definition ascii_text (s : str) : Prop := Forall (fun c => is_ascii c = true) s.

(** A line that is a hash followed by nothing but whitespace. *)
Definition bare_hash (l : str) : bool :=
  match l with
  | c :: r => Ascii.eqb c "#" && forallb Str.is_space r
  | [] => false
  end.

Definition no_bare_hash (body : str) : Prop :=
  Forall (fun l => bare_hash l = false) (lines body).

(** *** The words of a document and their counts *)

(** The list [words] of [extract_keywords]. *)
Definition words_of (doc : ParsedDocument) : list str :=
  WORD_PATTERN_findall (lower (content doc)).

(** How many times [w] occurs in a list of words. *)
Definition occurrences (w : str) (words : list str) : Z :=
  len (List.filter (Str.eqb w) words).

(** [word_freq.get(w)] *)
Fixpoint freq_get (w : str) (freq : list (str * Z)) : option Z :=
  match freq with
  | [] => None
  | (w', n) :: r => if Str.eqb w' w then Some n else freq_get w r
  end.

(** A list of counted words whose counts never go up. *)
Fixpoint descending (l : list (str * Z)) : Prop :=
  match l with
  | [] => True
  | x :: r => Forall (fun y => y.2 <= x.2) r /\ descending r
  end.

(** The table [word_freq] after the loop: a word that is no stop word is in
    it with the number of its occurrences, and nothing else is. *)
Definition counted (seen : list str) (freq : list (str * Z)) : Prop :=
  List.NoDup (map fst freq)
  /\ (length freq <= length seen)%nat
  /\ forall w,
       freq_get w freq
       = if is_stop_word w then None
         else if occurrences w seen =? 0 then None
              else Some (occurrences w seen).

(** The sum of the counts of a table of categories. *)
Definition total_count (cats : list (pyval * Z)) : Z :=
  fold_right Z.add 0 (map snd cats).

(** *** What becomes of one file of the sweep *)

Section Outcomes.

Variable safe_load : str -> result pyval.
Variable vector : Type.
Variable encode : str -> result vector.
Variable chroma_field : str -> pyval -> result (option pyval).

(** The exception, if any, that the statements from [parse_markdown] to
    [collection.upsert] raise on the text of a document: the parser's, the
    embedder's, that of joining the tags, or that of the collection on a
    metadata field it refuses.  [extra] are the fields of the caller.  The
    time stamp is a string, which the collection takes whatever it says:
    the empty text stands for it. *)
Definition upsert_failure (st : AppState vector) (p body : str) (extra : dict)
  : option exn :=
  match parse_markdown safe_load body p with
  | Raise e => Some e
  | Ok doc =>
      match embedder_encode vector encode st (content doc) with
      | Raise e => Some e
      | Ok _ =>
          match add_tags doc (build_metadata p doc [] extra) with
          | Raise e => Some e
          | Ok md =>
              match stored_metadata chroma_field md with
              | Raise e => Some e
              | Ok _ => None
              end
          end
      end
  end.

(** The exception that makes a file of the vault fail. *)
Definition file_failure (st : AppState vector) (f : md_file) : option exn :=
  match read_text f with
  | Raise e => Some e
  | Ok body => upsert_failure st (relative_path f) body []
  end.

Definition file_succeeds (st : AppState vector) (f : md_file) : bool :=
  match file_failure st f with None => true | Some _ => false end.

(** The [{file, error}] entries of the failing files, in sweep order. *)
Definition recorded_errors (st : AppState vector) (fs : list md_file)
  : list FileError :=
  flat_map (fun f => match file_failure st f with
                     | Some e => [{| file := full_path f; error := exn_msg e |}]
                     | None => []
                     end) fs.

End Outcomes.

(** Two dicts with the same keys whose values differ at most in strings
    that the collection keeps as they are. *)
Definition alike (md md' : dict) : Prop :=
  Forall2 (fun kv kv' : str * pyval =>
             kv.1 = kv'.1
             /\ (kv.2 = kv'.2
                 \/ (is_str kv.2 = true /\ is_str kv'.2 = true
                     /\ reserved_key kv.1 = false)))
          md md'.

(** The [category] field of a stored entry. *)
Definition category_field {vector} (e : IndexEntry vector) : option pyval :=
  dict_get (py "category") (entry_metadata e).

(** The [category] field stored under [id] once an endpoint has answered. *)
Definition category_stored {vector A} (out : World vector * A) (id : str)
  : option pyval :=
  coll ← collection (state out.1); e ← coll !! id; category_field e.

(** The stored category [c] of a parsed document: the category of the
    document, or the text "uncategorized" in its place; never [None], never
    a value Python takes as false, and a string whenever the category of the
    document is a string or is missing. *)
Definition default_category (doc : ParsedDocument) (c : pyval) : Prop :=
  c = py_or (category doc) (VStr (py "uncategorized"))
  /\ c <> VNone
  /\ truthy c = true
  /\ (truthy (category doc) = false -> c = VStr (py "uncategorized"))
  /\ (truthy (category doc) = true -> c = category doc)
  /\ (is_str (category doc) = true \/ truthy (category doc) = false ->
      is_str c = true).

(** ** Sample data *)

(** A parsed note with the given body. *)
Definition note (body : str) : ParsedDocument :=
  {| path := py "notes/a.md";
     title := VStr (py "A");
     content := body;
     category := VStr (py "notes");
     tags := VList [];
     metadata := [];
     chunks := None |}.

(** An indexer with chunks of twenty characters. *)
Definition small_indexer : VaultIndexer :=
  {| chunk_size := 20; chunk_overlap := 0 |}.

(** A short paragraph followed by a paragraph of two sentences that is
    longer than twenty characters. *)
Definition greeting_then_long : str :=
  py "hello

Aaaa bbbb. Cccc dddd eeee ffff.".

(** A loader that reads every frontmatter block as one plain scalar. *)
Definition scalar_load (s : str) : result pyval := Ok (VStr (Str.strip s)).

(** A frontmatter that is a line of text between two rules. *)
Definition ruled_note : str :=
  py "---
hello
---
body".

(** A bare hash, then a line of prose. *)
Definition hash_then_prose : str :=
  py "#
plain text, not a heading".

(** A line of prose, a bare hash, then a level-1 heading. *)
Definition hash_then_heading : str :=
  py "intro
#
# Real".

(** A line of prose, then a hash followed by two blanks. *)
Definition hash_then_blanks : str :=
  py "notes
#  ".

(** A frontmatter with a title, and a body with two headings. *)
Definition titled_note : str :=
  py "---
title: Given
---
intro

# First heading
text
# Second".

(** A loader for [titled_note]: the mapping of its one field. *)
Definition title_load (s : str) : result pyval :=
  Ok (VDict [(py "title", VStr (Str.strip (drop 6 s)))]).

(** A frontmatter that holds only a comment, and the same body. *)
Definition commented_note : str :=
  py "---
# draft
---
intro

# First heading
text
# Second".

(** A loader for [commented_note]: a block without any field loads as
    [None]. *)
Definition empty_load (s : str) : result pyval := Ok VNone.

(** A digest for the examples: the path itself. *)
Definition path_digest (p : str) : str := p.

(** An embedder for the examples: one number, the length of the text. *)
Definition length_vector (body : str) : result (list Z) := Ok [len body].

(** A clock for the examples: the number of the reading. *)
Definition tick_stamp (n : nat) : str := py "T" ++ str_of_nat n.

(** A collection for the examples: it refuses lists and mappings, keeps no
    field for [None] and keeps booleans and numbers as they are. *)
Definition plain_store (k : str) (v : pyval) : result (option pyval) :=
  match v with
  | VNone => Ok None
  | VList _ | VDict _ =>
      Raise (Exn ValueError
                 (py "Expected metadata value to be a str, int, float, bool, or None, got a "
                  ++ type_name v))
  | _ => Ok (Some v)
  end.

(** The service once [lifespan] has started it, with an empty collection. *)
Definition ready_world : World (list Z) :=
  {| state := {| embedder := Some {| model_name := py "all-MiniLM-L6-v2" |};
                 collection := Some ∅;
                 indexer := Some default_indexer;
                 last_indexed := None |};
     clock := 0 |}.

Definition plain_request : IndexRequest :=
  {| req_path := py "a/b.md";
     req_content := py "no frontmatter here";
     req_metadata := None |}.

(** A request whose own metadata has a [category] field. *)
Definition override_request : IndexRequest :=
  {| req_path := py "b.md";
     req_content := py "no frontmatter here";
     req_metadata := Some [(py "category", VInt 7)] |}.

Definition readable (rel : str) (body : str) : md_file :=
  {| full_path := py "/vault/" ++ rel;
     relative_path := rel;
     read_text := Ok body |}.

Definition unreadable (rel : str) : md_file :=
  {| full_path := py "/vault/" ++ rel;
     relative_path := rel;
     read_text := Raise (Exn OSError (py "[Errno 13] Permission denied")) |}.

(** Three files that can be read and one that cannot. *)
Definition small_vault : Vault :=
  {| VAULT_PATH := py "/vault";
     vault_exists := true;
     rglob_md := [ readable (py "a.md") (py "# Alpha");
                   unreadable (py "locked.md");
                   readable (py "notes/b.md") (py "beta");
                   readable (py "notes/c.md") (py "gamma") ] |}.

(** What [/index] answers to [plain_request]. *)
Definition plain_answer : IndexResponse :=
  {| ir_success := true;
     ir_path := py "a/b.md";
     ir_doc_id := py "a/b.md";
     ir_title := VStr (py "B") |}.

(** The service after [plain_request] has been indexed. *)
Definition indexed_once : World (list Z) :=
  (index_document scalar_load path_digest (list Z) length_vector tick_stamp
                  plain_store
                  ready_world plain_request).1.

(** A loader that rejects every frontmatter block. *)
Definition broken_yaml_load (s : str) : result pyval :=
  Raise (Exn YAMLError (py "mapping values are not allowed here")).

(** The text without its whitespace. *)
Definition without_space (s : str) : str :=
  List.filter (fun c => negb (Str.is_space c)) s.

(** Three paragraphs, none longer than twenty characters. *)
Definition three_paragraphs : str :=
  py "alpha beta

gamma delta

epsilon".

(** A note whose frontmatter gives its tags as one string. *)
Definition tagged_note : ParsedDocument :=
  {| path := py "notes/a.md";
     title := VStr (py "A");
     content := py "x";
     category := VStr (py "notes");
     tags := read_tags (VStr (py "ai,notes"));
     metadata := [(py "tags", VStr (py "ai,notes"))];
     chunks := None |}.

(** A note with a few repeated words. *)
Definition fox_note : ParsedDocument :=
  note (py "The quick brown fox. The lazy dog and the quick cat; dog DOG dog fox").

(** A request whose text has a frontmatter block that is a plain scalar. *)
Definition ruled_request : IndexRequest :=
  {| req_path := py "a.md";
     req_content := ruled_note;
     req_metadata := None |}.

(** A request with a field of its own. *)
Definition sourced_request : IndexRequest :=
  {| req_path := py "a/b.md";
     req_content := py "no frontmatter here";
     req_metadata := Some [(py "source", VStr (py "web"))] |}.

(** The service after [sourced_request] has been indexed. *)
Definition indexed_sourced : World (list Z) :=
  (index_document scalar_load path_digest (list Z) length_vector tick_stamp
                  plain_store
                  ready_world sourced_request).1.

Definition sourced_answer : IndexResponse :=
  {| ir_success := true;
     ir_path := py "a/b.md";
     ir_doc_id := py "a/b.md";
     ir_title := VStr (py "B") |}.

(** A request for a note without category, at the top of the vault. *)
Definition top_request : IndexRequest :=
  {| req_path := py "b.md";
     req_content := py "no frontmatter here";
     req_metadata := None |}.

(** What the parser returns for the text of [top_request]. *)
Definition top_doc : ParsedDocument :=
  {| path := py "b.md";
     title := VStr (py "B");
     content := py "no frontmatter here";
     category := VNone;
     tags := VList [];
     metadata := [];
     chunks := None |}.

Definition top_answer : IndexResponse :=
  {| ir_success := true;
     ir_path := py "b.md";
     ir_doc_id := py "b.md";
     ir_title := VStr (py "B") |}.

(** The service after a reset and the indexing of [top_request]. *)
Definition indexed_top : World (list Z) :=
  (index_document scalar_load path_digest (list Z) length_vector tick_stamp
                  plain_store
                  (reset_index (list Z) true ready_world).1 top_request).1.

(** A request with a field of its own whose value is a mapping. *)
Definition nested_request : IndexRequest :=
  {| req_path := py "a/b.md";
     req_content := py "no frontmatter here";
     req_metadata := Some [(py "origin", VDict [(py "site", VInt 1)])] |}.

(** The text with which [plain_store] refuses a mapping. *)
Definition refusal_text : str :=
  py "Expected metadata value to be a str, int, float, bool, or None, got a dict".

(** The service after a request that the collection has refused: the clock
    has been read once. *)
Definition refused_world : World (list Z) :=
  {| state := state ready_world; clock := 1 |}.

(** A loader that reads every frontmatter block as a title that is a
    mapping. *)
Definition nested_title_load (s : str) : result pyval :=
  Ok (VDict [(py "title", VDict [(py "en", VStr (Str.strip s))])]).

(** Two files, the first with a frontmatter block. *)
Definition ruled_vault : Vault :=
  {| VAULT_PATH := py "/vault";
     vault_exists := true;
     rglob_md := [ readable (py "ruled.md") ruled_note;
                   readable (py "notes/b.md") (py "beta") ] |}.

(** What [/stats] answers once [plain_request] has been indexed. *)
Definition stats_once : IndexStats :=
  {| total_documents := 1;
     total_chunks := 1;
     categories := [(VStr (py "a"), 1)];
     stats_last_indexed := Some (py "T1");
     vault_path := py "/vault" |}.

Section SimilaritySamples.

Import PrimFloat.

(** An array with a single small entry, two to the power -600, and one
    with a single large entry, two to the power 600. *)
Definition tiny : float := 0x1p-600%float.
Definition huge : float := 0x1p600%float.

(** The sum of the products, from left to right. *)
Definition sum_of_products (a b : list float) : float :=
  match combine a b with
  | [] => 0%float
  | xy :: r =>
      fold_left (fun acc xy => (acc + fst xy * snd xy)%float) r
                (fst xy * snd xy)%float
  end.

Definition root_of_squares (a : list float) : float :=
  sqrt (sum_of_products a a).

End SimilaritySamples.

(** * Properties *)

(** ** The embedding on sample texts

    The values below are what Python 3.11 returns for the same calls. *)

Example strip_sample : Str.strip (py "  a b 	
") = py "a b".
Proof. reflexivity. Qed.

Example split_blank_sample :
  Str.split_blank (py "a

b


c") = [py "a"; py "b"; py "
c"].
Proof. reflexivity. Qed.

Example title_sample :
  Str.title (py "my note 2nd-draft") = py "My Note 2Nd-Draft".
Proof. reflexivity. Qed.

Example frontmatter_sample :
  FRONTMATTER_PATTERN_match (py "---
title: x
---
body") = Some (py "title: x", py "body").
Proof. reflexivity. Qed.

(** The closing dashes need a line feed before them, and the group stops at
    the first such place. *)
Example frontmatter_needs_two_lines :
  FRONTMATTER_PATTERN_match (py "---
---
x") = None
  /\ FRONTMATTER_PATTERN_match (py "---
a
----b
---
") = Some (py "a", py "-b
---
").
Proof. split; reflexivity. Qed.

Example heading_sample :
  HEADING_PATTERN_search (py "abc
 # no
## no
#no
# Yes it is  
more") = Some (py "Yes it is  ").
Proof. reflexivity. Qed.

(** The whitespace after the hash may cross line feeds, and a run that
    reaches the end of the text gives back one character to the group. *)
Example heading_across_lines :
  HEADING_PATTERN_search (py "abc
#
# Real") = Some (py "# Real")
  /\ HEADING_PATTERN_search (py "abc
#  ") = Some (py " ")
  /\ HEADING_PATTERN_search (py "# 
") = None.
Proof. repeat split; reflexivity. Qed.

Example sentences_sample :
  _split_sentences (py "Hi there.  How are you? Fine!Ok. ")
  = [py "Hi there."; py "How are you?"; py "Fine!Ok."].
Proof. reflexivity. Qed.

Example path_samples :
  Path.parts (py "/a//b/./c.md") = [py "/"; py "a"; py "b"; py "c.md"]
  /\ Path.parts (py "a/b.md") = [py "a"; py "b.md"]
  /\ Path.parts (py "b.md") = [py "b.md"]
  /\ Path.stem (py "x/a.tar.gz") = py "a.tar"
  /\ Path.stem (py "x/.bashrc") = py ".bashrc"
  /\ filename_title (py "notes/my-first_note.md") = py "My First Note".
Proof. repeat split; reflexivity. Qed.

Example join_tags_samples :
  join_tags (VList [VStr (py "a"); VStr (py "b")]) = Ok (py "a,b")
  /\ join_tags (VList [VStr (py "a"); VInt 2])
     = Raise (Exn TypeError
                  (py "sequence item 1: expected str instance, int found")).
Proof. split; reflexivity. Qed.

(** Comparisons of the code, as propositions for [lia]. *)
Ltac zcompare :=
  repeat match goal with
  | H : (_ >? _) = true |- _ => rewrite Z.gtb_ltb, Z.ltb_lt in H
  | H : (_ >? _) = false |- _ => rewrite Z.gtb_ltb, Z.ltb_ge in H
  | H : (_ <=? _) = true |- _ => rewrite Z.leb_le in H
  | H : (_ <=? _) = false |- _ => rewrite Z.leb_gt in H
  end.

(** ** Texts *)

Section TextFacts.

Lemma nonempty_true {A} (l : list A) : Str.nonempty l = true <-> l <> [].
Proof. destruct l; simpl; split; congruence. Qed.

Lemma nonempty_false {A} (l : list A) : Str.nonempty l = false <-> l = [].
Proof. destruct l; simpl; split; congruence. Qed.

Lemma len_nonneg {A} (l : list A) : 0 <= len l.
Proof. unfold len. lia. Qed.

Lemma len_app {A} (a b : list A) : len (a ++ b) = len a + len b.
Proof. unfold len. rewrite length_app. lia. Qed.

Lemma drop_while_suffix p s :
  exists pre, s = pre ++ Str.drop_while p s.
Proof.
  induction s as [|c r [pre IH]]; simpl.
  - exists []. reflexivity.
  - destruct (p c).
    + exists (c :: pre). simpl. congruence.
    + exists []. reflexivity.
Qed.

Lemma drop_while_length p s :
  (length (Str.drop_while p s) <= length s)%nat.
Proof.
  destruct (drop_while_suffix p s) as [pre E].
  rewrite E at 2. rewrite length_app. lia.
Qed.

Lemma strip_length s : len (Str.strip s) <= len s.
Proof.
  unfold Str.strip, Str.rstrip, Str.lstrip, len.
  rewrite length_rev.
  pose proof (drop_while_length Str.is_space (rev (Str.drop_while Str.is_space s))).
  pose proof (drop_while_length Str.is_space s).
  rewrite length_rev in *. lia.
Qed.

Lemma drop_while_starts s :
  Str.drop_while Str.is_space s <> [] ->
  starts_ns (Str.drop_while Str.is_space s).
Proof.
  induction s as [|c r IH]; simpl; [congruence|].
  destruct (Str.is_space c) eqn:E; [exact IH|].
  intros _. exact E.
Qed.

Lemma lstrip_starts s : starts_ns s -> Str.lstrip s = s.
Proof.
  unfold Str.lstrip. destruct s as [|c r]; simpl; [tauto|].
  intros ->. reflexivity.
Qed.

Lemma starts_ns_app a b : starts_ns a -> starts_ns (a ++ b).
Proof. destruct a; simpl; tauto. Qed.

Lemma starts_ns_app_inv a b : a <> [] -> starts_ns (a ++ b) -> starts_ns a.
Proof. destruct a; simpl; [congruence|tauto]. Qed.

Lemma starts_ns_nonempty s : starts_ns s -> s <> [].
Proof. destruct s; simpl; [tauto|congruence]. Qed.

Lemma strip_trimmed s : trimmed s -> Str.strip s = s.
Proof.
  intros [H1 H2]. unfold Str.strip, Str.rstrip.
  rewrite (lstrip_starts s H1).
  fold (Str.lstrip (rev s)). rewrite (lstrip_starts _ H2).
  apply rev_involutive.
Qed.

Lemma trimmed_app a m c : trimmed a -> trimmed c -> trimmed (a ++ m ++ c).
Proof.
  intros [Ha _] [_ Hc]. split.
  - apply starts_ns_app, Ha.
  - rewrite !rev_app_distr, <- app_assoc. apply starts_ns_app, Hc.
Qed.

(** What [strip] returns is empty or trimmed. *)
Lemma strip_result_trimmed s : Str.strip s <> [] -> trimmed (Str.strip s).
Proof.
  unfold Str.strip, Str.rstrip, Str.lstrip.
  set (x := Str.drop_while Str.is_space s).
  set (y := Str.drop_while Str.is_space (rev x)).
  intros Hne.
  assert (Hy : y <> []) by (intros E; apply Hne; rewrite E; reflexivity).
  assert (Hsy : starts_ns y) by (apply drop_while_starts, Hy).
  split; [|rewrite rev_involutive; exact Hsy].
  destruct (drop_while_suffix Str.is_space (rev x)) as [pre E].
  fold y in E.
  assert (Ex : x = rev y ++ rev pre).
  { rewrite <- (rev_involutive x), E, rev_app_distr. reflexivity. }
  assert (Hry : rev y <> []).
  { intros E0. apply Hy. rewrite <- (rev_involutive y), E0. reflexivity. }
  apply (starts_ns_app_inv _ (rev pre) Hry).
  rewrite <- Ex. apply drop_while_starts.
  change (x <> []). rewrite Ex. intros E0. apply app_eq_nil in E0. tauto.
Qed.

Lemma strip_idempotent s : Str.strip (Str.strip s) = Str.strip s.
Proof.
  destruct (Str.strip s) eqn:E; [reflexivity|].
  rewrite <- E. apply strip_trimmed, strip_result_trimmed.
  rewrite E. discriminate.
Qed.

(** Whitespace in front of a trimmed text is stripped away. *)
Lemma strip_leading_space w s :
  Forall (fun c => Str.is_space c = true) w -> trimmed s ->
  Str.strip (w ++ s) = s.
Proof.
  intros Hw Hs. unfold Str.strip.
  assert (E : Str.lstrip (w ++ s) = s).
  { induction Hw as [|c w Hc _ IH].
    - apply lstrip_starts, Hs.
    - unfold Str.lstrip in *. cbn [app Str.drop_while].
      rewrite Hc. exact IH. }
  rewrite E. destruct Hs as [H1 H2]. unfold Str.rstrip.
  fold (Str.lstrip (rev s)). rewrite (lstrip_starts _ H2).
  apply rev_involutive.
Qed.

Lemma sentences_trimmed para s : In s (_split_sentences para) -> trimmed s.
Proof.
  unfold _split_sentences. rewrite filter_In, in_map_iff.
  intros [[x [<- _]] Hne]. apply strip_result_trimmed.
  apply nonempty_true, Hne.
Qed.

End TextFacts.

(** ** The chunker: sizes *)

Section ChunkSizes.

Variable cs : Z.
Variable body : str.

Local Abbreviation fitting := (fitting cs body).
Local Abbreviation sized := (sized cs body).

Lemma fitting_strip c : fitting c -> fitting (Str.strip c).
Proof.
  intros [H|H].
  - left. pose proof (strip_length c). lia.
  - assert (T : trimmed c).
    { destruct H as (para0 & _ & _ & Hin & _).
      eapply sentences_trimmed, Hin. }
    rewrite (strip_trimmed c T). right. exact H.
Qed.

Lemma flush_sized chunks cur : sized (chunks, cur) -> Forall fitting (flush chunks cur).
Proof.
  intros [Hc Hb]. unfold flush. simpl in *.
  destruct (Str.nonempty cur) eqn:E; [|exact Hc].
  apply Forall_app. split; [exact Hc|].
  constructor; [|constructor].
  destruct Hb as [->|Hb]; [discriminate|]. apply fitting_strip, Hb.
Qed.

Lemma sentence_step_sized st para0 s :
  In para0 (Str.split_blank body) -> len (Str.strip para0) > cs ->
  In s (_split_sentences (Str.strip para0)) ->
  sized st -> sized (sentence_step cs st s).
Proof.
  intros Hp Hlong Hs Hst. destruct st as [chunks cur].
  unfold sentence_step.
  destruct (len cur + len s + 1 >? cs) eqn:E.
  - split; [apply flush_sized, Hst|]. right. cbn [fst snd].
    destruct (Z_le_gt_dec (len s) cs) as [Hle|Hgt]; [left; exact Hle|].
    right. exists para0. auto.
  - split; [exact (proj1 Hst)|]. right. left. cbn [fst snd].
    pose proof (strip_length (cur ++ py " " ++ s)) as Hl.
    rewrite !len_app in Hl. change (len (py " ")) with 1 in Hl.
    zcompare. lia.
Qed.

Lemma sentences_sized para0 ss st :
  In para0 (Str.split_blank body) -> len (Str.strip para0) > cs ->
  incl ss (_split_sentences (Str.strip para0)) ->
  sized st -> sized (fold_left (sentence_step cs) ss st).
Proof.
  intros Hp Hlong. revert st.
  induction ss as [|s ss IH]; intros st Hin Hst; simpl; [exact Hst|].
  apply IH.
  - intros x Hx. apply Hin. right. exact Hx.
  - apply (sentence_step_sized st para0 s Hp Hlong); [|exact Hst].
    apply Hin. left. reflexivity.
Qed.

Lemma paragraph_step_sized st para0 :
  In para0 (Str.split_blank body) ->
  sized st -> sized (paragraph_step cs st para0).
Proof.
  intros Hp Hst. destruct st as [chunks cur]. unfold paragraph_step.
  destruct (Str.nonempty (Str.strip para0)) eqn:Hne; cbn [negb];
    [|exact Hst].
  destruct (len cur + len (Str.strip para0) + 2 >? cs) eqn:E.
  - destruct (len (Str.strip para0) >? cs) eqn:L.
    + apply (sentences_sized para0);
        [exact Hp|zcompare; lia|apply incl_refl|].
      split; [apply flush_sized, Hst|exact (proj2 Hst)].
    + split; [apply flush_sized, Hst|]. right. left. cbn [fst snd].
      zcompare. lia.
  - split; [exact (proj1 Hst)|]. right. left. cbn [fst snd].
    pose proof (strip_length (cur ++ py "

" ++ Str.strip para0)) as Hl.
    rewrite !len_app in Hl. change (len (py "

")) with 2 in Hl.
    zcompare. lia.
Qed.

Lemma paragraphs_sized ps st :
  incl ps (Str.split_blank body) ->
  sized st -> sized (fold_left (paragraph_step cs) ps st).
Proof.
  revert st. induction ps as [|p ps IH]; intros st Hin Hst; simpl; [exact Hst|].
  apply IH.
  - intros x Hx. apply Hin. right. exact Hx.
  - apply paragraph_step_sized; [|exact Hst]. apply Hin. left. reflexivity.
Qed.

Lemma long_document_chunks_fit c :
  In c (let '(chunks, current_chunk) :=
          fold_left (paragraph_step cs) (Str.split_blank body) ([], []) in
        flush chunks current_chunk) ->
  len c <= cs \/ oversized_sentence cs body c.
Proof.
  pose proof (paragraphs_sized (Str.split_blank body) ([], [])
                (incl_refl _)) as H.
  destruct (fold_left (paragraph_step cs) (Str.split_blank body) ([], []))
    as [chunks cur].
  intros Hin.
  assert (Hs : sized (chunks, cur)).
  { apply H. split; [constructor|left; reflexivity]. }
  pose proof (flush_sized chunks cur Hs) as Hall.
  rewrite Forall_forall in Hall. apply Hall. apply list_elem_of_In, Hin.
Qed.

End ChunkSizes.

(** C6. A document whose content is no longer than [chunk_size] is returned
    as the one chunk [[content]]: a short document is never split. *)
Theorem short_document_single_chunk (self : VaultIndexer) (doc : ParsedDocument) :
  len (content doc) <= chunk_size self ->
  chunk_document self doc = [content doc].
Proof.
  intros H. unfold chunk_document.
  destruct (len (content doc) <=? chunk_size self) eqn:E;
    [reflexivity|zcompare; lia].
Qed.

(** C5. In a document longer than [chunk_size], every chunk has at most
    [chunk_size] characters, unless the chunk is a single sentence, itself
    longer than [chunk_size], of a paragraph longer than [chunk_size]. *)
Theorem chunk_size_bound (self : VaultIndexer) (doc : ParsedDocument) (c : str) :
  len (content doc) > chunk_size self ->
  In c (chunk_document self doc) ->
  len c <= chunk_size self
  \/ oversized_sentence (chunk_size self) (content doc) c.
Proof.
  intros Hlong Hin. unfold chunk_document in Hin.
  destruct (len (content doc) <=? chunk_size self) eqn:E; [zcompare; lia|].
  apply long_document_chunks_fit, Hin.
Qed.

(** ** The chunker: order *)

Section Runs.

Lemma last_Some_In {A} (l : list A) (x : A) : last l = Some x -> In x l.
Proof.
  induction l as [|a [|b r] IH]; cbn; [discriminate| |].
  - intros [= ->]. left. reflexivity.
  - intros H. right. apply IH, H.
Qed.

Lemma adjacent_snoc ivs x :
  adjacent ivs ->
  (forall iv, last ivs = Some iv ->
              (iv.1 <= x.1 <= iv.2)%nat /\ (iv.2 <= x.2)%nat) ->
  adjacent (ivs ++ [x]).
Proof.
  induction ivs as [|a r IH]; intros Ha Hl; cbn; [tauto|].
  destruct Ha as [Har Hr]. split.
  - destruct r as [|a' r']; cbn; [apply Hl; reflexivity|exact Har].
  - apply IH; [exact Hr|]. intros iv Hiv. apply Hl.
    destruct r; [discriminate|exact Hiv].
Qed.

Lemma bounds_flush n ivs b :
  bounds n ivs b -> (b < n)%nat -> bounds n (ivs ++ [(b, n)]) b.
Proof.
  intros (Hf & Ha & Hh & Hl & Hb & Hn) Hlt. repeat split.
  - apply Forall_app. split; [exact Hf|]. constructor; [cbn; lia|constructor].
  - apply adjacent_snoc; [exact Ha|]. intros iv Hiv. rewrite Hiv in Hl. cbn.
    apply last_Some_In in Hiv. rewrite Forall_forall in Hf.
    apply list_elem_of_In, Hf in Hiv. lia.
  - intros iv. destruct ivs as [|a r]; cbn.
    + intros [= <-]. cbn. exact Hl.
    + intros E. apply Hh. exact E.
  - rewrite last_snoc. cbn. lia.
  - exact Hb.
  - lia.
Qed.

Lemma bounds_reset n ivs b :
  bounds n ivs b -> ((b < n)%nat -> last ivs = Some (b, n)) ->
  bounds (S n) ivs n.
Proof.
  intros (Hf & Ha & Hh & Hl & Hb & Hn) Hlast. repeat split; try assumption; try lia.
  - eapply Forall_impl; [exact Hf|]. cbn. intros iv. lia.
  - destruct (last ivs) as [iv|] eqn:E.
    + apply last_Some_In in E as Hin. rewrite Forall_forall in Hf.
      apply list_elem_of_In, Hf in Hin.
      destruct (Nat.lt_ge_cases b n) as [Hlt|Hge].
      * specialize (Hlast Hlt). injection Hlast as ->. cbn in *. lia.
      * assert (b = n) by lia. specialize (Hn H). lia.
    + destruct (Nat.lt_ge_cases b n) as [Hlt|Hge]; [|lia].
      specialize (Hlast Hlt). discriminate.
Qed.

Lemma bounds_extend n ivs b : bounds n ivs b -> bounds (S n) ivs b.
Proof.
  intros (Hf & Ha & Hh & Hl & Hb & Hn). repeat split; try assumption; try lia.
  eapply Forall_impl; [exact Hf|]. cbn. intros iv. lia.
Qed.

Lemma bounds_cover n ivs b :
  bounds n ivs b -> ((b < n)%nat -> last ivs = Some (b, n)) ->
  ordered_cover n ivs.
Proof.
  intros (Hf & Ha & Hh & Hl & Hb & Hn) Hlast. repeat split; try assumption.
  - intros iv E. destruct (Nat.lt_ge_cases b n) as [Hlt|Hge].
    + rewrite (Hlast Hlt) in E. injection E as <-. reflexivity.
    + apply last_Some_In in E. rewrite Forall_forall in Hf.
      apply list_elem_of_In, Hf in E. lia.
  - intros ->. destruct (Nat.lt_ge_cases b n) as [Hlt|Hge].
    + specialize (Hlast Hlt). discriminate.
    + lia.
Qed.

Lemma slice_app {A} iv (l k : list A) :
  (iv.2 <= length l)%nat -> slice iv (l ++ k) = slice iv l.
Proof.
  intros H. unfold slice.
  destruct (Nat.le_gt_cases iv.1 (length l)) as [Hle|Hgt].
  - rewrite drop_app_le by exact Hle.
    apply take_app_le. rewrite length_drop. lia.
  - replace (iv.2 - iv.1)%nat with 0%nat by lia. reflexivity.
Qed.

Lemma slice_to_end {A} b (l : list A) : slice (b, length l) l = drop b l.
Proof. unfold slice. cbn. apply take_ge. rewrite length_drop. lia. Qed.

Lemma render_rest_app ps qs :
  render_rest (ps ++ qs) = render_rest ps ++ render_rest qs.
Proof.
  induction ps as [|p r IH]; cbn; [reflexivity|].
  rewrite IH, <- !app_assoc. reflexivity.
Qed.

Lemma render_snoc ps p :
  ps <> [] -> render (ps ++ [p]) = render ps ++ sep p ++ text p.
Proof.
  destruct ps as [|q r]; [congruence|]. intros _. cbn.
  rewrite render_rest_app. cbn. rewrite app_nil_r, <- app_assoc. reflexivity.
Qed.

Lemma render_single p : render [p] = text p.
Proof. cbn. apply app_nil_r. Qed.

Lemma render_rest_ends x ps :
  Forall wf_piece ps -> starts_ns (rev x) ->
  starts_ns (rev (x ++ render_rest ps)).
Proof.
  revert x. induction ps as [|p r IH]; intros x Hwf Hx; cbn.
  - rewrite app_nil_r. exact Hx.
  - inversion Hwf as [|? ? [[_ Hp] _] Hr]; subst.
    replace (x ++ sep p ++ text p ++ render_rest r)
      with ((x ++ sep p ++ text p) ++ render_rest r)
      by (rewrite <- !app_assoc; reflexivity).
    apply IH; [exact Hr|].
    rewrite !rev_app_distr, <- app_assoc. apply starts_ns_app, Hp.
Qed.

Lemma render_trimmed ps :
  Forall wf_piece ps -> ps <> [] -> trimmed (render ps).
Proof.
  destruct ps as [|p r]; [congruence|]. intros Hwf _.
  inversion Hwf as [|? ? [[Hs He] _] Hr]; subst. cbn. split.
  - apply starts_ns_app, Hs.
  - apply render_rest_ends; assumption.
Qed.

Lemma drop_nonempty {A} b (l : list A) : (b < length l)%nat -> drop b l <> [].
Proof.
  intros H E. apply (f_equal length) in E. rewrite length_drop in E.
  cbn in E. lia.
Qed.

End Runs.

Section Tracking.

Ltac split_tracks := unfold tracks; split; [|split; [|split]].

Variable cs : Z.

Lemma tracks_flush done ivs b chunks cur :
  tracks done ivs b (chunks, cur) ->
  exists ivs',
    tracks done ivs' b (flush chunks cur, cur)
    /\ ((b < length done)%nat -> last ivs' = Some (b, length done)).
Proof.
  intros (Hwf & Hc & Hb & Hbd). cbn [fst snd] in *.
  destruct (Nat.lt_ge_cases b (length done)) as [Hlt|Hge].
  - assert (Hwf' : Forall wf_piece (drop b done)).
    { rewrite <- (take_drop b done) in Hwf. apply Forall_app in Hwf. tauto. }
    pose proof (render_trimmed _ Hwf' (drop_nonempty b done Hlt)) as Ht.
    rewrite <- Hb in Ht.
    exists (ivs ++ [(b, length done)]). split.
    + split_tracks; cbn [fst snd];
        [exact Hwf| |exact Hb|apply bounds_flush; assumption].
      unfold flush.
      destruct (Str.nonempty cur) eqn:E.
      * rewrite map_app, Hc, (strip_trimmed cur Ht). cbn [map].
        rewrite slice_to_end, Hb. reflexivity.
      * apply nonempty_false in E. apply starts_ns_nonempty in E; [tauto|apply Ht].
    + intros _. apply last_snoc.
  - exists ivs. split; [|lia].
    assert (E : cur = []).
    { rewrite Hb, drop_ge by exact Hge. reflexivity. }
    split_tracks; cbn [fst snd]; try assumption.
    unfold flush. rewrite E. exact Hc.
Qed.

Lemma tracks_feed done ivs b st p :
  tracks done ivs b st -> wf_piece p ->
  exists ivs' b', tracks (done ++ [p]) ivs' b' (event_step cs st (Feed p)).
Proof.
  intros Ht Hp. destruct st as [chunks cur]. cbn [event_step].
  destruct (len cur + len (text p) + len (sep p) >? cs).
  - destruct (tracks_flush _ _ _ _ _ Ht) as (ivs' & (Hwf & Hc & Hb & Hbd) & Hlast).
    cbn [fst snd] in *.
    exists ivs', (length done). split_tracks; cbn [fst snd].
    + apply Forall_app. split; [exact Hwf|]. constructor; [exact Hp|constructor].
    + rewrite Hc. apply map_ext_in. intros iv Hin.
      destruct Hbd as (Hf & _). rewrite Forall_forall in Hf.
      apply list_elem_of_In, Hf in Hin. rewrite slice_app by lia. reflexivity.
    + rewrite drop_app_length. symmetry. apply render_single.
    + rewrite length_app. cbn [length]. rewrite Nat.add_1_r.
      apply (bounds_reset _ _ b); assumption.
  - destruct Ht as (Hwf & Hc & Hb & Hbd). cbn [fst snd] in *.
    exists ivs, b. split_tracks; cbn [fst snd].
    + apply Forall_app. split; [exact Hwf|]. constructor; [exact Hp|constructor].
    + rewrite Hc. apply map_ext_in. intros iv Hin.
      destruct Hbd as (Hf & _). rewrite Forall_forall in Hf.
      apply list_elem_of_In, Hf in Hin. rewrite slice_app by lia. reflexivity.
    + destruct (Nat.lt_ge_cases b (length done)) as [Hlt|Hge].
      * assert (Hwf' : Forall wf_piece (drop b done)).
        { rewrite <- (take_drop b done) in Hwf. apply Forall_app in Hwf. tauto. }
        pose proof (render_trimmed _ Hwf' (drop_nonempty b done Hlt)) as Htr.
        rewrite drop_app_le by lia.
        rewrite render_snoc by (apply drop_nonempty, Hlt).
        rewrite Hb. apply strip_trimmed, trimmed_app; [exact Htr|apply Hp].
      * destruct Hbd as (_ & _ & _ & _ & Hle & Hz).
        assert (Hbn : b = length done) by lia.
        assert (Hd : done = []).
        { apply length_zero_iff_nil. apply Hz, Hbn. }
        subst done. cbn in Hbn. subst b. cbn [drop app] in *.
        rewrite Hb, render_single. cbn [render app].
        apply strip_leading_space; apply Hp.
    + rewrite length_app. cbn [length]. rewrite Nat.add_1_r.
      apply bounds_extend, Hbd.
Qed.

Lemma tracks_event done ivs b st ev :
  tracks done ivs b st -> Forall wf_piece (fed ev) ->
  exists ivs' b', tracks (done ++ fed ev) ivs' b' (event_step cs st ev).
Proof.
  intros Ht Hwf. destruct ev as [p|]; cbn [fed].
  - apply (tracks_feed _ _ _ _ _ Ht). inversion Hwf; assumption.
  - rewrite app_nil_r. destruct st as [chunks cur].
    destruct (tracks_flush _ _ _ _ _ Ht) as (ivs' & Ht' & _).
    exists ivs', b. exact Ht'.
Qed.

Lemma tracks_events evs : forall done ivs b st,
  tracks done ivs b st -> Forall (fun ev => Forall wf_piece (fed ev)) evs ->
  exists ivs' b',
    tracks (done ++ concat (map fed evs)) ivs' b'
           (fold_left (event_step cs) evs st).
Proof.
  induction evs as [|ev evs IH]; intros done ivs b st Ht Hwf; cbn.
  - rewrite app_nil_r. exists ivs, b. exact Ht.
  - inversion Hwf as [|? ? Hev Hevs]; subst.
    destruct (tracks_event _ _ _ _ _ Ht Hev) as (ivs1 & b1 & Ht1).
    destruct (IH _ _ _ _ Ht1 Hevs) as (ivs2 & b2 & Ht2).
    exists ivs2, b2. rewrite app_assoc. exact Ht2.
Qed.

(** The loop body of [chunk_document] is the run of its events. *)
Lemma paragraph_step_events st para0 :
  paragraph_step cs st para0
  = fold_left (event_step cs) (events_of_paragraph cs para0) st.
Proof.
  destruct st as [chunks cur]. unfold paragraph_step, events_of_paragraph.
  destruct (Str.nonempty (Str.strip para0)); cbn [negb]; [|reflexivity].
  destruct (len (Str.strip para0) >? cs) eqn:L.
  - assert (E : (len cur + len (Str.strip para0) + 2 >? cs) = true).
    { zcompare. rewrite Z.gtb_ltb, Z.ltb_lt. pose proof (len_nonneg cur). lia. }
    rewrite E. cbn [fold_left event_step].
    generalize (flush chunks cur, cur).
    induction (_split_sentences (Str.strip para0)) as [|s ss IH];
      intros st; [reflexivity|].
    cbn [map fold_left]. rewrite <- IH.
    destruct st as [c0 b0]. reflexivity.
  - reflexivity.
Qed.

Lemma paragraphs_events ps : forall st,
  fold_left (paragraph_step cs) ps st
  = fold_left (event_step cs) (concat (map (events_of_paragraph cs) ps)) st.
Proof.
  induction ps as [|p ps IH]; intros st; cbn; [reflexivity|].
  rewrite fold_left_app, <- paragraph_step_events. apply IH.
Qed.

Lemma events_wf para0 :
  Forall (fun ev => Forall wf_piece (fed ev)) (events_of_paragraph cs para0).
Proof.
  unfold events_of_paragraph.
  destruct (Str.nonempty (Str.strip para0)) eqn:Hne; cbn [negb]; [|constructor].
  assert (Hsp : forall s, trimmed s ->
            wf_piece {| sep := py " "; text := s |}).
  { intros s Hs. split; [exact Hs|]. repeat constructor. }
  destruct (len (Str.strip para0) >? cs).
  - constructor; [constructor|].
    apply Forall_forall. intros ev Hev.
    apply list_elem_of_In, in_map_iff in Hev. destruct Hev as (s & <- & Hs).
    constructor; [|constructor]. apply Hsp. eapply sentences_trimmed, Hs.
  - constructor; [|constructor]. constructor; [|constructor].
    split; [|repeat constructor].
    apply strip_result_trimmed, nonempty_true, Hne.
Qed.

Lemma events_pieces para0 :
  concat (map fed (events_of_paragraph cs para0)) = pieces_of_paragraph cs para0.
Proof.
  unfold events_of_paragraph, pieces_of_paragraph.
  destruct (Str.nonempty (Str.strip para0)); cbn [negb]; [|reflexivity].
  destruct (len (Str.strip para0) >? cs); [|reflexivity].
  change (concat (map fed (Reflush :: ?l))) with (concat (map fed l)).
  induction (_split_sentences (Str.strip para0)) as [|s ss IH];
    [reflexivity|].
  cbn [map concat fed app]. f_equal. exact IH.
Qed.

Lemma all_events_pieces ps :
  concat (map fed (concat (map (events_of_paragraph cs) ps)))
  = concat (map (pieces_of_paragraph cs) ps).
Proof.
  induction ps as [|p ps IH]; cbn; [reflexivity|].
  rewrite map_app, concat_app, events_pieces, IH. reflexivity.
Qed.

(** The chunks of a long document are runs of its pieces, in order and with
    no piece left out. *)
Lemma long_document_runs body :
  exists ivs,
    Forall wf_piece (pieces cs body)
    /\ ordered_cover (length (pieces cs body)) ivs
    /\ (let '(chunks, current_chunk) :=
          fold_left (paragraph_step cs) (Str.split_blank body) ([], []) in
        flush chunks current_chunk)
       = map (fun iv => render (slice iv (pieces cs body))) ivs.
Proof.
  rewrite paragraphs_events.
  assert (H0 : tracks [] [] 0 ([], [])).
  { split_tracks; cbn; [constructor|reflexivity|reflexivity|].
    unfold bounds. cbn. repeat split; try constructor; try lia.
    intros iv. discriminate. }
  destruct (tracks_events (concat (map (events_of_paragraph cs)
                                      (Str.split_blank body)))
              [] [] 0%nat ([], []) H0) as (ivs & b & Ht).
  { apply Forall_concat, Forall_forall. intros evs Hin.
    apply list_elem_of_In, in_map_iff in Hin. destruct Hin as (p & <- & _).
    apply events_wf. }
  cbn [app] in Ht. rewrite all_events_pieces in Ht. fold (pieces cs body) in Ht.
  destruct (fold_left (event_step cs) _ ([], [])) as [chunks cur].
  destruct (tracks_flush _ _ _ _ _ Ht) as (ivs' & (Hwf & Hc & _ & Hbd) & Hlast).
  exists ivs'. split; [exact Hwf|]. split; [|exact Hc].
  apply (bounds_cover _ _ b); assumption.
Qed.

End Tracking.

(** A run of well-formed pieces that is not empty renders to a text that
    [strip] leaves as it is. *)
Lemma render_slice_nonblank (pcs : list piece) (iv : nat * nat) :
  Forall wf_piece pcs -> (iv.1 < iv.2 <= length pcs)%nat ->
  Str.strip (render (slice iv pcs)) <> [].
Proof.
  intros Hwf Hiv.
  assert (Hne : slice iv pcs <> []).
  { intros E. apply (f_equal length) in E. unfold slice in E.
    rewrite length_take, length_drop in E. cbn in E. lia. }
  assert (Hw : Forall wf_piece (slice iv pcs)).
  { unfold slice. apply Forall_take, Forall_drop, Hwf. }
  pose proof (render_trimmed _ Hw Hne) as Ht.
  rewrite (strip_trimmed _ Ht). apply starts_ns_nonempty, Ht.
Qed.

(** C4, as amended.  For a document whose content is not blank, or is
    longer than [chunk_size]: every chunk is non-empty after trimming; a
    short document is its own single chunk; the chunks of a longer document
    are runs of its pieces (paragraphs, or sentences of a paragraph longer
    than [chunk_size]) that follow the order of the document and leave no
    piece out; and a buffer that is not empty when the loop ends is the last
    chunk. *)
Theorem chunks_nonblank_in_order (self : VaultIndexer) (doc : ParsedDocument) :
  Str.strip (content doc) <> [] \/ len (content doc) > chunk_size self ->
  Forall (fun c => Str.strip c <> []) (chunk_document self doc)
  /\ (len (content doc) <= chunk_size self ->
      chunk_document self doc = [content doc])
  /\ (len (content doc) > chunk_size self ->
      exists ivs,
        ordered_cover (length (pieces (chunk_size self) (content doc))) ivs
        /\ chunk_document self doc
           = map (fun iv => render (slice iv (pieces (chunk_size self)
                                                     (content doc)))) ivs)
  /\ (forall chunks current_chunk,
        len (content doc) > chunk_size self ->
        fold_left (paragraph_step (chunk_size self))
                  (Str.split_blank (content doc)) ([], [])
        = (chunks, current_chunk) ->
        current_chunk <> [] ->
        chunk_document self doc = chunks ++ [Str.strip current_chunk]).
Proof.
  intros Hdoc.
  destruct (long_document_runs (chunk_size self) (content doc))
    as (ivs & Hwf & Hcov & Hruns).
  unfold chunk_document.
  destruct (len (content doc) <=? chunk_size self) eqn:E; zcompare.
  - split; [|split; [|split]].
    + constructor; [|constructor]. destruct Hdoc as [H|H]; [exact H|lia].
    + reflexivity.
    + lia.
    + intros; lia.
  - split; [|split; [|split]].
    + rewrite Hruns. apply Forall_forall. intros c Hc.
      apply list_elem_of_In, in_map_iff in Hc. destruct Hc as (iv & <- & Hiv).
      apply render_slice_nonblank; [exact Hwf|].
      destruct Hcov as (Hf & _). rewrite Forall_forall in Hf.
      apply Hf, list_elem_of_In, Hiv.
    + lia.
    + intros _. exists ivs. split; [exact Hcov|exact Hruns].
    + intros chunks cur _ Hfold Hne. rewrite Hfold. unfold flush.
      apply nonempty_true in Hne. rewrite Hne. reflexivity.
Qed.

(** C3, at the input where the loop departs from the stated algorithm.  The
    paragraph "hello" is in the buffer when a paragraph longer than
    [chunk_size] arrives: the buffer is closed as a chunk but not emptied,
    so its text is written again in front of the first sentence. *)
Theorem flushed_buffer_is_kept :
  len greeting_then_long > chunk_size small_indexer
  /\ chunk_document small_indexer (note greeting_then_long)
     = [py "hello"; py "hello Aaaa bbbb."; py "Cccc dddd eeee ffff."]
  /\ chunk_as_specified (chunk_size small_indexer) greeting_then_long
     = [py "hello"; py "Aaaa bbbb."; py "Cccc dddd eeee ffff."].
Proof. split; [reflexivity|]. split; vm_compute; reflexivity. Qed.

(** ** The chunker and the stated algorithm *)

Section Agreement.

Variable cs : Z.

(** On a paragraph that fits the limit, the loop body does what the stated
    algorithm does, and leaves a buffer that is empty or trimmed. *)
Lemma paragraph_step_as_specified chunks cur para0 :
  cur = [] \/ trimmed cur ->
  Str.strip para0 <> [] ->
  len (Str.strip para0) <= cs ->
  paragraph_step cs (chunks, cur) para0
  = spec_paragraph cs (chunks, cur) (Str.strip para0)
  /\ trimmed (snd (paragraph_step cs (chunks, cur) para0)).
Proof.
  intros Hcur Hne Hfit.
  pose proof (strip_result_trimmed para0 Hne) as Hp.
  unfold paragraph_step, spec_paragraph, spec_pack.
  apply nonempty_true in Hne. rewrite Hne. cbn [negb].
  replace (len (Str.strip para0) >? cs) with false
    by (symmetry; rewrite Z.gtb_ltb, Z.ltb_ge; exact Hfit).
  destruct Hcur as [->|Hcur].
  - cbn [Str.nonempty]. unfold flush. cbn [Str.nonempty].
    destruct (len [] + len (Str.strip para0) + 2 >? cs); cbn [snd].
    + split; [reflexivity|exact Hp].
    + change ([] ++ ?x) with x.
      rewrite strip_leading_space; [split; [reflexivity|exact Hp]| |exact Hp].
      repeat constructor.
  - assert (Hn : Str.nonempty cur = true)
      by (apply nonempty_true, starts_ns_nonempty, Hcur).
    rewrite Hn. rewrite !len_app. change (len (py "

")) with 2.
    replace (len cur + (2 + len (Str.strip para0)))
      with (len cur + len (Str.strip para0) + 2) by lia.
    destruct (len cur + len (Str.strip para0) + 2 >? cs); cbn [snd].
    + unfold flush. rewrite Hn, (strip_trimmed cur Hcur).
      split; [reflexivity|exact Hp].
    + rewrite strip_trimmed by (apply trimmed_app; assumption).
      split; [reflexivity|apply trimmed_app; assumption].
Qed.

Lemma paragraphs_as_specified ps : forall chunks cur,
  cur = [] \/ trimmed cur ->
  (forall p, In p (List.filter Str.nonempty (map Str.strip ps)) ->
             len p <= cs) ->
  fold_left (paragraph_step cs) ps (chunks, cur)
  = fold_left (spec_paragraph cs)
              (List.filter Str.nonempty (map Str.strip ps)) (chunks, cur)
  /\ (snd (fold_left (paragraph_step cs) ps (chunks, cur)) = []
      \/ trimmed (snd (fold_left (paragraph_step cs) ps (chunks, cur)))).
Proof.
  induction ps as [|para0 ps IH]; intros chunks cur Hcur Hfit.
  - cbn. split; [reflexivity|exact Hcur].
  - cbn [map List.filter fold_left] in *.
    destruct (Str.nonempty (Str.strip para0)) eqn:Hne.
    + apply nonempty_true in Hne.
      destruct (paragraph_step_as_specified chunks cur para0 Hcur Hne)
        as [Hstep Htr].
      { apply Hfit. left. reflexivity. }
      cbn [fold_left]. rewrite <- Hstep.
      destruct (paragraph_step cs (chunks, cur) para0) as [chunks' cur'].
      apply IH; [right; exact Htr|].
      intros p Hp. apply Hfit. right. exact Hp.
    + assert (Hskip : paragraph_step cs (chunks, cur) para0 = (chunks, cur)).
      { unfold paragraph_step. rewrite Hne. reflexivity. }
      rewrite Hskip. apply IH; assumption.
Qed.

(** The chunker follows the stated algorithm on every document none of
    whose paragraphs is longer than the limit. *)
Lemma chunker_agrees_without_long_paragraph doc :
  (forall p, In p (paragraphs (content doc)) -> len p <= cs) ->
  chunk_document {| chunk_size := cs; chunk_overlap := 0 |} doc
  = chunk_as_specified cs (content doc).
Proof.
  intros Hfit. unfold chunk_document, chunk_as_specified. cbn [chunk_size].
  destruct (len (content doc) <=? cs); [reflexivity|].
  destruct (paragraphs_as_specified (Str.split_blank (content doc)) [] []
              (or_introl eq_refl) Hfit) as [Hfold Hcur].
  unfold paragraphs. rewrite <- Hfold.
  destruct (fold_left (paragraph_step cs) (Str.split_blank (content doc))
                      ([], [])) as [chunks cur].
  cbn [snd] in Hcur. unfold flush, spec_flush.
  destruct Hcur as [->|Hcur]; [reflexivity|].
  rewrite (strip_trimmed cur Hcur). reflexivity.
Qed.

End Agreement.

(** ** The parser *)

Section HeadingFacts.

Lemma take_drop_while p s : Str.take_while p s ++ Str.drop_while p s = s.
Proof.
  induction s as [|c r IH]; cbn; [reflexivity|].
  destruct (p c); cbn; [rewrite IH|]; reflexivity.
Qed.

Lemma take_while_all p s : Forall (fun c => p c = true) (Str.take_while p s).
Proof.
  induction s as [|c r IH]; cbn; [constructor|].
  destruct (p c) eqn:E; constructor; assumption.
Qed.

Lemma drop_while_head p s c r :
  Str.drop_while p s = c :: r -> p c = false.
Proof.
  induction s as [|a s IH]; cbn; [discriminate|].
  destruct (p a) eqn:E; [exact IH|]. intros [= -> _]. exact E.
Qed.

Lemma newline_is_space c : not_newline c = false -> Str.is_space c = true.
Proof.
  unfold not_newline. destruct (Ascii.eqb_spec c "010") as [->|]; [|discriminate].
  reflexivity.
Qed.

Lemma take_while_line t rest :
  Forall (fun c => not_newline c = true) t ->
  (rest = [] \/ exists r, rest = "010"%char :: r) ->
  Str.take_while not_newline (t ++ rest) = t.
Proof.
  intros Ht Hrest. induction Ht as [|c t Hc _ IH]; cbn.
  - destruct Hrest as [->|[r ->]]; reflexivity.
  - rewrite Hc, IH. reflexivity.
Qed.

Lemma split_char_nonempty sep acc s : Str.split_char_from sep acc s <> [].
Proof.
  revert acc. induction s as [|c r IH]; intros acc; cbn; [discriminate|].
  destruct (Ascii.eqb c sep); [discriminate|apply IH].
Qed.

Lemma join_cons sep x l :
  l <> [] -> Str.join sep (x :: l) = x ++ sep ++ Str.join sep l.
Proof. destruct l; [congruence|reflexivity]. Qed.

Lemma join_split_char sep s : forall acc,
  Str.join [sep] (Str.split_char_from sep acc s) = rev acc ++ s.
Proof.
  induction s as [|c r IH]; intros acc; cbn [Str.split_char_from].
  - cbn. rewrite app_nil_r. reflexivity.
  - destruct (Ascii.eqb_spec c sep) as [->|Hne].
    + rewrite join_cons by apply split_char_nonempty.
      rewrite IH. reflexivity.
    + rewrite IH. cbn. rewrite <- app_assoc. reflexivity.
Qed.

Lemma join_lines body : Str.join ["010"%char] (lines body) = body.
Proof. exact (join_split_char "010" body []). Qed.

Lemma split_char_lines s : forall acc,
  Forall (fun c => not_newline c = true) acc ->
  Forall (Forall (fun c => not_newline c = true))
         (Str.split_char_from "010" acc s).
Proof.
  induction s as [|c r IH]; intros acc Ha; cbn [Str.split_char_from].
  - constructor; [apply Forall_rev, Ha|constructor].
  - destruct (Ascii.eqb c "010") eqn:E.
    + constructor; [apply Forall_rev, Ha|]. apply IH. constructor.
    + apply IH. constructor; [|exact Ha]. unfold not_newline. rewrite E.
      reflexivity.
Qed.

(** Away from a line start the search runs on to the next line. *)
Lemma search_skips_line l tail :
  Forall (fun c => not_newline c = true) l ->
  heading_search_from false (l ++ tail) = heading_search_from false tail.
Proof.
  induction 1 as [|c l Hc _ IH]; [reflexivity|].
  cbn [app heading_search_from]. unfold not_newline in Hc.
  destruct (Ascii.eqb c "010"); [discriminate|exact IH].
Qed.

(** At a line start the search tries the pattern there, then the next
    line. *)
Lemma search_line l tail :
  Forall (fun c => not_newline c = true) l ->
  (tail = [] \/ exists r, tail = "010"%char :: r) ->
  heading_search_from true (l ++ tail)
  = match heading_at (l ++ tail) with
    | Some g => Some g
    | None => match tail with
              | [] => None
              | _ :: r => heading_search_from true r
              end
    end.
Proof.
  intros Hl Htail. destruct l as [|c l].
  - destruct Htail as [->|[r ->]]; reflexivity.
  - inversion Hl as [|? ? Hc Hl']; subst.
    cbn [app heading_search_from].
    destruct (heading_at (c :: l ++ tail)); [reflexivity|].
    unfold not_newline in Hc.
    destruct (Ascii.eqb c "010"); [discriminate|].
    rewrite (search_skips_line l tail Hl').
    destruct Htail as [->|[r ->]]; reflexivity.
Qed.

(** A whitespace run that ends inside a line does not see what follows the
    line. *)
Lemma space_run_in_line r tail :
  forallb Str.is_space r = false ->
  Str.take_while Str.is_space (r ++ tail) = Str.take_while Str.is_space r
  /\ Str.drop_while Str.is_space (r ++ tail)
     = Str.drop_while Str.is_space r ++ tail
  /\ starts_ns (Str.drop_while Str.is_space r).
Proof.
  induction r as [|c r IH]; cbn; [discriminate|].
  destruct (Str.is_space c) eqn:E; cbn.
  - intros H. destruct (IH H) as (H1 & H2 & H3). rewrite H1. auto.
  - intros _. rewrite E. auto.
Qed.

Lemma drop_while_keeps (P : ascii -> Prop) p s :
  Forall P s -> Forall P (Str.drop_while p s).
Proof.
  induction 1 as [|c s Hc Hs IH]; cbn; [constructor|].
  destruct (p c); [exact IH|constructor; assumption].
Qed.

Lemma drop_while_stops p s c :
  In c s -> p c = false -> Str.drop_while p s <> [].
Proof.
  induction s as [|a s IH]; cbn; [tauto|].
  intros [->|Hin] Hc.
  - rewrite Hc. discriminate.
  - destruct (p a); [apply IH; assumption|discriminate].
Qed.

(** A text that starts with a character other than whitespace keeps it
    when it is stripped. *)
Lemma strip_starts_ns g :
  starts_ns g -> Str.strip g = Str.rstrip g /\ Str.rstrip g <> [].
Proof.
  intros Hg. unfold Str.strip. rewrite (lstrip_starts g Hg).
  split; [reflexivity|]. unfold Str.rstrip.
  destruct g as [|c g]; [destruct Hg|]. cbn in Hg.
  intros E. apply (f_equal (@rev ascii)) in E. rewrite rev_involutive in E.
  revert E. apply (drop_while_stops _ _ c); [|exact Hg].
  apply in_rev. rewrite rev_involutive. left. reflexivity.
Qed.

(** On a line that is not a bare hash the pattern finds the heading of the
    line, and nothing on any other line. *)
Lemma heading_at_line l tail :
  Forall (fun c => not_newline c = true) l ->
  bare_hash l = false ->
  (tail = [] \/ exists r, tail = "010"%char :: r) ->
  option_map Str.strip (heading_at (l ++ tail)) = heading_line l.
Proof.
  intros Hl Hbare Htail. destruct l as [|c r].
  - destruct Htail as [->|[r ->]]; reflexivity.
  - inversion Hl as [|? ? Hc Hr]; subst.
    cbn [app heading_at heading_line bare_hash] in *.
    destruct (Ascii.eqb c "#"); [|reflexivity].
    cbn [andb] in *.
    destruct (space_run_in_line r tail Hbare) as (Ht & Hd & Hg).
    rewrite Ht, Hd.
    destruct (Str.take_while Str.is_space r) as [|w0 w]; [reflexivity|].
    cbn [Str.nonempty andb].
    destruct (strip_starts_ns _ Hg) as [Hs Hne].
    assert (Hstrip : Str.strip r = Str.rstrip (Str.drop_while Str.is_space r))
      by reflexivity.
    destruct (Str.drop_while Str.is_space r) as [|c0 g] eqn:Eg;
      [destruct Hg|].
    cbn [app option_map].
    change (c0 :: g ++ tail) with ((c0 :: g) ++ tail).
    rewrite take_while_line;
      [|rewrite <- Eg; apply drop_while_keeps, Hr|exact Htail].
    rewrite Hs, Hstrip.
    destruct (Str.rstrip (c0 :: g)); [contradiction Hne; reflexivity|].
    reflexivity.
Qed.

(** Over lines none of which is a bare hash, the search finds the first
    level-1 heading. *)
Lemma search_first_heading ls :
  ls <> [] ->
  Forall (Forall (fun c => not_newline c = true)) ls ->
  Forall (fun l => bare_hash l = false) ls ->
  option_map Str.strip (heading_search_from true (Str.join ["010"%char] ls))
  = first_heading_of ls.
Proof.
  induction ls as [|l ls IH]; [congruence|]. intros _ Hls Hbare.
  inversion Hls as [|? ? Hl Hls']; subst.
  inversion Hbare as [|? ? Hb Hbare']; subst.
  cbn [first_heading_of]. destruct ls as [|l' ls].
  - cbn [Str.join first_heading_of].
    rewrite <- (app_nil_r l) at 1.
    rewrite (search_line l [] Hl) by (left; reflexivity).
    rewrite <- (heading_at_line l [] Hl Hb) by (left; reflexivity).
    destruct (heading_at (l ++ [])); reflexivity.
  - rewrite join_cons by discriminate.
    change ([ "010"%char ] ++ ?x) with ("010"%char :: x).
    rewrite (search_line l _ Hl) by (right; eexists; reflexivity).
    rewrite <- (heading_at_line l ("010"%char :: Str.join ["010"%char] (l' :: ls))
                  Hl Hb) by (right; eexists; reflexivity).
    destruct (heading_at (l ++ _)); [reflexivity|].
    cbn [option_map]. apply IH; [discriminate|assumption|assumption].
Qed.

(** Where no line of the body is a bare hash, [HEADING_PATTERN.search]
    finds the first level-1 heading of the body, or nothing when there is
    none. *)
Lemma heading_search_as_specified body :
  no_bare_hash body ->
  option_map Str.strip (HEADING_PATTERN_search body)
  = first_level1_heading body.
Proof.
  intros H. unfold HEADING_PATTERN_search, first_level1_heading.
  rewrite <- (join_lines body) at 1.
  apply search_first_heading.
  - apply split_char_nonempty.
  - apply split_char_lines. constructor.
  - exact H.
Qed.

End HeadingFacts.

Section ParserFacts.

Variable safe_load : str -> result pyval.

(** A successful [parse_markdown], field by field. *)
Lemma parse_markdown_inv text p doc :
  parse_markdown safe_load text p = Ok doc ->
  exists body,
    extract_frontmatter safe_load text = Ok (VDict (metadata doc), body)
    /\ path doc = p
    /\ content doc = Str.strip body
    /\ title doc
       = (let title0 := default VNone (dict_get (py "title") (metadata doc)) in
          if truthy title0 then title0
          else match HEADING_PATTERN_search body with
               | Some g => VStr (Str.strip g)
               | None => VStr (filename_title p)
               end)
    /\ category doc
       = (let category0 :=
            default VNone (dict_get (py "category") (metadata doc)) in
          if truthy category0 then category0
          else if len (Path.parts p) >? 1
               then match Path.parts p with
                    | first :: _ => VStr first
                    | [] => category0
                    end
               else category0)
    /\ tags doc
       = read_tags (default (VList []) (dict_get (py "tags") (metadata doc))).
Proof.
  unfold parse_markdown, mbind, result_bind.
  destruct (extract_frontmatter safe_load text) as [[loaded body]|e];
    [|discriminate].
  destruct loaded; cbn [get_method]; try discriminate.
  intros [= <-]. exists body. cbn. repeat split; reflexivity.
Qed.

(** The parser fails exactly when the loader raises something else than a
    YAML error, or loads a value that is not a mapping and that Python takes
    as true. *)
Lemma parse_markdown_raises text p e :
  parse_markdown safe_load text p = Raise e ->
  exists frontmatter_text rest,
    FRONTMATTER_PATTERN_match text = Some (frontmatter_text, rest)
    /\ ((safe_load frontmatter_text = Raise e /\ is_yaml_error e = false)
        \/ exists v, safe_load frontmatter_text = Ok v
                     /\ truthy v = true
                     /\ (forall d, v <> VDict d)
                     /\ e = no_attribute v (py "get")).
Proof.
  unfold parse_markdown, extract_frontmatter, mbind, result_bind.
  destruct (FRONTMATTER_PATTERN_match text) as [[ft rest]|]; [|discriminate].
  intros H. exists ft, rest. split; [reflexivity|].
  destruct (safe_load ft) as [v|e0] eqn:El.
  - right. exists v. unfold py_or in H.
    destruct (truthy v) eqn:Ht; [|discriminate].
    destruct v; cbn in H; try discriminate;
      injection H as <-; repeat split; congruence.
  - left. destruct (is_yaml_error e0) eqn:Ey; [discriminate|].
    injection H as <-. auto.
Qed.

(** When the YAML body does not parse, the document keeps the whole text,
    trimmed, and an empty metadata. *)
Lemma parse_markdown_yaml_error text p frontmatter_text rest e :
  FRONTMATTER_PATTERN_match text = Some (frontmatter_text, rest) ->
  safe_load frontmatter_text = Raise e -> is_yaml_error e = true ->
  exists doc, parse_markdown safe_load text p = Ok doc
              /\ content doc = Str.strip text
              /\ metadata doc = [].
Proof.
  intros Hm Hl Hy.
  unfold parse_markdown, extract_frontmatter, mbind, result_bind.
  rewrite Hm, Hl, Hy. cbn. eexists. repeat split; reflexivity.
Qed.

(** C1, at an input where the parser raises.  A text that opens with a rule,
    a line of prose and a second rule has a frontmatter block whose YAML is
    a plain scalar: the loader returns a string, and [metadata.get] raises
    [AttributeError], which nothing catches. *)
Theorem scalar_frontmatter_raises :
  safe_load (py "hello") = Ok (VStr (py "hello")) ->
  parse_markdown safe_load ruled_note (py "a.md")
  = Raise (Exn AttributeError (py "'str' object has no attribute 'get'")).
Proof.
  intros H. unfold parse_markdown, extract_frontmatter, mbind, result_bind.
  change (FRONTMATTER_PATTERN_match ruled_note)
    with (Some (py "hello", py "body")).
  cbv beta iota. rewrite H. reflexivity.
Qed.

(** The category is the frontmatter [category] when it is given, else the
    first part of a path of more than one part. *)
Lemma category_resolution text p doc :
  parse_markdown safe_load text p = Ok doc ->
  (forall c, dict_get (py "category") (metadata doc) = Some c ->
             truthy c = true -> category doc = c)
  /\ (field_given (metadata doc) (py "category") = false ->
      (forall first second rest,
         Path.parts p = first :: second :: rest ->
         category doc = VStr first)
      /\ (len (Path.parts p) <= 1 -> truthy (category doc) = false)).
Proof.
  intros H.
  destruct (parse_markdown_inv text p doc H) as (body & _ & _ & _ & _ & Hc & _).
  unfold field_given. split.
  - intros c Hg Htr. rewrite Hc, Hg. cbn. rewrite Htr. reflexivity.
  - intros Hno. rewrite Hc. cbn zeta. rewrite Hno. split.
    + intros first second rest Hp. rewrite Hp.
      replace (len (first :: second :: rest) >? 1) with true; [reflexivity|].
      symmetry. rewrite Z.gtb_ltb, Z.ltb_lt. unfold len. cbn [length]. lia.
    + intros Hle.
      replace (len (Path.parts p) >? 1) with false; [exact Hno|].
      symmetry. rewrite Z.gtb_ltb, Z.ltb_ge. exact Hle.
Qed.

(** Where no line of the body is a bare hash, the title is resolved in the
    order of the specification: the frontmatter [title], else the first
    level-1 heading, else the title made from the file name. *)
Lemma title_as_specified_agrees text p doc :
  parse_markdown safe_load text p = Ok doc ->
  exists body,
    extract_frontmatter safe_load text = Ok (VDict (metadata doc), body)
    /\ (no_bare_hash body ->
        title doc = title_as_specified (metadata doc) body p).
Proof.
  intros H.
  destruct (parse_markdown_inv text p doc H) as (body & Hfm & _ & _ & Ht & _).
  exists body. split; [exact Hfm|]. intros Hb.
  rewrite Ht. unfold title_as_specified. cbn zeta.
  destruct (truthy (default VNone (dict_get (py "title") (metadata doc))));
    [reflexivity|].
  rewrite <- (heading_search_as_specified body Hb).
  destruct (HEADING_PATTERN_search body); reflexivity.
Qed.

(** C9, at inputs where the title is not the one of the claim.  The
    whitespace after the hash of [HEADING_PATTERN] may run across line
    ends.  After a line that is a bare hash the pattern takes the next line
    for the heading: a line of prose becomes the title where the claim
    gives the title made from the file name, and a heading on the next
    line keeps its hash.  A hash followed by blanks at the end of the text
    gives the empty title. *)
Theorem heading_pattern_crosses_lines :
  (exists doc,
     parse_markdown safe_load hash_then_prose (py "a/b.md") = Ok doc
     /\ title doc = VStr (py "plain text, not a heading")
     /\ first_level1_heading hash_then_prose = None
     /\ title_as_specified (metadata doc) hash_then_prose (py "a/b.md")
        = VStr (py "B"))
  /\ (exists doc,
        parse_markdown safe_load hash_then_heading (py "a/b.md") = Ok doc
        /\ title doc = VStr (py "# Real")
        /\ title_as_specified (metadata doc) hash_then_heading (py "a/b.md")
           = VStr (py "Real"))
  /\ (exists doc,
        parse_markdown safe_load hash_then_blanks (py "a/b.md") = Ok doc
        /\ title doc = VStr []
        /\ title_as_specified (metadata doc) hash_then_blanks (py "a/b.md")
           = VStr (py "B")).
Proof.
  split; [|split]; eexists; (split; [reflexivity|]); repeat split.
Qed.

End ParserFacts.

(** The order of the title and of the category at sample texts: the
    frontmatter field, then the first heading, then the file name; and the
    sample of the specification. *)
Example resolution_samples :
  (exists doc,
     parse_markdown title_load titled_note (py "notes/my-first_note.md")
     = Ok doc
     /\ title doc = VStr (py "Given")
     /\ category doc = VStr (py "notes"))
  /\ (exists doc,
        parse_markdown empty_load commented_note (py "my-first_note.md")
        = Ok doc
        /\ title doc = VStr (py "First heading")
        /\ category doc = VNone)
  /\ (exists doc,
        parse_markdown empty_load (py "no frontmatter here")
                       (py "notes/my-first_note.md") = Ok doc
        /\ title doc = VStr (py "My First Note")
        /\ category doc = VStr (py "notes"))
  /\ (exists doc,
        parse_markdown empty_load (py "no frontmatter here") (py "a/b.md")
        = Ok doc
        /\ title doc = VStr (py "B")
        /\ category doc = VStr (py "a")).
Proof.
  repeat split; eexists; (split; [reflexivity|]); split; reflexivity.
Qed.

(** ** The endpoints *)

Section DictFacts.

Lemma str_eqb_true a b : Str.eqb a b = true <-> a = b.
Proof. unfold Str.eqb. apply bool_decide_eq_true. Qed.

Lemma str_eqb_false a b : Str.eqb a b = false <-> a <> b.
Proof. unfold Str.eqb. apply bool_decide_eq_false. Qed.

Lemma str_eqb_refl a : Str.eqb a a = true.
Proof. apply str_eqb_true. reflexivity. Qed.

Lemma dict_get_absent k d : ~ In k (map fst d) -> dict_get k d = None.
Proof.
  induction d as [|[k' v] r IH]; cbn; [reflexivity|].
  intros H. destruct (Str.eqb k' k) eqn:E.
  - apply str_eqb_true in E. tauto.
  - apply IH. tauto.
Qed.

Lemma dict_get_set_eq k v d : dict_get k (dict_set k v d) = Some v.
Proof.
  induction d as [|[k' v'] r IH]; cbn.
  - unfold Str.eqb. rewrite bool_decide_eq_true_2; reflexivity.
  - unfold Str.eqb in *. destruct (bool_decide (k' = k)) eqn:E; cbn;
      unfold Str.eqb; rewrite E; [reflexivity|exact IH].
Qed.

Lemma dict_get_set_ne k k' v d :
  k' <> k -> dict_get k (dict_set k' v d) = dict_get k d.
Proof.
  intros Hne. induction d as [|[k0 v0] r IH]; cbn.
  - unfold Str.eqb. rewrite bool_decide_eq_false_2; [reflexivity|exact Hne].
  - unfold Str.eqb in *. destruct (bool_decide (k0 = k')) eqn:E; cbn;
      unfold Str.eqb.
    + apply bool_decide_eq_true in E. subst k0.
      rewrite !bool_decide_eq_false_2 by exact Hne. reflexivity.
    + destruct (bool_decide (k0 = k)); [reflexivity|exact IH].
Qed.

Lemma dict_get_update_absent k extra : forall d,
  dict_get k extra = None -> dict_get k (dict_update d extra) = dict_get k d.
Proof.
  unfold dict_update.
  induction extra as [|[k' v] r IH]; intros d; cbn; [reflexivity|].
  unfold Str.eqb. destruct (bool_decide (k' = k)) eqn:E; [discriminate|].
  apply bool_decide_eq_false in E. intros Hr.
  rewrite (IH _ Hr). apply dict_get_set_ne, E.
Qed.

Lemma py_or_truthy a b : truthy b = true -> truthy (py_or a b) = true.
Proof. intros H. unfold py_or. destruct (truthy a) eqn:E; assumption. Qed.

End DictFacts.

(** ** The metadata the collection keeps *)

Section StoreFacts.

Lemma dict_set_keys k v d k0 :
  In k0 (map fst (dict_set k v d)) <-> k0 = k \/ In k0 (map fst d).
Proof.
  induction d as [|[k' v'] r IH]; cbn; [intuition congruence|].
  destruct (Str.eqb k' k) eqn:E; cbn.
  - apply str_eqb_true in E. subst k'. intuition congruence.
  - rewrite IH. tauto.
Qed.

Lemma dict_set_nodup k v d :
  List.NoDup (map fst d) -> List.NoDup (map fst (dict_set k v d)).
Proof.
  induction d as [|[k' v'] r IH]; cbn; intros H.
  - constructor; [intros []|constructor].
  - inversion H as [|? ? Hnot Hr]; subst.
    destruct (Str.eqb k' k) eqn:E; cbn.
    + constructor; assumption.
    + apply str_eqb_false in E. constructor; [|apply IH, Hr].
      rewrite dict_set_keys. intros [->|Hin]; [apply E; reflexivity|tauto].
Qed.

Lemma dict_update_nodup extra : forall d,
  List.NoDup (map fst d) -> List.NoDup (map fst (dict_update d extra)).
Proof.
  unfold dict_update.
  induction extra as [|[k v] r IH]; intros d H; cbn; [exact H|].
  apply IH, dict_set_nodup, H.
Qed.

Lemma build_metadata_nodup p doc now extra :
  List.NoDup (map fst (build_metadata p doc now extra)).
Proof.
  unfold build_metadata. apply dict_update_nodup. cbn [map fst].
  repeat (constructor; [cbn; intuition discriminate|]). constructor.
Qed.

Lemma add_tags_nodup doc md md1 :
  add_tags doc md = Ok md1 ->
  List.NoDup (map fst md) -> List.NoDup (map fst md1).
Proof.
  unfold add_tags, mbind, result_bind. destruct (truthy (tags doc)).
  - destruct (join_tags (tags doc)); [|discriminate].
    intros [= <-]. apply dict_set_nodup.
  - intros [= <-] H. exact H.
Qed.

Lemma alike_refl md : alike md md.
Proof. induction md; constructor; auto. Qed.

Lemma alike_dict_set k v : forall d d',
  alike d d' -> alike (dict_set k v d) (dict_set k v d').
Proof.
  induction 1 as [|[k1 v1] [k2 v2] d d' [Hk Hv] Hall IH]; cbn.
  - apply alike_refl.
  - cbn in Hk. subst k2. destruct (Str.eqb k1 k).
    + constructor; [split; [reflexivity|left; reflexivity]|exact Hall].
    + constructor; [split; [reflexivity|exact Hv]|exact IH].
Qed.

Lemma alike_dict_update extra : forall d d',
  alike d d' -> alike (dict_update d extra) (dict_update d' extra).
Proof.
  unfold dict_update.
  induction extra as [|[k v] r IH]; intros d d' H; cbn; [exact H|].
  apply IH, alike_dict_set, H.
Qed.

(** The metadata built at two readings of the clock. *)
Lemma alike_build_metadata p doc now now' extra :
  alike (build_metadata p doc now extra) (build_metadata p doc now' extra).
Proof.
  unfold build_metadata. apply alike_dict_update.
  repeat (constructor; [split; [reflexivity|left; reflexivity]|]).
  constructor; [|constructor].
  split; [reflexivity|right]. repeat split; reflexivity.
Qed.

Lemma alike_add_tags doc md md' :
  alike md md' ->
  match add_tags doc md, add_tags doc md' with
  | Ok a, Ok b => alike a b
  | Raise e, Raise e' => e = e'
  | _, _ => False
  end.
Proof.
  intros H. unfold add_tags, mbind, result_bind.
  destruct (truthy (tags doc)); [|exact H].
  destruct (join_tags (tags doc)); [|reflexivity].
  apply alike_dict_set, H.
Qed.

Variable chroma_field : str -> pyval -> result (option pyval).

Local Abbreviation store_field' := (store_field chroma_field).
Local Abbreviation stored_metadata' := (stored_metadata chroma_field).

Lemma store_field_str k s :
  reserved_key k = false -> store_field' k (VStr s) = Ok (Some (VStr s)).
Proof. intros H. unfold store_field. rewrite H. reflexivity. Qed.

Lemma store_field_kept_str k c o :
  reserved_key k = false -> is_str c = true ->
  store_field' k c = Ok o -> o = Some c.
Proof.
  intros Hk Hc. destruct c; try discriminate.
  rewrite store_field_str by exact Hk. intros [= <-]. reflexivity.
Qed.

(** A field that is not handed to the collection is not kept. *)
Lemma stored_metadata_absent k : forall md kept,
  stored_metadata' md = Ok kept ->
  dict_get k md = None -> dict_get k kept = None.
Proof.
  induction md as [|[k0 v0] r IH]; cbn; intros kept.
  - intros [= <-] _. reflexivity.
  - unfold mbind, result_bind.
    destruct (store_field' k0 v0) as [o|]; [|discriminate].
    destruct (stored_metadata' r) as [rest|]; [|discriminate].
    intros [= <-]. destruct (Str.eqb k0 k) eqn:E; [discriminate|].
    intros Hr. specialize (IH rest eq_refl Hr).
    destruct o; cbn; [rewrite E|]; exact IH.
Qed.

(** A field that is handed over is kept as the collection renders it. *)
Lemma stored_metadata_get k v : forall md kept,
  List.NoDup (map fst md) ->
  stored_metadata' md = Ok kept ->
  dict_get k md = Some v ->
  store_field' k v = Ok (dict_get k kept).
Proof.
  induction md as [|[k0 v0] r IH]; cbn; intros kept Hnd; [discriminate|].
  inversion Hnd as [|? ? Hnot Hr]; subst.
  unfold mbind, result_bind.
  destruct (store_field' k0 v0) as [o|] eqn:Ho; [|discriminate].
  destruct (stored_metadata' r) as [rest|] eqn:Hs; [|discriminate].
  intros [= <-]. destruct (Str.eqb k0 k) eqn:E.
  - apply str_eqb_true in E. subst k0. intros [= <-]. rewrite Ho.
    destruct o as [v'|]; cbn.
    + rewrite str_eqb_refl. reflexivity.
    + rewrite (stored_metadata_absent k r rest Hs)
        by (apply dict_get_absent, Hnot).
      reflexivity.
  - intros Hg. rewrite (IH rest Hr eq_refl Hg).
    destruct o; cbn; [rewrite E|]; reflexivity.
Qed.

(** The collection refuses both of two dicts that are alike, for the same
    reason, or neither. *)
Lemma alike_stored_metadata : forall md md',
  alike md md' ->
  match stored_metadata' md, stored_metadata' md' with
  | Ok _, Ok _ => True
  | Raise e, Raise e' => e = e'
  | _, _ => False
  end.
Proof.
  induction 1 as [|[k1 v1] [k2 v2] d d' [Hk Hv] _ IH]; cbn; [exact I|].
  cbn in Hk, Hv. subst k2. unfold mbind, result_bind.
  assert (Hf : match store_field' k1 v1, store_field' k1 v2 with
               | Ok _, Ok _ => True
               | Raise e, Raise e' => e = e'
               | _, _ => False
               end).
  { destruct Hv as [->|(H1 & H2 & Hr)].
    - destruct (store_field' k1 v2); [exact I|reflexivity].
    - destruct v1; try discriminate. destruct v2; try discriminate.
      rewrite !store_field_str by exact Hr. exact I. }
  destruct (store_field' k1 v1), (store_field' k1 v2); try contradiction;
    [|exact Hf].
  destruct (stored_metadata' d), (stored_metadata' d'); try contradiction;
    [exact I|exact IH].
Qed.

End StoreFacts.

Section ServiceFacts.

Variable safe_load : str -> result pyval.
Variable md5_hexdigest : str -> str.
Variable vector : Type.
Variable encode : str -> result vector.
Variable utcnow : nat -> str.
Variable chroma_field : str -> pyval -> result (option pyval).

Local Abbreviation parse_and_upsert' :=
  (parse_and_upsert safe_load md5_hexdigest vector encode utcnow
     chroma_field).
Local Abbreviation index_document' :=
  (index_document safe_load md5_hexdigest vector encode utcnow
     chroma_field).
Local Abbreviation sweep_file' :=
  (sweep_file safe_load md5_hexdigest vector encode utcnow
     chroma_field).
Local Abbreviation index_entire_vault' :=
  (index_entire_vault safe_load md5_hexdigest vector encode utcnow
     chroma_field).
Local Abbreviation delete_document' := (delete_document md5_hexdigest vector).
Local Abbreviation upsert_failure' :=
  (upsert_failure safe_load vector encode chroma_field).
Local Abbreviation file_failure' :=
  (file_failure safe_load vector encode chroma_field).

(** What [add_tags] returns does not depend on the dict it is given. *)
Lemma add_tags_cases doc md :
  (exists e, forall md', add_tags doc md' = Raise e)
  \/ (exists md1, add_tags doc md = Ok md1
        /\ dict_get (py "category") md1 = dict_get (py "category") md
        /\ forall md', exists md1', add_tags doc md' = Ok md1').
Proof.
  unfold add_tags, mbind, result_bind.
  destruct (truthy (tags doc)).
  - destruct (join_tags (tags doc)) as [joined|e].
    + right. eexists. split; [reflexivity|]. split.
      * apply dict_get_set_ne. discriminate.
      * intros md'. eexists. reflexivity.
    + left. exists e. reflexivity.
  - right. exists md. split; [reflexivity|]. split; [reflexivity|].
    intros md'. eexists. reflexivity.
Qed.

Lemma build_metadata_category p doc now extra :
  dict_get (py "category") extra = None ->
  dict_get (py "category") (build_metadata p doc now extra)
  = Some (py_or (category doc) (VStr (py "uncategorized"))).
Proof.
  intros H. unfold build_metadata.
  rewrite (dict_get_update_absent _ _ _ H). reflexivity.
Qed.

Lemma add_tags_category doc md md1 :
  add_tags doc md = Ok md1 ->
  dict_get (py "category") md1 = dict_get (py "category") md.
Proof.
  unfold add_tags, mbind, result_bind. destruct (truthy (tags doc)).
  - destruct (join_tags (tags doc)); [|discriminate].
    intros [= <-]. apply dict_get_set_ne. discriminate.
  - intros [= <-]. reflexivity.
Qed.

(** The two outcomes of the statements the endpoints run in their [try]. *)
Lemma parse_and_upsert_cases st coll t p body extra :
  match upsert_failure' st p body extra with
  | Some e => exists t', parse_and_upsert' st coll t p body extra = (t', Raise e)
  | None =>
      exists doc emb md kept,
        parse_markdown safe_load body p = Ok doc
        /\ embedder_encode vector encode st (content doc) = Ok emb
        /\ add_tags doc (build_metadata p doc (utcnow t) extra) = Ok md
        /\ stored_metadata chroma_field md = Ok kept
        /\ parse_and_upsert' st coll t p body extra
           = (S t, Ok (<[md5_hexdigest p := {| embedding := emb;
                                               document := content doc;
                                               entry_metadata := kept |}]> coll,
                       doc))
  end.
Proof.
  unfold upsert_failure, parse_and_upsert, mbind, result_bind, doc_id_of.
  destruct (parse_markdown safe_load body p) as [doc|e] eqn:Hp;
    [|exists t; reflexivity].
  destruct (embedder_encode vector encode st (content doc)) as [emb|e] eqn:He;
    [|exists t; reflexivity].
  cbv beta iota.
  pose proof (alike_add_tags doc _ _
                (alike_build_metadata p doc [] (utcnow t) extra)) as Ha.
  destruct (add_tags doc (build_metadata p doc (utcnow t) extra))
    as [md|e1] eqn:Ha1;
    destruct (add_tags doc (build_metadata p doc [] extra)) as [md0|e0];
    try contradiction.
  - pose proof (alike_stored_metadata chroma_field _ _ Ha) as Hs.
    destruct (stored_metadata chroma_field md) as [kept|e1] eqn:Hk;
      destruct (stored_metadata chroma_field md0) as [kept0|e0];
      try contradiction.
    + exists doc, emb, md, kept. auto.
    + subst e1. exists (S t). reflexivity.
  - subst e1. exists (S t). reflexivity.
Qed.

Lemma upsert_failure_same_embedder st st' p body extra :
  embedder st' = embedder st ->
  upsert_failure' st' p body extra = upsert_failure' st p body extra.
Proof.
  intros H. unfold upsert_failure, embedder_encode. rewrite H. reflexivity.
Qed.

Lemma default_category_holds doc :
  default_category doc (py_or (category doc) (VStr (py "uncategorized"))).
Proof.
  unfold default_category, py_or.
  destruct (truthy (category doc)) eqn:E.
  - split; [reflexivity|]. split; [intros H; rewrite H in E; discriminate|].
    split; [exact E|]. split; [discriminate|]. split; [reflexivity|].
    intros [H|H]; [exact H|discriminate].
  - split; [reflexivity|]. split; [discriminate|].
    split; [reflexivity|]. split; [reflexivity|]. split; [discriminate|].
    reflexivity.
Qed.

(** The category the collection keeps is its rendering of the built one. *)
Lemma kept_category p doc now extra md kept :
  dict_get (py "category") extra = None ->
  add_tags doc (build_metadata p doc now extra) = Ok md ->
  stored_metadata chroma_field md = Ok kept ->
  store_field chroma_field (py "category")
              (py_or (category doc) (VStr (py "uncategorized")))
  = Ok (dict_get (py "category") kept).
Proof.
  intros Hextra Ha Hk.
  apply (stored_metadata_get chroma_field _ _ md); [|exact Hk|].
  - apply (add_tags_nodup doc _ _ Ha), build_metadata_nodup.
  - rewrite (add_tags_category _ _ _ Ha).
    apply build_metadata_category, Hextra.
Qed.

(** A successful [/index], read backwards. *)
Lemma index_document_inv w request w1 r1 :
  index_document' w request = (w1, Response r1) ->
  exists coll doc e md,
    collection (state w) = Some coll
    /\ upsert_failure' (state w) (req_path request) (req_content request)
                       (default [] (req_metadata request)) = None
    /\ parse_markdown safe_load (req_content request) (req_path request) = Ok doc
    /\ add_tags doc (build_metadata (req_path request) doc (utcnow (clock w))
                                    (default [] (req_metadata request)))
       = Ok md
    /\ stored_metadata chroma_field md = Ok (entry_metadata e)
    /\ w1 = {| state := with_collection vector (state w)
                          (<[md5_hexdigest (req_path request) := e]> coll)
                          (Some (utcnow (S (clock w))));
               clock := S (S (clock w)) |}
    /\ r1 = {| ir_success := true;
               ir_path := req_path request;
               ir_doc_id := md5_hexdigest (req_path request);
               ir_title := title doc |}.
Proof.
  unfold index_document.
  destruct (collection (state w)) as [coll|]; [|discriminate].
  destruct (indexer (state w)); [|discriminate].
  pose proof (parse_and_upsert_cases (state w) coll (clock w)
                (req_path request) (req_content request)
                (default [] (req_metadata request))) as H.
  destruct (upsert_failure' (state w) (req_path request) (req_content request)
                            (default [] (req_metadata request))).
  - destruct H as (t' & ->). discriminate.
  - destruct H as (doc & emb & md & kept & Hp & _ & Ha & Hk & ->).
    intros [= <- <-]. eexists coll, doc, _, md.
    repeat split; [exact Hp|exact Ha|exact Hk].
Qed.

(** [/index] answers whenever the service is started and no statement of
    its [try] raises. *)
Lemma index_document_ok w request coll ix :
  collection (state w) = Some coll -> indexer (state w) = Some ix ->
  upsert_failure' (state w) (req_path request) (req_content request)
                  (default [] (req_metadata request)) = None ->
  exists w1 r1, index_document' w request = (w1, Response r1).
Proof.
  intros Hc Hi Hf. unfold index_document. rewrite Hc, Hi.
  pose proof (parse_and_upsert_cases (state w) coll (clock w)
                (req_path request) (req_content request)
                (default [] (req_metadata request))) as H.
  rewrite Hf in H. destruct H as (doc & emb & md & kept & _ & _ & _ & _ & ->).
  eexists _, _. reflexivity.
Qed.

(** The two outcomes of the sweep on one file. *)
Lemma sweep_file_cases st s f :
  match file_failure' st f with
  | Some e =>
      exists t,
        sweep_file' st s f
        = {| sw_collection := sw_collection s;
             sw_clock := t;
             sw_indexed := sw_indexed s;
             sw_errors := sw_errors s
                          ++ [{| file := full_path f; error := exn_msg e |}] |}
  | None =>
      exists body doc e,
        read_text f = Ok body
        /\ parse_markdown safe_load body (relative_path f) = Ok doc
        /\ store_field chroma_field (py "category")
                       (py_or (category doc) (VStr (py "uncategorized")))
           = Ok (category_field e)
        /\ sweep_file' st s f
           = {| sw_collection :=
                  <[md5_hexdigest (relative_path f) := e]> (sw_collection s);
                sw_clock := S (sw_clock s);
                sw_indexed := sw_indexed s + 1;
                sw_errors := sw_errors s |}
  end.
Proof.
  unfold file_failure, sweep_file.
  destruct (read_text f) as [body|e]; [|exists (sw_clock s); reflexivity].
  pose proof (parse_and_upsert_cases st (sw_collection s) (sw_clock s)
                (relative_path f) body []) as H.
  destruct (upsert_failure' st (relative_path f) body []).
  - destruct H as (t' & ->). exists t'. reflexivity.
  - destruct H as (doc & emb & md & kept & Hp & _ & Ha & Hk & ->).
    eexists body, doc, _. split; [reflexivity|]. split; [exact Hp|].
    split; [|reflexivity].
    unfold category_field. cbn [entry_metadata].
    apply (kept_category (relative_path f) doc (utcnow (sw_clock s)) [] md
                         kept); [reflexivity|exact Ha|exact Hk].
Qed.

Lemma sweep_file_indexed st s f :
  sw_indexed (sweep_file' st s f) = sw_indexed s + 1 ->
  file_failure' st f = None.
Proof.
  pose proof (sweep_file_cases st s f) as H.
  destruct (file_failure' st f); [|reflexivity].
  destruct H as (t & ->). cbn. lia.
Qed.

(** The sweep counts the files that succeed and records the others. *)
Lemma sweep_fold st fs : forall s,
  sw_indexed (fold_left (sweep_file' st) fs s)
  = sw_indexed s
    + len (List.filter (file_succeeds safe_load vector encode chroma_field st) fs)
  /\ sw_errors (fold_left (sweep_file' st) fs s)
     = sw_errors s ++ recorded_errors safe_load vector encode chroma_field st fs.
Proof.
  induction fs as [|f fs IH]; intros s; cbn [fold_left].
  - cbn. rewrite app_nil_r. split; [unfold len; cbn; lia|reflexivity].
  - destruct (IH (sweep_file' st s f)) as [Hi He]. rewrite Hi, He.
    pose proof (sweep_file_cases st s f) as H.
    unfold recorded_errors, file_succeeds. cbn [List.filter flat_map].
    destruct (file_failure' st f) as [e|].
    + destruct H as (t & ->). cbn [sw_indexed sw_errors].
      rewrite <- app_assoc. split; reflexivity.
    + destruct H as (body & doc & e & _ & _ & _ & ->).
      cbn [sw_indexed sw_errors app]. split; [|reflexivity].
      unfold len. cbn [length]. lia.
Qed.

Lemma filter_split_length {A} (p : A -> bool) (l : list A) :
  (length (List.filter p l)
   + length (List.filter (fun x => negb (p x)) l) = length l)%nat.
Proof.
  induction l as [|a l IH]; cbn; [reflexivity|].
  destruct (p a); cbn; lia.
Qed.

Lemma recorded_errors_length st fs :
  length (recorded_errors safe_load vector encode chroma_field st fs)
  = length (List.filter
              (fun f => negb (file_succeeds safe_load vector encode chroma_field st f)) fs).
Proof.
  unfold recorded_errors, file_succeeds.
  induction fs as [|f fs IH]; cbn; [reflexivity|].
  destruct (file_failure' st f); cbn; rewrite IH; reflexivity.
Qed.

(** C2.  The identifier is the hash of the path string and of nothing else:
    [/index] answers with it and stores the entry under it; indexing the
    same request again answers with the same identifier and leaves the
    count as it is; any request on the same path gets the same identifier;
    the sweep stores a file under the hash of its relative path and the
    delete endpoint removes the entry under the hash of the path; and two
    paths get the same identifier only when their hashes collide. *)
Theorem identifier_is_path_hash w request w1 r1 :
  index_document' w request = (w1, Response r1) ->
  ir_doc_id r1 = md5_hexdigest (req_path request)
  /\ (exists coll1 e,
        collection (state w1) = Some coll1 /\ coll1 !! ir_doc_id r1 = Some e)
  /\ (exists w2 r2,
        index_document' w1 request = (w2, Response r2)
        /\ ir_doc_id r2 = ir_doc_id r1
        /\ count w2 = count w1)
  /\ (forall w' request' w'' r',
        req_path request' = req_path request ->
        index_document' w' request' = (w'', Response r') ->
        ir_doc_id r' = ir_doc_id r1)
  /\ (forall st s f,
        sw_indexed (sweep_file' st s f) = sw_indexed s + 1 ->
        exists e,
          sw_collection (sweep_file' st s f)
          = <[md5_hexdigest (relative_path f) := e]> (sw_collection s))
  /\ (forall w' p w'' r,
        delete_document' w' p = (w'', Response r) ->
        dr_doc_id r = md5_hexdigest p
        /\ exists coll,
             collection (state w') = Some coll
             /\ collection (state w'') = Some (delete (md5_hexdigest p) coll))
  /\ (forall p q,
        p <> q ->
        doc_id_of md5_hexdigest p = doc_id_of md5_hexdigest q ->
        md5_hexdigest p = md5_hexdigest q).
Proof.
  intros H.
  destruct (index_document_inv _ _ _ _ H)
    as (coll & doc & e & md & Hc & Hf & Hp & _ & _ & -> & ->).
  cbn [ir_doc_id state collection with_collection].
  split; [reflexivity|].
  split; [eexists _, e; split; [reflexivity|apply lookup_insert_eq]|].
  split; [|split; [|split; [|split]]].
  - set (w1 := {| state := _; clock := _ |}).
    assert (Hi : exists ix, indexer (state w1) = Some ix).
    { unfold index_document in H. rewrite Hc in H.
      destruct (indexer (state w)) as [ix|] eqn:Ei; [|discriminate].
      exists ix. exact Ei. }
    destruct Hi as (ix & Hi).
    destruct (index_document_ok w1 request _ ix eq_refl Hi) as (w2 & r2 & H2).
    { rewrite <- Hf. apply upsert_failure_same_embedder. reflexivity. }
    exists w2, r2. split; [exact H2|].
    destruct (index_document_inv _ _ _ _ H2)
      as (coll1 & doc2 & e2 & md2 & Hc1 & _ & _ & _ & _ & -> & ->).
    split; [reflexivity|].
    cbn in Hc1. injection Hc1 as <-.
    unfold count. cbn [state collection with_collection]. f_equal.
    apply map_size_insert_Some. rewrite lookup_insert_eq. eauto.
  - intros w' request' w'' r' Hpath H'.
    destruct (index_document_inv _ _ _ _ H')
      as (? & ? & ? & ? & _ & _ & _ & _ & _ & _ & ->).
    cbn. rewrite Hpath. reflexivity.
  - intros st s f Hs. apply sweep_file_indexed in Hs.
    pose proof (sweep_file_cases st s f) as Hcase. rewrite Hs in Hcase.
    destruct Hcase as (body & doc' & e' & _ & _ & _ & ->).
    exists e'. reflexivity.
  - intros w' p w'' r. unfold delete_document.
    destruct (collection (state w')) as [coll'|]; [|discriminate].
    intros [= <- <-]. split; [reflexivity|]. exists coll'.
    split; reflexivity.
  - intros p q _ Hid. exact Hid.
Qed.

(** C7.  A sweep over an existing vault by a started service answers, and
    never raises: each file that fails (it cannot be read, the parser or
    the embedder raises, the tags cannot be joined, or the collection
    refuses its metadata) is recorded as [{file, error}], in order, and the
    others are still processed; the count of indexed files is the number of
    files that succeed, and together with the number of errors it gives the
    number of files. *)
Theorem sweep_records_failures w vault coll ix :
  collection (state w) = Some coll ->
  indexer (state w) = Some ix ->
  vault_exists vault = true ->
  exists w' resp errs,
    index_entire_vault' w vault = (w', Response resp)
    /\ errs = recorded_errors safe_load vector encode chroma_field (state w)
                              (rglob_md vault)
    /\ errors resp = (if Str.nonempty errs then Some errs else None)
    /\ indexed resp
       = len (List.filter
                (file_succeeds safe_load vector encode chroma_field (state w))
                (rglob_md vault))
    /\ total_files resp = len (rglob_md vault)
    /\ indexed resp + len errs = total_files resp.
Proof.
  intros Hc Hi Hv. unfold index_entire_vault. rewrite Hc, Hi, Hv. cbn [negb].
  set (s0 := {| sw_collection := coll; sw_clock := clock w;
                sw_indexed := 0; sw_errors := [] |}).
  destruct (sweep_fold (state w) (rglob_md vault) s0) as [Hn He].
  cbn [sw_indexed sw_errors app] in Hn, He.
  eexists _, _, _. split; [reflexivity|].
  cbn [errors indexed total_files]. rewrite He, Hn.
  split; [reflexivity|]. split; [reflexivity|]. split; [reflexivity|].
  split; [reflexivity|].
  unfold len. rewrite recorded_errors_length.
  pose proof (filter_split_length
                (file_succeeds safe_load vector encode chroma_field (state w))
                (rglob_md vault)).
  change (sw_indexed s0) with 0. lia.
Qed.

(** C10, as amended.  For an entry written by [/index] for a request whose
    own metadata has no [category] field, and for every entry written by
    the sweep, the [category] field handed to the collection is the
    category of the parsed document or, when the document has none, the
    text "uncategorized": it is never [None].  The collection keeps its
    rendering of that value; when the category of the document is a string
    or is missing, what is kept is that very string. *)
Theorem stored_category_defaults :
  (forall w request w1 r1,
     index_document' w request = (w1, Response r1) ->
     dict_get (py "category") (default [] (req_metadata request)) = None ->
     exists doc c,
       parse_markdown safe_load (req_content request) (req_path request)
       = Ok doc
       /\ default_category doc c
       /\ store_field chroma_field (py "category") c
          = Ok (category_stored (w1, r1) (ir_doc_id r1))
       /\ (is_str (category doc) = true \/ truthy (category doc) = false ->
           category_stored (w1, r1) (ir_doc_id r1) = Some c))
  /\ (forall st s f,
        sw_indexed (sweep_file' st s f) = sw_indexed s + 1 ->
        exists body doc e c,
          read_text f = Ok body
          /\ parse_markdown safe_load body (relative_path f) = Ok doc
          /\ sw_collection (sweep_file' st s f)
               !! md5_hexdigest (relative_path f) = Some e
          /\ default_category doc c
          /\ store_field chroma_field (py "category") c = Ok (category_field e)
          /\ (is_str (category doc) = true \/ truthy (category doc) = false ->
              category_field e = Some c)).
Proof.
  split.
  - intros w request w1 r1 H Hextra.
    destruct (index_document_inv _ _ _ _ H)
      as (coll & doc & e & md & _ & _ & Hp & Ha & Hk & -> & ->).
    exists doc, (py_or (category doc) (VStr (py "uncategorized"))).
    pose proof (default_category_holds doc) as Hd.
    split; [exact Hp|]. split; [exact Hd|].
    assert (Hs : store_field chroma_field (py "category")
                   (py_or (category doc) (VStr (py "uncategorized")))
                 = Ok (category_field e)).
    { unfold category_field.
      apply (kept_category (req_path request) doc (utcnow (clock w))
               (default [] (req_metadata request)) md _ Hextra Ha Hk). }
    unfold category_stored.
    cbn [fst state collection with_collection ir_doc_id mbind option_bind].
    rewrite lookup_insert_eq. cbn [mbind option_bind].
    split; [exact Hs|]. intros Hstr.
    destruct Hd as (_ & _ & _ & _ & _ & Hd).
    apply (store_field_kept_str chroma_field (py "category"));
      [reflexivity|apply Hd, Hstr|exact Hs].
  - intros st s f Hs. apply sweep_file_indexed in Hs.
    pose proof (sweep_file_cases st s f) as Hcase. rewrite Hs in Hcase.
    destruct Hcase as (body & doc & e & Hr & Hp & Hc & ->).
    exists body, doc, e, (py_or (category doc) (VStr (py "uncategorized"))).
    pose proof (default_category_holds doc) as Hd.
    cbn [sw_collection]. rewrite lookup_insert_eq.
    split; [exact Hr|]. split; [exact Hp|]. split; [reflexivity|].
    split; [exact Hd|]. split; [exact Hc|]. intros Hstr.
    destruct Hd as (_ & _ & _ & _ & _ & Hd).
    apply (store_field_kept_str chroma_field (py "category"));
      [reflexivity|apply Hd, Hstr|exact Hc].
Qed.

End ServiceFacts.

(** ** The properties at sample inputs *)

Lemma short_document_single_chunk_witness :
  len (content (note (py "hello"))) <= chunk_size default_indexer
  /\ chunk_document default_indexer (note (py "hello"))
     = [content (note (py "hello"))].
Proof.
  split; [vm_compute; discriminate|].
  apply (short_document_single_chunk default_indexer (note (py "hello"))).
  vm_compute. discriminate.
Defined.

Lemma chunk_size_bound_witness :
  len (content (note greeting_then_long)) > chunk_size small_indexer
  /\ In (py "hello Aaaa bbbb.")
        (chunk_document small_indexer (note greeting_then_long))
  /\ (len (py "hello Aaaa bbbb.") <= chunk_size small_indexer
      \/ oversized_sentence (chunk_size small_indexer)
           (content (note greeting_then_long)) (py "hello Aaaa bbbb.")).
Proof.
  split; [reflexivity|].
  split; [vm_compute; tauto|].
  apply (chunk_size_bound small_indexer (note greeting_then_long)
           (py "hello Aaaa bbbb.")).
  - reflexivity.
  - vm_compute. tauto.
Defined.

Lemma chunks_nonblank_in_order_witness :
  (Str.strip (content (note greeting_then_long)) <> []
   \/ len (content (note greeting_then_long)) > chunk_size small_indexer)
  /\ Forall (fun c => Str.strip c <> [])
            (chunk_document small_indexer (note greeting_then_long)).
Proof.
  split; [right; reflexivity|].
  apply (chunks_nonblank_in_order small_indexer (note greeting_then_long)).
  right. reflexivity.
Defined.

(** The chunk of an empty document is empty. *)
Lemma blank_chunk_of_empty_document :
  ~ Forall (fun c => Str.strip c <> [])
           (chunk_document default_indexer (note [])).
Proof.
  intros H. inversion H as [|c l Hc _]; subst. apply Hc. reflexivity.
Qed.

Lemma scalar_frontmatter_raises_witness :
  scalar_load (py "hello") = Ok (VStr (py "hello"))
  /\ parse_markdown scalar_load ruled_note (py "a.md")
     = Raise (Exn AttributeError (py "'str' object has no attribute 'get'")).
Proof.
  split; [reflexivity|].
  apply (scalar_frontmatter_raises scalar_load). reflexivity.
Defined.

Lemma identifier_is_path_hash_witness :
  index_document scalar_load path_digest (list Z) length_vector tick_stamp plain_store
                 ready_world plain_request
  = (indexed_once, Response plain_answer)
  /\ ir_doc_id plain_answer = path_digest (req_path plain_request)
  /\ exists w2 r2,
       index_document scalar_load path_digest (list Z) length_vector
                      tick_stamp plain_store indexed_once plain_request
       = (w2, Response r2)
       /\ ir_doc_id r2 = ir_doc_id plain_answer
       /\ count w2 = count indexed_once.
Proof.
  assert (H : index_document scalar_load path_digest (list Z) length_vector
                tick_stamp plain_store ready_world plain_request
              = (indexed_once, Response plain_answer))
    by (vm_compute; reflexivity).
  split; [exact H|].
  pose proof (identifier_is_path_hash scalar_load path_digest (list Z)
                length_vector tick_stamp plain_store ready_world plain_request
                indexed_once plain_answer H) as (H1 & _ & H3 & _).
  split; [exact H1|exact H3].
Defined.

Lemma sweep_records_failures_witness :
  collection (state ready_world) = Some ∅
  /\ indexer (state ready_world) = Some default_indexer
  /\ vault_exists small_vault = true
  /\ exists w' resp errs,
       index_entire_vault scalar_load path_digest (list Z) length_vector
                          tick_stamp plain_store ready_world small_vault
       = (w', Response resp)
       /\ errors resp = (if Str.nonempty errs then Some errs else None)
       /\ indexed resp + len errs = total_files resp.
Proof.
  split; [reflexivity|]. split; [reflexivity|]. split; [reflexivity|].
  destruct (sweep_records_failures scalar_load path_digest (list Z)
              length_vector tick_stamp plain_store ready_world small_vault ∅
              default_indexer eq_refl eq_refl eq_refl)
    as (w' & resp & errs & H & _ & He & _ & _ & Hn).
  exists w', resp, errs. auto.
Defined.

(** Three files that can be read and one that cannot: three are indexed
    and one error is recorded. *)
Example sweep_three_of_four :
  exists w' resp err,
    index_entire_vault scalar_load path_digest (list Z) length_vector
                       tick_stamp plain_store ready_world small_vault
    = (w', Response resp)
    /\ indexed resp = 3
    /\ total_files resp = 4
    /\ errors resp = Some [err]
    /\ file err = py "/vault/locked.md"
    /\ count w' = 3.
Proof.
  eexists _, _, _. split; [reflexivity|]. vm_compute. repeat split.
Qed.

(** A file whose title the collection refuses is recorded like any other
    failure, and nothing is stored for it. *)
Example sweep_records_refused_title :
  exists w' resp err,
    index_entire_vault nested_title_load path_digest (list Z) length_vector
                       tick_stamp plain_store ready_world ruled_vault
    = (w', Response resp)
    /\ indexed resp = 1
    /\ total_files resp = 2
    /\ errors resp = Some [err]
    /\ file err = py "/vault/ruled.md"
    /\ error err = refusal_text
    /\ count w' = 1.
Proof.
  eexists _, _, _. split; [reflexivity|]. vm_compute. repeat split.
Qed.

(** The request's own [category] takes the place of the default: the parsed
    document has no category, and the stored field is the number 7. *)
Lemma caller_category_replaces_default :
  parse_markdown scalar_load (req_content override_request)
                 (req_path override_request)
  = Ok {| path := py "b.md";
          title := VStr (py "B");
          content := py "no frontmatter here";
          category := VNone;
          tags := VList [];
          metadata := [];
          chunks := None |}
  /\ category_stored
       (index_document scalar_load path_digest (list Z) length_vector
                       tick_stamp plain_store ready_world override_request)
       (py "b.md")
     = Some (VInt 7)
  /\ is_str (VInt 7) = false.
Proof. vm_compute. repeat split. Qed.

(** Indexing the same request twice in an empty collection leaves one
    entry, and deleting its path leaves none. *)
Example index_twice_one_entry :
  let index := index_document scalar_load path_digest (list Z) length_vector
                              tick_stamp plain_store in
  let twice := (index indexed_once plain_request).1 in
  count indexed_once = 1
  /\ count twice = 1
  /\ count (delete_document path_digest (list Z) twice (py "a/b.md")).1 = 0.
Proof. vm_compute. repeat split. Qed.

(** ** Cosine similarity *)

Section SimilarityFacts.

Import PrimFloat.

Variable np_dot : list float -> list float -> float.
Variable np_norm : list float -> float.

(** The product of an array of one entry with itself is the square of the
    entry, and the norm of a flat array is the square root of its product
    with itself. *)
Hypothesis dot_square : forall x, np_dot [x] [x] = (x * x)%float.
Hypothesis norm_is_root : forall a, np_norm a = sqrt (np_dot a a).

(** C8, at inputs where the similarity of a vector with itself is not 1.
    The guard answers 0.0 whenever a computed norm is zero, so for the zero
    vector no division by zero happens.  The square of a small entry
    underflows: the norm of the array with the single entry [tiny], which
    is not zero, computes as zero, and its similarity with itself is 0.0.
    The square of a large entry overflows: for [huge] the result is not a
    number. *)
Theorem similarity_underflows :
  (forall a b,
     length a = length b ->
     (np_norm a =? 0)%float || (np_norm b =? 0)%float = true ->
     similarity np_dot np_norm a b = Ok 0%float)
  /\ (forall y, similarity np_dot np_norm [0%float] [y] = Ok 0%float
                /\ similarity np_dot np_norm [y] [0%float] = Ok 0%float)
  /\ (tiny =? 0)%float = false
  /\ similarity np_dot np_norm [tiny] [tiny] = Ok 0%float
  /\ (exists f, similarity np_dot np_norm [huge] [huge] = Ok f
                /\ is_nan f = true)
  /\ similarity np_dot np_norm [1%float] [1%float] = Ok 1%float.
Proof.
  split; [|split; [|split; [|split; [|split]]]].
  - intros a b Hlen H. unfold similarity.
    rewrite Hlen, Nat.eqb_refl. cbn [negb]. rewrite H. reflexivity.
  - intros y. unfold similarity. cbn [length Nat.eqb negb].
    rewrite !norm_is_root, !dot_square. split.
    + reflexivity.
    + change (sqrt (0 * 0) =? 0)%float with true.
      rewrite orb_true_r. reflexivity.
  - reflexivity.
  - unfold similarity. cbn [length Nat.eqb negb].
    rewrite !norm_is_root, !dot_square. reflexivity.
  - unfold similarity. cbn [length Nat.eqb negb].
    rewrite !norm_is_root, !dot_square. eexists. split; reflexivity.
  - unfold similarity. cbn [length Nat.eqb negb].
    rewrite !norm_is_root, !dot_square. reflexivity.
Qed.

End SimilarityFacts.

Lemma similarity_underflows_witness :
  similarity sum_of_products root_of_squares [tiny] [tiny]
  = Ok PrimFloat.zero
  /\ PrimFloat.eqb tiny PrimFloat.zero = false.
Proof.
  destruct (similarity_underflows sum_of_products root_of_squares
              (fun x => eq_refl) (fun a => eq_refl))
    as (_ & _ & H3 & H4 & _).
  split; [exact H4|exact H3].
Defined.

(** * Further properties of the code *)

(** ** The parser: failures, frontmatter block, content *)

Section FrontmatterFacts.

Lemma strip_prefix_app p : forall s r,
  Str.strip_prefix p s = Some r <-> s = p ++ r.
Proof.
  induction p as [|a p IH]; intros s r; cbn.
  - split; [intros [= ->]; reflexivity|intros ->; reflexivity].
  - destruct s as [|b s]; [split; discriminate|].
    destruct (Ascii.eqb_spec a b) as [->|Hne].
    + rewrite IH. split; [intros ->; reflexivity|intros [= ->]; reflexivity].
    + split; [discriminate|intros [= E _]; congruence].
Qed.

Lemma until_closing_dashes_found s g tail :
  until_closing_dashes s = Some (g, tail) ->
  s = g ++ py "
---" ++ tail
  /\ forall g' tail', s = g' ++ py "
---" ++ tail' -> (length g <= length g')%nat.
Proof.
  revert g tail. induction s as [|c r IH]; intros g tail.
  - cbn. discriminate.
  - cbn [until_closing_dashes].
    destruct (Str.strip_prefix (py "
---") (c :: r)) as [t|] eqn:E.
    + intros [= <- <-]. apply strip_prefix_app in E. split; [exact E|].
      intros g' tail' _. cbn. lia.
    + destruct (until_closing_dashes r) as [[g0 t0]|]; [|discriminate].
      intros [= <- <-]. destruct (IH g0 t0 eq_refl) as [Hr Hmin].
      split; [cbn; rewrite Hr; reflexivity|].
      intros g' tail' Heq. destruct g' as [|c' g'].
      * cbn [app] in Heq.
        apply strip_prefix_app in Heq. congruence.
      * cbn in Heq. injection Heq as _ Heq. cbn [length].
        apply le_n_S, (Hmin g' tail' Heq).
Qed.

Lemma until_closing_dashes_none s :
  until_closing_dashes s = None ->
  forall g tail, s <> g ++ py "
---" ++ tail.
Proof.
  induction s as [|c r IH]; intros H g tail Heq.
  - destruct g; discriminate.
  - cbn [until_closing_dashes] in H.
    destruct (Str.strip_prefix (py "
---") (c :: r)) as [t|] eqn:E; [discriminate|].
    destruct (until_closing_dashes r) as [[g0 t0]|] eqn:Er; [discriminate|].
    destruct g as [|c' g].
    + cbn [app] in Heq.
      apply strip_prefix_app in Heq. congruence.
    + cbn in Heq. injection Heq as _ Heq. exact (IH eq_refl g tail Heq).
Qed.

End FrontmatterFacts.

(** What [FRONTMATTER_PATTERN.match] finds, and when it finds nothing. *)
Lemma frontmatter_match_cases (body : str) :
  (forall g rest,
     FRONTMATTER_PATTERN_match body = Some (g, rest) ->
     exists nl,
       body = py "---
" ++ g ++ py "
---" ++ nl ++ rest
       /\ (nl = [] \/ nl = py "
")
       /\ (nl = [] -> forall rest', rest <> "010"%char :: rest')
       /\ (forall g' tail',
             body = py "---
" ++ g' ++ py "
---" ++ tail' -> (length g <= length g')%nat))
  /\ (FRONTMATTER_PATTERN_match body = None <->
      forall g tail, body <> py "---
" ++ g ++ py "
---" ++ tail).
Proof.
  unfold FRONTMATTER_PATTERN_match. split.
  - intros g rest.
    destruct (Str.strip_prefix (py "---
") body) as [r0|] eqn:E0; [|discriminate].
    apply strip_prefix_app in E0. subst body.
    destruct (until_closing_dashes r0) as [[g0 tail]|] eqn:E1; [|discriminate].
    destruct (until_closing_dashes_found _ _ _ E1) as [Hr Hmin].
    assert (Hmin' : forall g' tail',
              py "---
" ++ r0 = py "---
" ++ g' ++ py "
---" ++ tail' -> (length g0 <= length g')%nat).
    { intros g' tail' Heq. apply app_inv_head in Heq.
      apply (Hmin g' tail' Heq). }
    rewrite Hr. rewrite Hr in Hmin'.
    destruct tail as [|c t].
    + intros [= <- <-]. exists [].
      split; [reflexivity|]. split; [left; reflexivity|].
      split; [intros _ rest'; discriminate|exact Hmin'].
    + destruct (Ascii.eqb_spec c "010") as [->|Hne]; intros [= <- <-].
      * exists (py "
").
        split; [reflexivity|]. split; [right; reflexivity|].
        split; [discriminate|exact Hmin'].
      * exists [].
        split; [reflexivity|]. split; [left; reflexivity|].
        split; [|exact Hmin'].
        intros _ rest' [= E _]. congruence.
  - destruct (Str.strip_prefix (py "---
") body) as [r0|] eqn:E0.
    + apply strip_prefix_app in E0. subst body.
      destruct (until_closing_dashes r0) as [[g0 tail]|] eqn:E1.
      * split; [discriminate|]. intros H. exfalso.
        destruct (until_closing_dashes_found _ _ _ E1) as [Hr _].
        apply (H g0 tail). rewrite Hr. reflexivity.
      * split; [|reflexivity]. intros _ g tail Heq.
        apply app_inv_head in Heq.
        exact (until_closing_dashes_none _ E1 g tail Heq).
    + split; [|reflexivity]. intros _ g tail Heq.
      assert (Hp : Str.strip_prefix (py "---
") body = Some (g ++ py "
---" ++ tail)) by (apply strip_prefix_app; exact Heq).
      congruence.
Qed.

(** X4.  [FRONTMATTER_PATTERN] matches exactly the texts that start with a
    line of three dashes and have, later, a line feed followed by three
    dashes.  The block it finds stops at the first such place, and one line
    feed after the closing dashes belongs to the block. *)
Theorem frontmatter_block_shape (body : str) :
  (forall g rest,
     FRONTMATTER_PATTERN_match body = Some (g, rest) ->
     exists nl,
       body = py "---
" ++ g ++ py "
---" ++ nl ++ rest
       /\ (nl = [] \/ nl = py "
")
       /\ (nl = [] -> forall rest', rest <> "010"%char :: rest')
       /\ (forall g' tail',
             body = py "---
" ++ g' ++ py "
---" ++ tail' -> (length g <= length g')%nat))
  /\ (FRONTMATTER_PATTERN_match body = None <->
      forall g tail, body <> py "---
" ++ g ++ py "
---" ++ tail).
Proof. exact (frontmatter_match_cases body). Qed.

Section ParserErrors.

Variable safe_load : str -> result pyval.

(** X1.  [parse_markdown] raises exactly in two cases, both with a
    frontmatter block: the YAML loader raises an exception that is not a
    [yaml.YAMLError], which comes out unchanged; or it loads a value that is
    not a mapping and that Python takes as true, and [metadata.get] raises
    [AttributeError]. *)
Theorem parser_failure_cases (body p : str) (e : exn) :
  parse_markdown safe_load body p = Raise e <->
  exists frontmatter_text rest,
    FRONTMATTER_PATTERN_match body = Some (frontmatter_text, rest)
    /\ ((safe_load frontmatter_text = Raise e /\ is_yaml_error e = false)
        \/ exists v, safe_load frontmatter_text = Ok v
                     /\ truthy v = true
                     /\ (forall d, v <> VDict d)
                     /\ e = no_attribute v (py "get")).
Proof.
  split; [apply parse_markdown_raises|].
  intros (ft & rest & Hm & H).
  unfold parse_markdown, extract_frontmatter, mbind, result_bind.
  rewrite Hm. destruct H as [[Hl Hy]|(v & Hl & Ht & Hd & ->)]; rewrite Hl.
  - rewrite Hy. reflexivity.
  - unfold py_or. rewrite Ht.
    destruct v; try reflexivity. exfalso. exact (Hd _ eq_refl).
Qed.

(** X2.  When the YAML of the frontmatter block does not parse, the parser
    keeps the whole text: the content is the text, trimmed, the metadata
    and the tags are empty, and the title is looked for in the whole text,
    delimiters included. *)
Theorem yaml_error_keeps_text (body p frontmatter_text rest : str) (e : exn) :
  FRONTMATTER_PATTERN_match body = Some (frontmatter_text, rest) ->
  safe_load frontmatter_text = Raise e ->
  is_yaml_error e = true ->
  exists doc,
    parse_markdown safe_load body p = Ok doc
    /\ content doc = Str.strip body
    /\ metadata doc = []
    /\ tags doc = VList []
    /\ title doc = match HEADING_PATTERN_search body with
                   | Some g => VStr (Str.strip g)
                   | None => VStr (filename_title p)
                   end.
Proof.
  intros Hm Hl Hy.
  unfold parse_markdown, extract_frontmatter, mbind, result_bind.
  rewrite Hm, Hl, Hy. cbn. eexists. repeat split; reflexivity.
Qed.

(** X3.  The content of a parsed document is trimmed: it is empty or starts
    and ends with a character that is not whitespace, it is no longer than
    the text, and it is the trimmed text or the trimmed rest of the text
    after a frontmatter block. *)
Theorem content_is_trimmed (body p : str) (doc : ParsedDocument) :
  parse_markdown safe_load body p = Ok doc ->
  Str.strip (content doc) = content doc
  /\ (content doc = [] \/ trimmed (content doc))
  /\ len (content doc) <= len body
  /\ (content doc = Str.strip body
      \/ exists g nl rest,
           body = py "---
" ++ g ++ py "
---" ++ nl ++ rest
           /\ content doc = Str.strip rest).
Proof.
  intros H.
  destruct (parse_markdown_inv safe_load body p doc H)
    as (b & Hfm & _ & Hc & _).
  rewrite Hc. split; [apply strip_idempotent|]. split.
  { destruct (Str.strip b) eqn:E; [left; reflexivity|right].
    rewrite <- E. apply strip_result_trimmed. rewrite E. discriminate. }
  unfold extract_frontmatter in Hfm.
  destruct (FRONTMATTER_PATTERN_match body) as [[g rest]|] eqn:Hm.
  - destruct (proj1 (frontmatter_match_cases body) g rest Hm)
      as (nl & Hb & _).
    destruct (safe_load g) as [v|e0].
    + injection Hfm as _ <-. split.
      * pose proof (strip_length rest). rewrite Hb, !len_app.
        pose proof (len_nonneg g). pose proof (len_nonneg nl).
        change (len (py "---
")) with 4. change (len (py "
---")) with 4. lia.
      * right. exists g, nl, rest. split; [exact Hb|reflexivity].
    + destruct (is_yaml_error e0); [|discriminate].
      injection Hfm as _ <-. split; [apply strip_length|left; reflexivity].
  - injection Hfm as _ <-. split; [apply strip_length|left; reflexivity].
Qed.

End ParserErrors.

(** ** Tags written as one string *)

Section TagFacts.

Lemma split_char_parts (P : ascii -> Prop) sep s : forall acc,
  Forall P acc -> Forall P s ->
  Forall (Forall P) (Str.split_char_from sep acc s).
Proof.
  induction s as [|c r IH]; intros acc Ha Hs; cbn [Str.split_char_from].
  - constructor; [apply Forall_rev, Ha|constructor].
  - inversion Hs as [|? ? Hc Hr]; subst.
    destruct (Ascii.eqb c sep).
    + constructor; [apply Forall_rev, Ha|]. apply IH; [constructor|exact Hr].
    + apply IH; [constructor; assumption|exact Hr].
Qed.

Lemma strip_no_space x :
  Forall (fun c => Str.is_space c = false) x -> Str.strip x = x.
Proof.
  intros H. destruct x as [|c r]; [reflexivity|].
  apply strip_trimmed. split.
  - inversion H; assumption.
  - apply Forall_rev in H.
    destruct (rev (c :: r)) as [|d t] eqn:E.
    + apply (f_equal (@length ascii)) in E. rewrite length_rev in E. discriminate.
    + inversion H; assumption.
Qed.

Lemma join_items_strings l : forall i, join_items i (map VStr l) = Ok l.
Proof.
  induction l as [|s l IH]; intros i; cbn; [reflexivity|].
  unfold mbind, result_bind. rewrite IH. reflexivity.
Qed.

End TagFacts.

(** X5.  Tags written in the frontmatter as one comma-separated string never
    make the indexing fail: the stored [tags] field is the items, each
    trimmed, joined by commas; and a string without whitespace is stored
    exactly as it was written. *)
Theorem string_tags_round_trip (doc : ParsedDocument) (md : dict) (s : str) :
  tags doc = read_tags (VStr s) ->
  add_tags doc md
  = Ok (dict_set (py "tags")
                 (VStr (Str.join (py ",")
                                 (map Str.strip (Str.split_char "," s)))) md)
  /\ (Forall (fun c => Str.is_space c = false) s ->
      add_tags doc md = Ok (dict_set (py "tags") (VStr s) md)).
Proof.
  intros Ht.
  assert (H : add_tags doc md
              = Ok (dict_set (py "tags")
                      (VStr (Str.join (py ",")
                               (map Str.strip (Str.split_char "," s)))) md)).
  { unfold add_tags, mbind, result_bind. rewrite Ht. cbn [read_tags].
    assert (Hn : truthy (VList (map (fun x => VStr (Str.strip x))
                                    (Str.split_char "," s))) = true).
    { unfold Str.split_char.
      destruct (Str.split_char_from "," [] s) as [|x l] eqn:E;
        [exfalso; exact (split_char_nonempty _ _ _ E)|reflexivity]. }
    rewrite Hn. cbn [join_tags]. unfold mbind, result_bind.
    rewrite <- (map_map Str.strip VStr).
    rewrite (join_items_strings (map Str.strip (Str.split_char "," s)) 0).
    reflexivity. }
  split; [exact H|]. intros Hs. rewrite H. do 3 f_equal.
  unfold Str.split_char.
  pose proof (split_char_parts _ "," s [] (List.Forall_nil _) Hs) as Hp.
  replace (map Str.strip (Str.split_char_from "," [] s))
    with (Str.split_char_from "," [] s).
  - apply (join_split_char "," s []).
  - induction Hp as [|x l Hx _ IH]; [reflexivity|].
    cbn. rewrite (strip_no_space x Hx), <- IH. reflexivity.
Qed.

Lemma string_tags_round_trip_witness :
  tags tagged_note = read_tags (VStr (py "ai,notes"))
  /\ add_tags tagged_note [] = Ok [(py "tags", VStr (py "ai,notes"))].
Proof.
  split; [reflexivity|].
  apply (string_tags_round_trip tagged_note [] (py "ai,notes") eq_refl).
  repeat constructor.
Defined.

(** ** Sentences *)

Section SentenceFacts.

Lemma without_space_app a b :
  without_space (a ++ b) = without_space a ++ without_space b.
Proof. apply List.filter_app. Qed.

Lemma without_space_drop s :
  without_space (Str.drop_while Str.is_space s) = without_space s.
Proof.
  induction s as [|c r IH]; [reflexivity|]. cbn.
  destruct (Str.is_space c) eqn:E; cbn; [exact IH|].
  rewrite E. reflexivity.
Qed.

Lemma without_space_rev s : without_space (rev s) = rev (without_space s).
Proof.
  induction s as [|c r IH]; [reflexivity|]. cbn [rev].
  rewrite without_space_app, IH. cbn.
  destruct (Str.is_space c); cbn; [rewrite app_nil_r|]; reflexivity.
Qed.

(** [strip] removes whitespace only. *)
Lemma without_space_strip s : without_space (Str.strip s) = without_space s.
Proof.
  unfold Str.strip, Str.rstrip, Str.lstrip.
  rewrite without_space_rev, without_space_drop, without_space_rev,
    rev_involutive.
  apply without_space_drop.
Qed.

Lemma without_space_nil s :
  without_space s = [] <-> Str.strip s = [].
Proof.
  split.
  - intros H. destruct (Str.strip s) as [|c r] eqn:E; [reflexivity|].
    assert (T : trimmed (Str.strip s))
      by (apply strip_result_trimmed; rewrite E; discriminate).
    rewrite <- without_space_strip, E in H. rewrite E in T.
    destruct T as [T _]. cbn in T, H. rewrite T in H. discriminate.
  - intros H. rewrite <- without_space_strip, H. reflexivity.
Qed.

Lemma without_space_stripped_parts l :
  without_space (concat (List.filter Str.nonempty (map Str.strip l)))
  = without_space (concat l).
Proof.
  induction l as [|x l IH]; [reflexivity|]. cbn [map List.filter concat].
  rewrite without_space_app, <- IH, <- (without_space_strip x).
  destruct (Str.strip x) eqn:E; cbn [Str.nonempty concat];
    [reflexivity|rewrite without_space_app; reflexivity].
Qed.

Lemma sentence_split_keeps s : forall skipping after_mark acc,
  without_space (concat (sentence_split_from skipping after_mark acc s))
  = without_space (rev acc ++ s).
Proof.
  induction s as [|c r IH]; intros sk am acc; cbn [sentence_split_from].
  - cbn. reflexivity.
  - rewrite (without_space_app (rev acc) (c :: r)).
    destruct (Str.is_space c) eqn:E.
    + assert (Hc : without_space (c :: r) = without_space r)
        by (cbn; rewrite E; reflexivity).
      rewrite Hc. destruct sk; [|destruct am].
      * rewrite IH. apply without_space_app.
      * cbn [concat]. rewrite without_space_app, IH. reflexivity.
      * rewrite IH. cbn [rev]. rewrite <- app_assoc, without_space_app.
        f_equal. cbn. rewrite E. reflexivity.
    + rewrite IH. cbn [rev]. rewrite <- app_assoc, without_space_app.
      reflexivity.
Qed.

End SentenceFacts.

Lemma split_sentences_keeps (body : str) :
  without_space (concat (_split_sentences body)) = without_space body.
Proof.
  unfold _split_sentences, SENTENCE_PATTERN_split.
  rewrite without_space_stripped_parts.
  apply (sentence_split_keeps body false false []).
Qed.

Lemma split_sentences_nonempty (body : str) :
  Str.strip body <> [] -> _split_sentences body <> [].
Proof.
  intros Hne E. pose proof (split_sentences_keeps body) as H.
  rewrite E in H. cbn in H. symmetry in H.
  apply without_space_nil in H. exact (Hne H).
Qed.

(** X6.  Splitting into sentences removes whitespace only: the sentences,
    read one after the other, have the characters of the text that are not
    whitespace, in the same order; every sentence is trimmed and not empty;
    and a text that is not blank has at least one sentence. *)
Theorem sentences_keep_text (body : str) :
  without_space (concat (_split_sentences body)) = without_space body
  /\ Forall trimmed (_split_sentences body)
  /\ (Str.strip body <> [] -> _split_sentences body <> []).
Proof.
  split; [apply split_sentences_keeps|]. split.
  - apply Forall_forall. intros s Hs.
    apply (sentences_trimmed body), list_elem_of_In, Hs.
  - apply split_sentences_nonempty.
Qed.

(** ** The chunker: nothing lost, nothing empty *)

Section JoinFacts.

Lemma join_snoc sep l x :
  l <> [] -> Str.join sep (l ++ [x]) = Str.join sep l ++ sep ++ x.
Proof.
  induction l as [|a l IH]; [congruence|]. intros _.
  destruct l as [|b l]; [reflexivity|].
  change ((a :: b :: l) ++ [x]) with (a :: (b :: l) ++ [x]).
  rewrite (join_cons sep a ((b :: l) ++ [x])) by discriminate.
  rewrite IH by discriminate.
  rewrite (join_cons sep a (b :: l)) by discriminate.
  rewrite <- !app_assoc. reflexivity.
Qed.

Lemma join_snoc_app sep l x y :
  Str.join sep (l ++ [x ++ y]) = Str.join sep (l ++ [x]) ++ y.
Proof.
  destruct l as [|a l]; [reflexivity|].
  rewrite !join_snoc by discriminate. rewrite <- !app_assoc. reflexivity.
Qed.

End JoinFacts.

Section Lossless.

Variable cs : Z.

(** The chunks and the buffer of the stated algorithm, joined by blank
    lines, are the paragraphs read so far joined by blank lines. *)
Lemma spec_paragraphs_join ps : forall chunks buffer done,
  Forall (fun p => p <> [] /\ len p <= cs) ps ->
  Str.join (py "

") (spec_flush chunks buffer) = Str.join (py "

") done ->
  (buffer = [] -> chunks = [] /\ done = []) ->
  (buffer <> [] -> done <> []) ->
  Str.join (py "

") (let '(chunks', buffer') :=
            fold_left (spec_paragraph cs) ps (chunks, buffer) in
          spec_flush chunks' buffer')
  = Str.join (py "

") (done ++ ps).
Proof.
  induction ps as [|p ps IH]; intros chunks buffer done Hps Hj He Hn.
  - cbn. rewrite app_nil_r. exact Hj.
  - inversion Hps as [|? ? [Hp Hfit] Hrest]; subst. cbn [fold_left].
    assert (Hpn : Str.nonempty p = true) by (apply nonempty_true, Hp).
    unfold spec_paragraph at 2.
    replace (len p >? cs) with false
      by (symmetry; rewrite Z.gtb_ltb, Z.ltb_ge; exact Hfit).
    unfold spec_pack.
    replace (done ++ p :: ps) with ((done ++ [p]) ++ ps)
      by (rewrite <- app_assoc; reflexivity).
    destruct (Str.nonempty buffer) eqn:Hb.
    + apply nonempty_true in Hb as Hb'. specialize (Hn Hb').
      unfold spec_flush in Hj. rewrite Hb in Hj.
      destruct (len (buffer ++ py "

" ++ p) >? cs).
      * apply IH; [exact Hrest| |intros E; contradiction|
                   intros _ E; apply app_eq_nil in E; destruct E; discriminate].
        unfold spec_flush. rewrite Hpn.
        rewrite join_snoc by (intros E; apply app_eq_nil in E;
                              destruct E; discriminate).
        rewrite Hj, join_snoc by exact Hn. reflexivity.
      * apply IH; [exact Hrest| | |
                   intros _ E; apply app_eq_nil in E; destruct E; discriminate].
        -- unfold spec_flush.
           replace (Str.nonempty (buffer ++ py "

" ++ p)) with true
             by (symmetry; apply nonempty_true; intros E;
                 apply app_eq_nil in E; destruct E; contradiction).
           rewrite join_snoc_app, Hj, join_snoc by exact Hn.
           reflexivity.
        -- intros E. apply app_eq_nil in E. destruct E; contradiction.
    + apply nonempty_false in Hb. destruct (He Hb) as [-> ->]. subst buffer.
      apply IH; [exact Hrest| |intros E; contradiction|discriminate].
      unfold spec_flush. rewrite Hpn. reflexivity.
Qed.

Lemma paragraphs_nonempty body :
  Forall (fun p => p <> []) (paragraphs body).
Proof.
  unfold paragraphs. apply Forall_forall. intros p Hp.
  apply list_elem_of_In, filter_In in Hp. apply nonempty_true, Hp.
Qed.

End Lossless.

(** X7.  In a document longer than [chunk_size] with no paragraph longer
    than [chunk_size], chunking loses and repeats nothing: the chunks joined
    by blank lines are the paragraphs of the document joined by blank
    lines, and every chunk has at most [chunk_size] characters. *)
Theorem chunks_lose_nothing (self : VaultIndexer) (doc : ParsedDocument) :
  len (content doc) > chunk_size self ->
  (forall p, In p (paragraphs (content doc)) -> len p <= chunk_size self) ->
  Str.join (py "

") (chunk_document self doc)
  = Str.join (py "

") (paragraphs (content doc))
  /\ Forall (fun c => len c <= chunk_size self) (chunk_document self doc).
Proof.
  intros Hlong Hfit.
  assert (Hsame : chunk_document self doc
                  = chunk_as_specified (chunk_size self) (content doc)).
  { rewrite <- (chunker_agrees_without_long_paragraph (chunk_size self) doc Hfit).
    reflexivity. }
  split.
  - rewrite Hsame. unfold chunk_as_specified.
    destruct (len (content doc) <=? chunk_size self) eqn:E; [zcompare; lia|].
    apply (spec_paragraphs_join (chunk_size self) (paragraphs (content doc))
             [] [] []); [|reflexivity|auto|congruence].
    apply Forall_forall. intros p Hp. split.
    + pose proof (paragraphs_nonempty (content doc)) as Hne.
      rewrite Forall_forall in Hne. apply Hne, Hp.
    + apply Hfit, list_elem_of_In, Hp.
  - apply Forall_forall. intros c Hc. apply list_elem_of_In in Hc.
    unfold chunk_document in Hc.
    destruct (len (content doc) <=? chunk_size self) eqn:E; [zcompare; lia|].
    destruct (long_document_chunks_fit _ _ _ Hc)
      as [Hle|(para0 & Hin & Hgt & Hs & _)]; [exact Hle|].
    exfalso.
    assert (Hne : Str.strip para0 <> []).
    { intros E0. rewrite E0 in Hs. cbn in Hs. exact Hs. }
    assert (Hp : In (Str.strip para0) (paragraphs (content doc))).
    { unfold paragraphs. apply filter_In. split.
      - apply in_map, Hin.
      - apply nonempty_true, Hne. }
    specialize (Hfit _ Hp). lia.
Qed.

Lemma chunks_lose_nothing_witness :
  len (content (note three_paragraphs)) > chunk_size small_indexer
  /\ (forall p, In p (paragraphs (content (note three_paragraphs))) ->
                len p <= chunk_size small_indexer)
  /\ Str.join (py "

") (chunk_document small_indexer (note three_paragraphs))
     = Str.join (py "

") (paragraphs (content (note three_paragraphs))).
Proof.
  assert (H : forall p, In p (paragraphs (content (note three_paragraphs))) ->
                        len p <= chunk_size small_indexer).
  { intros p [<-|[<-|[<-|[]]]]; vm_compute; discriminate. }
  split; [reflexivity|]. split; [exact H|].
  apply (chunks_lose_nothing small_indexer (note three_paragraphs));
    [reflexivity|exact H].
Defined.

Section BlankDocuments.

Lemma split_blank_keeps n : forall s acc,
  (length s <= n)%nat ->
  without_space (concat (Str.split_blank_from acc s))
  = without_space (rev acc ++ s).
Proof.
  induction n as [|n IH]; intros s acc Hlen.
  - destruct s; [reflexivity|cbn in Hlen; lia].
  - destruct s as [|c r]; [reflexivity|].
    cbn [Str.split_blank_from]. destruct r as [|d r'].
    + cbn [Str.split_blank_from concat rev]. rewrite app_nil_r. reflexivity.
    + cbn [length] in Hlen.
      destruct (Ascii.eqb c "010" && Ascii.eqb d "010") eqn:E.
      * apply andb_prop in E. destruct E as [Ec Ed].
        apply Ascii.eqb_eq in Ec, Ed. subst c d.
        cbn [concat]. rewrite !without_space_app, IH by lia. reflexivity.
      * rewrite IH by (cbn [length]; lia).
        cbn [rev]. rewrite <- app_assoc. reflexivity.
Qed.

Lemma without_space_concat_nil l :
  without_space (concat l) = [] <-> Forall (fun x => Str.strip x = []) l.
Proof.
  induction l as [|x l IH]; cbn [concat].
  - split; [constructor|reflexivity].
  - rewrite without_space_app. split.
    + intros H. apply app_eq_nil in H. destruct H as [Hx Hl].
      constructor; [apply without_space_nil, Hx|apply IH, Hl].
    + intros H. inversion H as [|? ? Hx Hl]; subst.
      apply without_space_nil in Hx. apply IH in Hl. rewrite Hx, Hl.
      reflexivity.
Qed.

Lemma blank_text_parts body :
  Str.strip body = [] <->
  Forall (fun x => Str.strip x = []) (Str.split_blank body).
Proof.
  rewrite <- without_space_concat_nil, <- without_space_nil.
  unfold Str.split_blank.
  rewrite (split_blank_keeps (length body) body [] (le_n _)). reflexivity.
Qed.

Lemma pieces_of_blank cs para0 :
  pieces_of_paragraph cs para0 = [] <-> Str.strip para0 = [].
Proof.
  unfold pieces_of_paragraph. split.
  - destruct (Str.nonempty (Str.strip para0)) eqn:E; cbn [negb];
      [|intros _; apply nonempty_false, E].
    apply nonempty_true in E.
    destruct (len (Str.strip para0) >? cs); [|discriminate].
    intros H. apply map_eq_nil in H. exfalso.
    apply (split_sentences_nonempty (Str.strip para0)); [|exact H].
    rewrite strip_idempotent. exact E.
  - intros ->. reflexivity.
Qed.

Lemma pieces_of_blank_text cs body :
  pieces cs body = [] <-> Str.strip body = [].
Proof.
  rewrite blank_text_parts. unfold pieces.
  induction (Str.split_blank body) as [|x l IH]; cbn [map concat].
  - split; [constructor|reflexivity].
  - split.
    + intros H. apply app_eq_nil in H. destruct H as [Hx Hl].
      constructor; [apply (pieces_of_blank cs), Hx|apply IH, Hl].
    + intros H. inversion H as [|? ? Hx Hl]; subst.
      apply (pieces_of_blank cs) in Hx. apply IH in Hl. rewrite Hx, Hl.
      reflexivity.
Qed.

End BlankDocuments.

(** X8.  [chunk_document] returns no chunk at all exactly when the content
    is blank and longer than [chunk_size]; so the document returned by
    [parse_markdown], whose content is trimmed, always has at least one
    chunk when [chunk_size] is not negative. *)
Theorem no_chunks_only_for_blank_text (self : VaultIndexer)
        (doc : ParsedDocument) :
  (chunk_document self doc = [] <->
   len (content doc) > chunk_size self /\ Str.strip (content doc) = [])
  /\ (forall safe_load body p,
        parse_markdown safe_load body p = Ok doc ->
        0 <= chunk_size self ->
        chunk_document self doc <> []).
Proof.
  assert (Hiff : chunk_document self doc = [] <->
                 len (content doc) > chunk_size self
                 /\ Str.strip (content doc) = []).
  { destruct (long_document_runs (chunk_size self) (content doc))
      as (ivs & _ & Hcov & Hruns).
    unfold chunk_document.
    destruct (len (content doc) <=? chunk_size self) eqn:E; zcompare.
    - split; [discriminate|intros [H _]; lia].
    - rewrite Hruns. destruct Hcov as (Hf & _ & _ & _ & Hnil).
      rewrite <- (pieces_of_blank_text (chunk_size self)). split.
      + intros H. apply map_eq_nil in H. split; [lia|].
        apply length_zero_iff_nil, Hnil, H.
      + intros [_ H]. rewrite H in Hf. cbn [length] in Hf.
        destruct ivs as [|iv ivs]; [reflexivity|].
        inversion Hf; subst. lia. }
  split; [exact Hiff|].
  intros safe_load body p Hparse Hcs Hnone.
  apply Hiff in Hnone. destruct Hnone as [Hlong Hblank].
  destruct (parse_markdown_inv safe_load body p doc Hparse)
    as (b & _ & _ & Hc & _).
  rewrite Hc, strip_idempotent in Hblank. rewrite Hc, Hblank in Hlong.
  unfold len in Hlong. cbn [length] in Hlong. lia.
Qed.

(** ** Keywords *)

Section KeywordFacts.

Lemma to_lower_not_upper c : Str.is_upper (Str.to_lower c) = false.
Proof. destruct c as [[] [] [] [] [] [] [] []]; reflexivity. Qed.

Lemma letter_cases c :
  is_letter c = true -> Str.is_upper c = false -> Str.is_lower c = true.
Proof.
  unfold is_letter. intros H Hu. rewrite Hu, orb_false_r in H. exact H.
Qed.

(** The words found are runs of at least three letters of the text. *)
Lemma findall_words (P : ascii -> Prop) s : forall run w,
  Forall P s ->
  (forall acc, run = Some acc -> Forall P acc /\ Forall (fun c => is_letter c = true) acc) ->
  In w (WORD_PATTERN_findall_from run s) ->
  (3 <= length w)%nat /\ Forall P w /\ Forall (fun c => is_letter c = true) w.
Proof.
  assert (Hemit : forall run w,
            (forall acc, run = Some acc ->
               Forall P acc /\ Forall (fun c => is_letter c = true) acc) ->
            In w (emit_word run) ->
            (3 <= length w)%nat /\ Forall P w
            /\ Forall (fun c => is_letter c = true) w).
  { intros run w Hrun. unfold emit_word. destruct run as [acc|]; [|intros []].
    destruct (Nat.leb_spec 3 (length acc)); [|intros []].
    intros [<-|[]]. destruct (Hrun acc eq_refl) as [H1 H2].
    rewrite length_rev. split; [assumption|].
    split; apply Forall_rev; assumption. }
  induction s as [|c r IH]; intros run w Hs Hrun; cbn [WORD_PATTERN_findall_from].
  - apply Hemit, Hrun.
  - inversion Hs as [|? ? Hc Hr]; subst.
    destruct (is_letter c) eqn:El.
    + apply IH; [exact Hr|]. intros acc E.
      destruct run as [acc0|]; [|discriminate]. injection E as <-.
      destruct (Hrun acc0 eq_refl). split; constructor; assumption.
    + destruct (is_word_char c).
      * apply IH; [exact Hr|]. intros acc E. discriminate.
      * intros Hin. apply in_app_or in Hin. destruct Hin as [Hin|Hin].
        -- apply (Hemit run w Hrun Hin).
        -- apply (IH (Some []) w Hr); [|exact Hin].
           intros acc [= <-]. split; constructor.
Qed.

Lemma words_of_shape doc w :
  In w (words_of doc) ->
  3 <= len w /\ Forall (fun c => Str.is_lower c = true) w.
Proof.
  intros H. unfold words_of, WORD_PATTERN_findall in H.
  destruct (findall_words (fun c => Str.is_upper c = false)
              (lower (content doc)) (Some []) w) as (Hlen & Hu & Hl);
    [| |exact H|].
  - unfold lower. apply Forall_forall. intros c Hc.
    apply list_elem_of_In, in_map_iff in Hc. destruct Hc as (c0 & <- & _).
    apply to_lower_not_upper.
  - intros acc [= <-]. split; constructor.
  - split; [unfold len; lia|].
    rewrite Forall_forall in *. intros c Hc.
    apply letter_cases; [apply Hl, Hc|apply Hu, Hc].
Qed.

Lemma freq_get_count_eq w freq :
  freq_get w (count_word w freq) = Some (default 0 (freq_get w freq) + 1).
Proof.
  induction freq as [|[w' n] r IH]; cbn.
  - rewrite str_eqb_refl. reflexivity.
  - destruct (Str.eqb w' w) eqn:E; cbn; rewrite E; [reflexivity|exact IH].
Qed.

Lemma freq_get_count_ne w w' freq :
  w' <> w -> freq_get w' (count_word w freq) = freq_get w' freq.
Proof.
  intros Hne. induction freq as [|[w0 n] r IH]; cbn.
  - rewrite (proj2 (str_eqb_false w w')); [reflexivity|congruence].
  - destruct (Str.eqb w0 w) eqn:E; cbn.
    + apply str_eqb_true in E. subst w0.
      rewrite (proj2 (str_eqb_false w w')) by congruence. reflexivity.
    + destruct (Str.eqb w0 w'); [reflexivity|exact IH].
Qed.

Lemma freq_get_none w freq :
  freq_get w freq = None <-> ~ In w (map fst freq).
Proof.
  induction freq as [|[w' n] r IH]; cbn; [tauto|].
  destruct (Str.eqb w' w) eqn:E.
  - apply str_eqb_true in E. split; [discriminate|tauto].
  - apply str_eqb_false in E. rewrite IH. tauto.
Qed.

Lemma count_word_keys w freq :
  map fst (count_word w freq)
  = match freq_get w freq with
    | Some _ => map fst freq
    | None => map fst freq ++ [w]
    end.
Proof.
  induction freq as [|[w' n] r IH]; cbn; [reflexivity|].
  destruct (Str.eqb w' w) eqn:E; cbn; [reflexivity|].
  rewrite IH. destruct (freq_get w r); reflexivity.
Qed.

Lemma count_word_nodup w freq :
  List.NoDup (map fst freq) -> List.NoDup (map fst (count_word w freq)).
Proof.
  intros H. rewrite count_word_keys.
  destruct (freq_get w freq) eqn:E; [exact H|].
  apply freq_get_none in E.
  apply NoDup_ListNoDup, NoDup_app. apply NoDup_ListNoDup in H.
  split; [exact H|]. split.
  - intros x Hx Hw. apply list_elem_of_In in Hx.
    apply list_elem_of_singleton in Hw. subst x. exact (E Hx).
  - apply NoDup_singleton.
Qed.

Lemma freq_get_in w n freq :
  List.NoDup (map fst freq) -> In (w, n) freq -> freq_get w freq = Some n.
Proof.
  induction freq as [|[w' n'] r IH]; cbn; [tauto|].
  intros Hnd Hin. inversion Hnd as [|? ? Hnot Hr]; subst.
  destruct Hin as [[= -> ->]|Hin].
  - rewrite str_eqb_refl. reflexivity.
  - destruct (Str.eqb w' w) eqn:E; [|apply IH; assumption].
    apply str_eqb_true in E. subst w'. exfalso. apply Hnot.
    apply in_map_iff. exists (w, n). auto.
Qed.

Lemma freq_get_some_in w n freq : freq_get w freq = Some n -> In (w, n) freq.
Proof.
  induction freq as [|[w' n'] r IH]; cbn; [discriminate|].
  destruct (Str.eqb w' w) eqn:E.
  - apply str_eqb_true in E. subst w'. intros [= ->]. left. reflexivity.
  - intros H. right. apply IH, H.
Qed.

Lemma occurrences_snoc w seen t :
  occurrences w (seen ++ [t])
  = occurrences w seen + (if Str.eqb w t then 1 else 0).
Proof.
  unfold occurrences. rewrite List.filter_app, len_app. cbn [List.filter].
  destruct (Str.eqb w t); reflexivity.
Qed.

Lemma occurrences_nonneg w seen : 0 <= occurrences w seen.
Proof. apply len_nonneg. Qed.

Lemma occurrences_pos w seen : occurrences w seen <> 0 -> In w seen.
Proof.
  unfold occurrences. induction seen as [|t seen IH]; cbn [List.filter].
  - intros H. exfalso. apply H. reflexivity.
  - destruct (Str.eqb w t) eqn:E.
    + apply str_eqb_true in E. subst t. intros _. left. reflexivity.
    + intros H. right. apply IH, H.
Qed.

Lemma occurrences_in w seen : In w seen -> 0 < occurrences w seen.
Proof.
  unfold occurrences. induction seen as [|t seen IH]; cbn [List.filter In];
    [tauto|].
  intros [->|H].
  - rewrite str_eqb_refl. unfold len. cbn [length]. lia.
  - specialize (IH H). destruct (Str.eqb w t); [|exact IH].
    unfold len in *. cbn [length]. lia.
Qed.

Lemma word_frequencies_counted words : forall seen freq,
  counted seen freq ->
  counted (seen ++ words)
          (fold_left (fun freq w =>
                        if is_stop_word w then freq else count_word w freq)
                     words freq).
Proof.
  induction words as [|t words IH]; intros seen freq H; cbn [fold_left].
  - rewrite app_nil_r. exact H.
  - replace (seen ++ t :: words) with ((seen ++ [t]) ++ words)
      by (rewrite <- app_assoc; reflexivity).
    apply IH. destruct H as (Hnd & Hlen & Hget).
    destruct (is_stop_word t) eqn:Et.
    + split; [exact Hnd|]. split; [rewrite length_app; cbn; lia|].
      intros w. rewrite Hget, occurrences_snoc.
      destruct (is_stop_word w) eqn:Ew; [reflexivity|].
      destruct (Str.eqb w t) eqn:E; [|rewrite Z.add_0_r; reflexivity].
      apply str_eqb_true in E. congruence.
    + split; [apply count_word_nodup, Hnd|]. split.
      * pose proof (f_equal (@length str) (count_word_keys t freq)) as Hk.
        rewrite length_map in Hk. rewrite Hk, length_app.
        destruct (freq_get t freq); rewrite ?length_app, length_map;
          cbn [length]; lia.
      * intros w. rewrite occurrences_snoc.
        destruct (Str.eqb w t) eqn:E.
        -- apply str_eqb_true in E. subst w.
           rewrite freq_get_count_eq, Hget, Et.
           pose proof (occurrences_nonneg t seen).
           destruct (occurrences t seen =? 0) eqn:E0; cbn [default].
           ++ apply Z.eqb_eq in E0. rewrite E0. reflexivity.
           ++ destruct (occurrences t seen + 1 =? 0) eqn:E1;
                [apply Z.eqb_eq in E1; lia|reflexivity].
        -- apply str_eqb_false in E.
           rewrite freq_get_count_ne by exact E.
           rewrite Hget, Z.add_0_r. reflexivity.
Qed.

Lemma word_frequencies_table words : counted words (word_frequencies words).
Proof.
  apply (word_frequencies_counted words [] []).
  split; [constructor|]. split; [reflexivity|].
  intros w. destruct (is_stop_word w); reflexivity.
Qed.

Lemma insert_by_count_perm x l : Permutation (insert_by_count x l) (x :: l).
Proof.
  induction l as [|y r IH]; cbn; [reflexivity|].
  destruct (y.2 >? x.2); [|reflexivity].
  rewrite IH. apply perm_swap.
Qed.

Lemma sorted_by_count_perm l : Permutation (sorted_by_count l) l.
Proof.
  induction l as [|x l IH]; cbn; [reflexivity|].
  rewrite insert_by_count_perm, IH. reflexivity.
Qed.

Lemma insert_by_count_descending x l :
  descending l -> descending (insert_by_count x l).
Proof.
  induction l as [|y r IH]; cbn [insert_by_count descending].
  - intros _. split; [constructor|exact I].
  - intros [Hy Hr]. destruct (y.2 >? x.2) eqn:E.
    + cbn [descending]. split; [|apply IH, Hr].
      apply Forall_forall. intros z Hz.
      apply list_elem_of_In in Hz.
      apply (Permutation_in _ (insert_by_count_perm x r)) in Hz.
      destruct Hz as [<-|Hz]; [zcompare; lia|].
      rewrite Forall_forall in Hy. apply Hy, list_elem_of_In, Hz.
    + cbn [descending]. split; [|split; assumption].
      constructor; [zcompare; lia|].
      eapply Forall_impl; [exact Hy|]. cbn. intros z Hz. zcompare. lia.
Qed.

Lemma sorted_by_count_descending l : descending (sorted_by_count l).
Proof.
  induction l as [|x l IH]; cbn; [exact I|].
  apply insert_by_count_descending, IH.
Qed.

Lemma descending_lookup l : forall i j x y,
  descending l -> (i < j)%nat ->
  l !! i = Some x -> l !! j = Some y -> y.2 <= x.2.
Proof.
  induction l as [|a l IH]; intros i j x y Hd Hij Hi Hj; [discriminate|].
  destruct Hd as [Ha Hl]. destruct j as [|j]; [lia|]. cbn in Hj.
  destruct i as [|i].
  - cbn in Hi. injection Hi as <-. rewrite Forall_forall in Ha.
    apply Ha. apply list_elem_of_lookup. eauto.
  - cbn in Hi. apply (IH i j x y Hl); [lia|assumption|assumption].
Qed.

Lemma slice_to_take {A} (k : Z) (l : list A) :
  exists m, slice_to k l = take m l /\ (0 <= k -> m = Z.to_nat k).
Proof.
  unfold slice_to. destruct (0 <=? k) eqn:E; zcompare.
  - exists (Z.to_nat k). auto.
  - exists (length l - Z.to_nat (- k))%nat. split; [reflexivity|lia].
Qed.

End KeywordFacts.

Section KeywordOrder.

Lemma lookup_map {A B} (f : A -> B) (l : list A) : forall i,
  map f l !! i = option_map f (l !! i).
Proof.
  induction l as [|a l IH]; intros [|i]; cbn; try reflexivity. apply IH.
Qed.

Lemma lookup_take_some {A} (l : list A) : forall m i x,
  take m l !! i = Some x -> l !! i = Some x.
Proof.
  induction l as [|a l IH]; intros [|m] [|i] x; cbn; try discriminate.
  - intros H. exact H.
  - apply IH.
Qed.

Lemma lookup_take_in {A} (l : list A) : forall m i,
  (i < length (take m l))%nat -> take m l !! i = l !! i.
Proof.
  induction l as [|a l IH]; intros [|m] [|i]; cbn; try lia; try reflexivity.
  intros H. apply IH. lia.
Qed.

Lemma in_take {A} (l : list A) m x : In x (take m l) -> In x l.
Proof.
  intros H. rewrite <- (take_drop m l). apply in_or_app. left. exact H.
Qed.

(** The sorted table of a document. *)
Lemma sorted_table_entry doc w n :
  In (w, n) (sorted_by_count (word_frequencies (words_of doc))) ->
  is_stop_word w = false
  /\ In w (words_of doc)
  /\ n = occurrences w (words_of doc).
Proof.
  intros H.
  apply (Permutation_in _ (sorted_by_count_perm _)) in H.
  destruct (word_frequencies_table (words_of doc)) as (Hnd & _ & Hget).
  apply (freq_get_in _ _ _ Hnd) in H. rewrite Hget in H.
  destruct (is_stop_word w); [discriminate|].
  destruct (occurrences w (words_of doc) =? 0) eqn:E; [discriminate|].
  injection H as <-. split; [reflexivity|]. split; [|reflexivity].
  apply occurrences_pos. apply Z.eqb_neq, E.
Qed.

Lemma counted_word_in_table doc w :
  In w (words_of doc) -> is_stop_word w = false ->
  In (w, occurrences w (words_of doc))
     (sorted_by_count (word_frequencies (words_of doc))).
Proof.
  intros Hin Hstop.
  apply (Permutation_in _ (Permutation_sym (sorted_by_count_perm _))).
  destruct (word_frequencies_table (words_of doc)) as (_ & _ & Hget).
  apply freq_get_some_in. rewrite Hget, Hstop.
  pose proof (occurrences_in _ _ Hin).
  destruct (occurrences w (words_of doc) =? 0) eqn:E; [|reflexivity].
  apply Z.eqb_eq in E. lia.
Qed.

Lemma keywords_unfold doc top_k :
  exists m,
    extract_keywords doc top_k
    = map fst (take m (sorted_by_count (word_frequencies (words_of doc))))
    /\ (0 <= top_k -> m = Z.to_nat top_k).
Proof.
  destruct (slice_to_take top_k
              (sorted_by_count (word_frequencies (words_of doc))))
    as (m & Hm & Hk).
  exists m. split; [|exact Hk].
  unfold extract_keywords. fold (words_of doc). rewrite Hm. reflexivity.
Qed.

End KeywordOrder.

(** X9.  Every keyword is a word of the lower-cased content: three lower-case
    letters or more, and never a stop word. *)
Theorem keywords_are_content_words (doc : ParsedDocument) (top_k : Z)
        (w : str) :
  In w (extract_keywords doc top_k) ->
  In w (WORD_PATTERN_findall (lower (content doc)))
  /\ is_stop_word w = false
  /\ 3 <= len w
  /\ Forall (fun c => Str.is_lower c = true) w.
Proof.
  destruct (keywords_unfold doc top_k) as (m & -> & _).
  intros H. apply in_map_iff in H. destruct H as ([w' n] & <- & Hin).
  apply in_take in Hin. apply sorted_table_entry in Hin.
  destruct Hin as (Hstop & Hw & _). cbn [fst].
  split; [exact Hw|]. split; [exact Hstop|]. apply (words_of_shape doc), Hw.
Qed.

Lemma keywords_are_content_words_witness :
  In (py "quick") (extract_keywords fox_note 3)
  /\ is_stop_word (py "quick") = false
  /\ 3 <= len (py "quick").
Proof.
  assert (H : In (py "quick") (extract_keywords fox_note 3))
    by (vm_compute; tauto).
  split; [exact H|].
  destruct (keywords_are_content_words fox_note 3 (py "quick") H)
    as (_ & H1 & H2 & _).
  split; assumption.
Defined.

(** X10.  The keywords are all different and, for [top_k] not negative,
    there are at most [top_k] of them; when [top_k] is at least the number
    of words of the content, every word that is not a stop word is a
    keyword. *)
Theorem keywords_distinct_and_bounded (doc : ParsedDocument) (top_k : Z) :
  List.NoDup (extract_keywords doc top_k)
  /\ (0 <= top_k -> len (extract_keywords doc top_k) <= top_k)
  /\ (len (WORD_PATTERN_findall (lower (content doc))) <= top_k ->
      forall w, In w (WORD_PATTERN_findall (lower (content doc))) ->
                is_stop_word w = false ->
                In w (extract_keywords doc top_k)).
Proof.
  destruct (keywords_unfold doc top_k) as (m & -> & Hm).
  fold (words_of doc).
  set (sorted := sorted_by_count (word_frequencies (words_of doc))).
  destruct (word_frequencies_table (words_of doc)) as (Hnd & Hlen & _).
  split; [|split].
  - rewrite <- firstn_map.
    assert (Hs : List.NoDup (map fst sorted)).
    { eapply Permutation_NoDup; [|exact Hnd].
      apply Permutation_map, Permutation_sym, sorted_by_count_perm. }
    rewrite <- (take_drop m (map fst sorted)) in Hs.
    apply NoDup_app_remove_r in Hs. exact Hs.
  - intros Hk. unfold len. rewrite length_map, length_take.
    rewrite (Hm Hk). lia.
  - intros Hk w Hw Hstop.
    assert (H0 : 0 <= top_k) by (pose proof (len_nonneg (words_of doc)); lia).
    rewrite (Hm H0), take_ge.
    + apply in_map_iff. exists (w, occurrences w (words_of doc)).
      split; [reflexivity|]. apply counted_word_in_table; assumption.
    + unfold sorted.
      rewrite (Permutation_length (sorted_by_count_perm _)).
      unfold len in Hk. lia.
Qed.

(** X11.  The keywords come in the order of their number of occurrences in
    the content, most frequent first; and a word left out, when it is not a
    stop word, occurs no more often than any keyword. *)
Theorem keywords_by_frequency (doc : ParsedDocument) (top_k : Z) :
  let words := WORD_PATTERN_findall (lower (content doc)) in
  (forall i j a b,
     (i < j)%nat ->
     extract_keywords doc top_k !! i = Some a ->
     extract_keywords doc top_k !! j = Some b ->
     occurrences b words <= occurrences a words)
  /\ (forall a w,
        In a (extract_keywords doc top_k) ->
        In w words -> is_stop_word w = false ->
        ~ In w (extract_keywords doc top_k) ->
        occurrences w words <= occurrences a words).
Proof.
  intros words. destruct (keywords_unfold doc top_k) as (m & -> & _).
  fold (words_of doc) in words.
  set (sorted := sorted_by_count (word_frequencies (words_of doc))).
  pose proof (sorted_by_count_descending (word_frequencies (words_of doc)))
    as Hdesc. fold sorted in Hdesc.
  assert (Hentry : forall i a,
            map fst (take m sorted) !! i = Some a ->
            take m sorted !! i = Some (a, occurrences a words)).
  { intros i a Hi. rewrite lookup_map in Hi.
    destruct (take m sorted !! i) as [[a' n]|] eqn:E; [|discriminate].
    injection Hi as <-. cbn [fst]. f_equal. f_equal.
    apply lookup_take_some in E.
    assert (Hin : In (a', n) sorted)
      by (apply list_elem_of_In, list_elem_of_lookup; eauto).
    apply sorted_table_entry in Hin. apply Hin. }
  split.
  - intros i j a b Hij Hi Hj.
    apply Hentry, lookup_take_some in Hi.
    apply Hentry, lookup_take_some in Hj.
    apply (descending_lookup sorted i j _ _ Hdesc Hij Hi Hj).
  - intros a w Ha Hw Hstop Hout.
    apply list_elem_of_In, list_elem_of_lookup in Ha. destruct Ha as (i & Hi).
    apply Hentry in Hi.
    assert (Hilen : (i < length (take m sorted))%nat)
      by (apply lookup_lt_Some in Hi; exact Hi).
    apply lookup_take_some in Hi.
    pose proof (counted_word_in_table doc w Hw Hstop) as Hin.
    apply list_elem_of_In, list_elem_of_lookup in Hin.
    destruct Hin as (j & Hj). fold sorted in Hj.
    destruct (Nat.lt_ge_cases j (length (take m sorted))) as [Hlt|Hge].
    + exfalso. apply Hout. apply in_map_iff.
      exists (w, occurrences w (words_of doc)). split; [reflexivity|].
      apply list_elem_of_In, list_elem_of_lookup. exists j.
      rewrite lookup_take_in by exact Hlt. exact Hj.
    + assert (Hij : (i < j)%nat) by lia.
      exact (descending_lookup sorted i j _ _ Hdesc Hij Hi Hj).
Qed.

(** ** The search text *)

(** X12.  The text built for the embedding always ends with the content of
    the document, after a blank line when something precedes it; it is the
    content alone when the document has no title, category or tags; and
    building it fails only when the tags cannot be joined. *)
Theorem search_text_ends_with_content (str_of_value : pyval -> str)
        (doc : ParsedDocument) :
  (forall body,
     create_search_text str_of_value doc = Ok body ->
     exists head,
       body = head ++ content doc
       /\ (head = [] \/ exists h, head = h ++ py "

"))
  /\ (truthy (title doc) = false -> truthy (category doc) = false ->
      truthy (tags doc) = false ->
      create_search_text str_of_value doc = Ok (content doc))
  /\ (forall e,
        create_search_text str_of_value doc = Raise e <->
        truthy (tags doc) = true
        /\ join_values (py ", ") (tags doc) = Raise e).
Proof.
  unfold create_search_text, mbind, result_bind.
  set (parts := (if truthy (title doc) then _ else []) ++ _).
  assert (Hjoin : forall l,
            exists head,
              Str.join (py "

") (l ++ [content doc]) = head ++ content doc
              /\ (head = [] \/ exists h, head = h ++ py "

")).
  { intros l. destruct l as [|a l].
    - exists []. split; [reflexivity|left; reflexivity].
    - rewrite join_snoc by discriminate.
      exists (Str.join (py "

") (a :: l) ++ py "

"). split; [rewrite <- app_assoc; reflexivity|].
      right. eexists. reflexivity. }
  split; [|split].
  - intros body. destruct (truthy (tags doc)).
    + destruct (join_values (py ", ") (tags doc)); [|discriminate].
      intros [= <-]. apply Hjoin.
    + intros [= <-]. apply Hjoin.
  - intros Ht Hc Hg. subst parts. rewrite Ht, Hc, Hg. reflexivity.
  - intros e. destruct (truthy (tags doc)).
    + destruct (join_values (py ", ") (tags doc)) as [j|e0].
      * split; [discriminate|intros [_ H]; discriminate].
      * split; [intros [= ->]; auto|intros [_ [= ->]]; reflexivity].
    + split; [discriminate|intros [H _]; discriminate].
Qed.

(** ** The endpoints: what they write and what they leave *)

Section EndpointFacts.

Variable safe_load : str -> result pyval.
Variable md5_hexdigest : str -> str.
Variable vector : Type.
Variable encode : str -> result vector.
Variable utcnow : nat -> str.
Variable chroma_field : str -> pyval -> result (option pyval).

Local Abbreviation index_document' :=
  (index_document safe_load md5_hexdigest vector encode utcnow
     chroma_field).
Local Abbreviation sweep_file' :=
  (sweep_file safe_load md5_hexdigest vector encode utcnow
     chroma_field).
Local Abbreviation index_entire_vault' :=
  (index_entire_vault safe_load md5_hexdigest vector encode utcnow
     chroma_field).
Local Abbreviation delete_document' := (delete_document md5_hexdigest vector).
Local Abbreviation upsert_failure' :=
  (upsert_failure safe_load vector encode chroma_field).
Local Abbreviation file_succeeds' :=
  (file_succeeds safe_load vector encode chroma_field).

(** A successful [/index] with the entry it writes. *)
Lemma index_document_entry w request w1 r1 :
  index_document' w request = (w1, Response r1) ->
  exists coll doc emb md kept,
    collection (state w) = Some coll
    /\ parse_markdown safe_load (req_content request) (req_path request) = Ok doc
    /\ embedder_encode vector encode (state w) (content doc) = Ok emb
    /\ add_tags doc (build_metadata (req_path request) doc (utcnow (clock w))
                                    (default [] (req_metadata request)))
       = Ok md
    /\ stored_metadata chroma_field md = Ok kept
    /\ w1 = {| state := with_collection vector (state w)
                          (<[md5_hexdigest (req_path request) :=
                               {| embedding := emb;
                                  document := content doc;
                                  entry_metadata := kept |}]> coll)
                          (Some (utcnow (S (clock w))));
               clock := S (S (clock w)) |}
    /\ r1 = {| ir_success := true;
               ir_path := req_path request;
               ir_doc_id := md5_hexdigest (req_path request);
               ir_title := title doc |}.
Proof.
  unfold index_document.
  destruct (collection (state w)) as [coll|]; [|discriminate].
  destruct (indexer (state w)); [|discriminate].
  pose proof (parse_and_upsert_cases safe_load md5_hexdigest vector encode
                utcnow chroma_field (state w) coll (clock w)
                (req_path request) (req_content request)
                (default [] (req_metadata request))) as H.
  destruct (upsert_failure' (state w) (req_path request) (req_content request)
                            (default [] (req_metadata request))).
  - destruct H as (t' & ->). discriminate.
  - destruct H as (doc & emb & md & kept & Hp & He & Ha & Hk & ->).
    intros [= <- <-]. exists coll, doc, emb, md, kept. auto 10.
Qed.

(** The statements of the [try] of [/index] raise [e]: one of the parser,
    the embedder, the joining of the tags and the collection does. *)
Lemma index_failure_cause st coll t p body extra t' e :
  parse_and_upsert safe_load md5_hexdigest vector encode utcnow chroma_field
                   st coll t p body extra = (t', Raise e) ->
  parse_markdown safe_load body p = Raise e
  \/ exists doc,
       parse_markdown safe_load body p = Ok doc
       /\ (embedder_encode vector encode st (content doc) = Raise e
           \/ add_tags doc (build_metadata p doc (utcnow t) extra) = Raise e
           \/ exists md,
                add_tags doc (build_metadata p doc (utcnow t) extra) = Ok md
                /\ stored_metadata chroma_field md = Raise e).
Proof.
  unfold parse_and_upsert, mbind, result_bind.
  destruct (parse_markdown safe_load body p) as [doc|e0];
    [|intros [= _ <-]; left; reflexivity].
  destruct (embedder_encode vector encode st (content doc))
    as [emb|e0] eqn:He; [|intros [= _ <-]; right; exists doc; auto].
  cbv beta iota.
  destruct (add_tags doc (build_metadata p doc (utcnow t) extra))
    as [md|e0] eqn:Ha; [|intros [= _ <-]; right; exists doc; auto].
  destruct (stored_metadata chroma_field md) as [kept|e0] eqn:Hk;
    [discriminate|].
  intros [= _ <-]. right. exists doc. split; [reflexivity|].
  right. right. exists md. auto.
Qed.

(** X13.  A call of [/index] that fails changes nothing in the service: the
    collection, the models and the time of the last indexing stay as they
    were.  The answer is 503 when the collection or the indexer is missing,
    and otherwise 500 with the text of the exception raised in the [try]:
    by the parser, by the embedder, by the joining of the tags, or by the
    collection when it refuses a field of the metadata. *)
Theorem failed_index_changes_nothing w request w' code detail :
  index_document safe_load md5_hexdigest vector encode utcnow chroma_field
                 w request
  = (w', HTTPException code detail) ->
  let p := req_path request in
  let extra := default [] (req_metadata request) in
  state w' = state w
  /\ ((code = 503
       /\ (collection (state w) = None \/ indexer (state w) = None))
      \/ (code = 500
          /\ exists e,
               detail = exn_msg e
               /\ (parse_markdown safe_load (req_content request) p = Raise e
                   \/ exists doc,
                        parse_markdown safe_load (req_content request) p
                        = Ok doc
                        /\ (embedder_encode vector encode (state w)
                                            (content doc) = Raise e
                            \/ add_tags doc
                                 (build_metadata p doc (utcnow (clock w)) extra)
                               = Raise e
                            \/ exists md,
                                 add_tags doc
                                   (build_metadata p doc (utcnow (clock w))
                                                   extra) = Ok md
                                 /\ stored_metadata chroma_field md
                                    = Raise e)))).
Proof.
  cbv zeta. unfold index_document.
  destruct (collection (state w)) as [coll|] eqn:Hc;
    [|intros [= <- <- _]; split; [reflexivity|left; auto]].
  destruct (indexer (state w)) eqn:Hi;
    [|intros [= <- <- _]; split; [reflexivity|left; auto]].
  destruct (parse_and_upsert safe_load md5_hexdigest vector encode utcnow
              chroma_field (state w) coll (clock w) (req_path request)
              (req_content request) (default [] (req_metadata request)))
    as [t' [[coll' doc]|e]] eqn:Hrun; [discriminate|].
  intros [= <- <- <-]. split; [reflexivity|right]. split; [reflexivity|].
  exists e. split; [reflexivity|].
  exact (index_failure_cause (state w) coll (clock w) (req_path request)
           (req_content request) (default [] (req_metadata request)) t' e
           Hrun).
Qed.

(** X14.  A successful [/index] writes one entry and touches no other: the
    entry under the hash of the path holds the content of the parsed
    document, every other identifier keeps what it had, and the count grows
    by one at most. *)
Theorem index_writes_one_entry w request w1 r1 :
  index_document' w request = (w1, Response r1) ->
  exists coll coll1 doc e,
    collection (state w) = Some coll
    /\ collection (state w1) = Some coll1
    /\ parse_markdown safe_load (req_content request) (req_path request) = Ok doc
    /\ coll1 !! md5_hexdigest (req_path request) = Some e
    /\ document e = content doc
    /\ ir_title r1 = title doc
    /\ (forall k, k <> md5_hexdigest (req_path request) ->
                  coll1 !! k = coll !! k)
    /\ count w <= count w1 <= count w + 1.
Proof.
  intros H.
  destruct (index_document_entry _ _ _ _ H)
    as (coll & doc & emb & md & kept & Hc & Hp & _ & _ & _ & -> & ->).
  eexists coll, _, doc, _. split; [exact Hc|]. split; [reflexivity|].
  split; [exact Hp|]. split; [apply lookup_insert_eq|].
  split; [reflexivity|]. split; [reflexivity|]. split.
  - intros k Hk. apply lookup_insert_ne. congruence.
  - unfold count. cbn [state collection with_collection]. rewrite Hc.
    rewrite map_size_insert. destruct (coll !! _); cbn; lia.
Qed.

(** X15.  Deleting by path undoes the indexing of a new path: when the
    identifier was not in the collection, the collection after [/index] and
    the delete endpoint is the one before; and deleting a path that is not
    indexed leaves the collection as it is. *)
Theorem delete_undoes_index w request w1 r1 coll :
  index_document safe_load md5_hexdigest vector encode utcnow chroma_field
                 w request
  = (w1, Response r1) ->
  collection (state w) = Some coll ->
  coll !! md5_hexdigest (req_path request) = None ->
  (exists w2 r2,
     delete_document md5_hexdigest vector w1 (req_path request)
       = (w2, Response r2)
     /\ dr_doc_id r2 = ir_doc_id r1
     /\ collection (state w2) = Some coll)
  /\ (forall p,
        coll !! md5_hexdigest p = None ->
        collection (state (delete_document md5_hexdigest vector w p).1)
          = Some coll).
Proof.
  intros H Hc Hnew. split.
  - destruct (index_document_entry _ _ _ _ H)
      as (coll0 & doc & emb & md & kept & Hc0 & _ & _ & _ & _ & -> & ->).
    rewrite Hc in Hc0. injection Hc0 as <-.
    unfold delete_document. cbn [state collection with_collection].
    eexists _, _. split; [reflexivity|]. split; [reflexivity|].
    cbn [state collection with_collection fst]. f_equal.
    apply delete_insert_id, Hnew.
  - intros p Hp. unfold delete_document. rewrite Hc.
    cbn [fst state collection with_collection]. f_equal.
    apply delete_id, Hp.
Qed.

End EndpointFacts.

Section SweepFacts.

Variable safe_load : str -> result pyval.
Variable md5_hexdigest : str -> str.
Variable vector : Type.
Variable encode : str -> result vector.
Variable utcnow : nat -> str.
Variable chroma_field : str -> pyval -> result (option pyval).

Local Abbreviation index_document' :=
  (index_document safe_load md5_hexdigest vector encode utcnow
     chroma_field).
Local Abbreviation sweep_file' :=
  (sweep_file safe_load md5_hexdigest vector encode utcnow
     chroma_field).
Local Abbreviation index_entire_vault' :=
  (index_entire_vault safe_load md5_hexdigest vector encode utcnow
     chroma_field).
Local Abbreviation file_succeeds' :=
  (file_succeeds safe_load vector encode chroma_field).

(** One file of the sweep writes under its own identifier or not at all. *)
Lemma sweep_file_collection st s f :
  (file_succeeds' st f = false
   /\ sw_collection (sweep_file' st s f) = sw_collection s)
  \/ (file_succeeds' st f = true
      /\ exists e, sw_collection (sweep_file' st s f)
                   = <[md5_hexdigest (relative_path f) := e]> (sw_collection s)).
Proof.
  pose proof (sweep_file_cases safe_load md5_hexdigest vector encode utcnow
              chroma_field st s f) as H.
  unfold file_succeeds.
  destruct (file_failure safe_load vector encode chroma_field st f).
  - left. destruct H as (t & ->). auto.
  - right. destruct H as (body & doc & e & _ & _ & _ & ->).
    split; [reflexivity|]. exists e. reflexivity.
Qed.

Lemma sweep_fold_collection st fs : forall s,
  let s' := fold_left (sweep_file' st) fs s in
  (forall k, (forall f, In f fs -> md5_hexdigest (relative_path f) <> k) ->
             sw_collection s' !! k = sw_collection s !! k)
  /\ (forall k, is_Some (sw_collection s !! k) ->
                is_Some (sw_collection s' !! k))
  /\ (forall f, In f fs -> file_succeeds' st f = true ->
                is_Some (sw_collection s' !! md5_hexdigest (relative_path f))).
Proof.
  induction fs as [|f fs IH]; intros s; cbn [fold_left].
  - split; [reflexivity|]. split; [auto|]. intros f [].
  - destruct (IH (sweep_file' st s f)) as (Hother & Hkeep & Hdone).
    assert (Hstep : forall k, is_Some (sw_collection s !! k) ->
                      is_Some (sw_collection (sweep_file' st s f) !! k)).
    { intros k Hk.
      destruct (sweep_file_collection st s f) as [[_ ->]|[_ [e ->]]];
        [exact Hk|].
      rewrite lookup_insert. case_decide; [eauto|exact Hk]. }
    split; [|split].
    + intros k Hk. rewrite Hother by (intros g Hg; apply Hk; right; exact Hg).
      destruct (sweep_file_collection st s f) as [[_ ->]|[_ [e ->]]];
        [reflexivity|].
      apply lookup_insert_ne. apply Hk. left. reflexivity.
    + intros k Hk. apply Hkeep, Hstep, Hk.
    + intros g [<-|Hg] Hok; [|apply Hdone; assumption].
      apply Hkeep.
      destruct (sweep_file_collection st s f) as [[Hno _]|[_ [e ->]]];
        [congruence|].
      rewrite lookup_insert_eq. eauto.
Qed.

(** X16.  The sweep only adds and overwrites: an identifier that is not the
    hash of the relative path of a file of the vault keeps what it had, no
    entry disappears, and after the sweep every file that succeeded has an
    entry under the hash of its relative path. *)
Theorem sweep_keeps_other_entries w vault coll ix :
  collection (state w) = Some coll ->
  indexer (state w) = Some ix ->
  vault_exists vault = true ->
  exists coll',
    collection
      (state (index_entire_vault safe_load md5_hexdigest vector encode utcnow
                chroma_field w vault).1) = Some coll'
    /\ (forall k,
          (forall f, In f (rglob_md vault) ->
                     md5_hexdigest (relative_path f) <> k) ->
          coll' !! k = coll !! k)
    /\ (forall k, is_Some (coll !! k) -> is_Some (coll' !! k))
    /\ (forall f, In f (rglob_md vault) ->
                  file_succeeds' (state w) f = true ->
                  is_Some (coll' !! md5_hexdigest (relative_path f))).
Proof.
  intros Hc Hi Hv. unfold index_entire_vault. rewrite Hc, Hi, Hv.
  cbn [negb fst state collection with_collection].
  eexists. split; [reflexivity|].
  apply (sweep_fold_collection (state w) (rglob_md vault)
           {| sw_collection := coll; sw_clock := clock w;
              sw_indexed := 0; sw_errors := [] |}).
Qed.

Lemma dict_get_update_present k v extra : forall d,
  List.NoDup (map fst extra) -> dict_get k extra = Some v ->
  dict_get k (dict_update d extra) = Some v.
Proof.
  unfold dict_update.
  induction extra as [|[k' v'] r IH]; intros d Hnd; cbn; [discriminate|].
  inversion Hnd as [|? ? Hnot Hr]; subst.
  destruct (Str.eqb k' k) eqn:E.
  - apply str_eqb_true in E. subst k'. intros [= ->].
    change (fold_left _ r ?x) with (dict_update x r).
    rewrite dict_get_update_absent by (apply dict_get_absent, Hnot).
    apply dict_get_set_eq.
  - apply IH, Hr.
Qed.

(** X17.  The fields of the request's own metadata reach the collection
    with the values the caller gave, replacing a built field of the same
    name: for every such field other than [tags], what the entry keeps is
    what the collection makes of the caller's value, and a string under a
    key of the caller's is kept as given.  The [tags] field is the caller's
    only when the document has no tags; otherwise it is the joined tags of
    the document. *)
Theorem caller_fields_are_stored w request w1 r1 extra :
  index_document' w request = (w1, Response r1) ->
  req_metadata request = Some extra ->
  List.NoDup (map fst extra) ->
  exists coll1 e doc,
    collection (state w1) = Some coll1
    /\ coll1 !! ir_doc_id r1 = Some e
    /\ parse_markdown safe_load (req_content request) (req_path request) = Ok doc
    /\ (forall k v, dict_get k extra = Some v -> k <> py "tags" ->
                    store_field chroma_field k v
                    = Ok (dict_get k (entry_metadata e)))
    /\ (forall k s, dict_get k extra = Some (VStr s) -> k <> py "tags" ->
                    reserved_key k = false ->
                    dict_get k (entry_metadata e) = Some (VStr s))
    /\ (truthy (tags doc) = false ->
        forall v, dict_get (py "tags") extra = Some v ->
                  store_field chroma_field (py "tags") v
                  = Ok (dict_get (py "tags") (entry_metadata e)))
    /\ (truthy (tags doc) = true ->
        exists joined, join_tags (tags doc) = Ok joined
                       /\ dict_get (py "tags") (entry_metadata e)
                          = Some (VStr joined)).
Proof.
  intros H Hextra Hnd.
  destruct (index_document_entry safe_load md5_hexdigest vector encode utcnow
              chroma_field _ _ _ _ H)
    as (coll & doc & emb & md & kept & _ & Hp & _ & Ha & Hk & -> & ->).
  rewrite Hextra in Ha. cbn [default] in Ha.
  eexists _, _, doc. split; [reflexivity|].
  split; [apply lookup_insert_eq|]. split; [exact Hp|].
  cbn [entry_metadata].
  assert (Hmd : List.NoDup (map fst md)).
  { apply (add_tags_nodup doc _ _ Ha), build_metadata_nodup. }
  assert (Hkept : forall k v,
            dict_get k md = Some v ->
            store_field chroma_field k v = Ok (dict_get k kept)).
  { intros k v Hg. exact (stored_metadata_get chroma_field k v md kept
                            Hmd Hk Hg). }
  assert (Hbuilt : forall k v,
            dict_get k extra = Some v ->
            dict_get k (build_metadata (req_path request) doc
                                       (utcnow (clock w)) extra) = Some v).
  { intros k v Hg. apply dict_get_update_present; assumption. }
  unfold add_tags, mbind, result_bind in Ha.
  assert (Hother : forall k v,
            dict_get k extra = Some v -> k <> py "tags" ->
            dict_get k md = Some v).
  { intros k v Hg Hne. destruct (truthy (tags doc)).
    - destruct (join_tags (tags doc)) as [joined|]; [|discriminate].
      injection Ha as <-.
      rewrite dict_get_set_ne by (intros E; apply Hne; symmetry; exact E).
      apply Hbuilt, Hg.
    - injection Ha as <-. apply Hbuilt, Hg. }
  split; [intros k v Hg Hne; apply Hkept, Hother; assumption|].
  split.
  { intros k s0 Hg Hne Hr.
    apply (store_field_kept_str chroma_field k (VStr s0));
      [exact Hr|reflexivity|].
    apply Hkept, Hother; assumption. }
  destruct (truthy (tags doc)).
  - destruct (join_tags (tags doc)) as [joined|]; [|discriminate].
    injection Ha as <-. split; [discriminate|].
    intros _. exists joined. split; [reflexivity|].
    apply (store_field_kept_str chroma_field (py "tags") (VStr joined));
      [reflexivity|reflexivity|].
    apply Hkept, dict_get_set_eq.
  - injection Ha as <-. split; [|discriminate].
    intros _ v Hg. apply Hkept, Hbuilt, Hg.
Qed.

End SweepFacts.

(** ** Statistics and reset *)

Section StatisticsFacts.

Variable vector : Type.

Lemma count_category_total c cats :
  total_count (count_category c cats) = total_count cats + 1.
Proof.
  unfold total_count.
  induction cats as [|[c' n] r IH]; cbn; [reflexivity|].
  destruct (key_eqb c' c); cbn; [lia|rewrite IH; lia].
Qed.

Lemma count_category_positive c cats :
  Forall (fun cn => 0 < cn.2) cats ->
  Forall (fun cn => 0 < cn.2) (count_category c cats).
Proof.
  induction 1 as [|[c' n] r Hn Hr IH]; cbn.
  - constructor; [cbn; lia|constructor].
  - destruct (key_eqb c' c); constructor; cbn in *; try lia; assumption.
Qed.

Lemma count_categories_total mds : forall cats cats',
  count_categories mds cats = Ok cats' ->
  total_count cats' = total_count cats + len mds
  /\ (Forall (fun cn => 0 < cn.2) cats -> Forall (fun cn => 0 < cn.2) cats').
Proof.
  induction mds as [|md mds IH]; intros cats cats'; cbn [count_categories].
  - intros [= <-]. split; [unfold len; cbn; lia|auto].
  - destruct (hashable _); [|discriminate]. intros H.
    destruct (IH _ _ H) as [Ht Hp]. split.
    + rewrite Ht, count_category_total. unfold len. cbn [length]. lia.
    + intros Hc. apply Hp, count_category_positive, Hc.
Qed.

(** X18.  When [/stats] answers, the counts of its categories are positive
    and add up to the number of documents, which is the size of the
    collection and also the number of chunks it reports. *)
Theorem stats_counts_add_up (w : World vector) (configured_vault : str)
        (stats : IndexStats) :
  get_stats vector w configured_vault = Response stats ->
  total_count (categories stats) = total_documents stats
  /\ Forall (fun cn => 0 < cn.2) (categories stats)
  /\ total_documents stats = count w
  /\ total_chunks stats = total_documents stats.
Proof.
  unfold get_stats. destruct (collection (state w)) as [coll|] eqn:Hc;
    [|discriminate].
  destruct (count_categories _ []) as [cats|e] eqn:E; [|discriminate].
  intros [= <-]. cbn [categories total_documents total_chunks].
  destruct (count_categories_total _ _ _ E) as [Ht Hp].
  split; [|split; [apply Hp; constructor|split; reflexivity]].
  rewrite Ht. unfold count, len. rewrite Hc, length_map, length_map_to_list.
  reflexivity.
Qed.

End StatisticsFacts.

Section ResetFacts.

Variable safe_load : str -> result pyval.
Variable md5_hexdigest : str -> str.
Variable vector : Type.
Variable encode : str -> result vector.
Variable utcnow : nat -> str.
Variable chroma_field : str -> pyval -> result (option pyval).

Local Abbreviation index_document' :=
  (index_document safe_load md5_hexdigest vector encode utcnow
     chroma_field).

(** X19.  After a reset the collection is empty whatever it held: the count
    is zero, [/stats] reports no document and no category, the models are
    kept, and the next successful [/index] leaves exactly one entry. *)
Theorem reset_starts_over (w : World vector) (configured_vault : str) :
  let w0 := (reset_index vector true w).1 in
  count w0 = 0
  /\ get_stats vector w0 configured_vault
     = Response {| total_documents := 0;
                   total_chunks := 0;
                   categories := [];
                   stats_last_indexed := None;
                   vault_path := configured_vault |}
  /\ embedder (state w0) = embedder (state w)
  /\ indexer (state w0) = indexer (state w)
  /\ (forall request w1 r1,
        index_document' w0 request = (w1, Response r1) -> count w1 = 1).
Proof.
  cbn zeta. unfold reset_index. cbn [fst].
  split; [reflexivity|]. split.
  { unfold get_stats, count. cbn [state collection last_indexed].
    rewrite map_to_list_empty. reflexivity. }
  split; [reflexivity|]. split; [reflexivity|].
  intros request w1 r1 H.
  destruct (index_document_entry safe_load md5_hexdigest vector encode utcnow
              chroma_field _ _ _ _ H)
    as (coll & doc & emb & md & kept & Hc & _ & _ & _ & _ & -> & _).
  cbn in Hc. injection Hc as <-.
  unfold count. cbn [state collection with_collection].
  rewrite map_size_insert_None by apply lookup_empty.
  rewrite map_size_empty. reflexivity.
Qed.

(** X20.  A document without category, indexed with no [category] field in
    the request, counts under "uncategorized": after a reset and one such
    [/index], [/stats] reports one document and the single category
    "uncategorized" with count one. *)
Theorem uncategorized_in_stats (w : World vector) (configured_vault : str)
        request w1 r1 doc :
  index_document' (reset_index vector true w).1 request = (w1, Response r1) ->
  parse_markdown safe_load (req_content request) (req_path request) = Ok doc ->
  truthy (category doc) = false ->
  dict_get (py "category") (default [] (req_metadata request)) = None ->
  exists stats,
    get_stats vector w1 configured_vault = Response stats
    /\ total_documents stats = 1
    /\ categories stats = [(VStr (py "uncategorized"), 1)].
Proof.
  intros H Hp Hcat Hextra.
  destruct (index_document_entry safe_load md5_hexdigest vector encode utcnow
              chroma_field _ _ _ _ H)
    as (coll & doc' & emb & md & kept & Hc & Hp' & _ & Ha & Hk & -> & _).
  rewrite Hp in Hp'. injection Hp' as <-.
  cbn in Hc. injection Hc as <-.
  assert (Hmd : dict_get (py "category") kept
                = Some (VStr (py "uncategorized"))).
  { pose proof (kept_category chroma_field (req_path request) doc _ _ md kept
                  Hextra Ha Hk) as Hs.
    unfold py_or in Hs. rewrite Hcat in Hs.
    apply (store_field_kept_str chroma_field (py "category"));
      [reflexivity|reflexivity|exact Hs]. }
  unfold get_stats, count. cbn [state collection with_collection last_indexed].
  rewrite insert_empty, map_to_list_singleton. cbn [map snd entry_metadata].
  cbn [count_categories]. rewrite Hmd. cbn [default hashable count_category].
  eexists. split; [reflexivity|]. cbn [total_documents categories].
  rewrite map_size_singleton. split; reflexivity.
Qed.

End ResetFacts.

(** ** The further properties at sample inputs *)

Lemma yaml_error_keeps_text_witness :
  FRONTMATTER_PATTERN_match ruled_note = Some (py "hello", py "body")
  /\ broken_yaml_load (py "hello")
     = Raise (Exn YAMLError (py "mapping values are not allowed here"))
  /\ exists doc,
       parse_markdown broken_yaml_load ruled_note (py "a.md") = Ok doc
       /\ content doc = Str.strip ruled_note
       /\ metadata doc = [].
Proof.
  split; [reflexivity|]. split; [reflexivity|].
  destruct (yaml_error_keeps_text broken_yaml_load ruled_note (py "a.md")
              (py "hello") (py "body")
              (Exn YAMLError (py "mapping values are not allowed here"))
              eq_refl eq_refl eq_refl)
    as (doc & H1 & H2 & H3 & _).
  exists doc. auto.
Defined.

Lemma content_is_trimmed_witness :
  parse_markdown scalar_load (req_content top_request) (req_path top_request)
  = Ok top_doc
  /\ Str.strip (content top_doc) = content top_doc
  /\ len (content top_doc) <= len (req_content top_request).
Proof.
  assert (H : parse_markdown scalar_load (req_content top_request)
                             (req_path top_request) = Ok top_doc)
    by reflexivity.
  split; [exact H|].
  destruct (content_is_trimmed scalar_load _ _ _ H) as (H1 & _ & H3 & _).
  split; assumption.
Defined.

Lemma failed_index_changes_nothing_witness :
  index_document scalar_load path_digest (list Z) length_vector tick_stamp
                 plain_store ready_world nested_request
  = (refused_world, HTTPException 500 refusal_text)
  /\ state refused_world = state ready_world.
Proof.
  assert (H : index_document scalar_load path_digest (list Z) length_vector
                tick_stamp plain_store ready_world nested_request
              = (refused_world, HTTPException 500 refusal_text))
    by (vm_compute; reflexivity).
  split; [exact H|].
  exact (proj1 (failed_index_changes_nothing scalar_load path_digest (list Z)
                  length_vector tick_stamp plain_store ready_world
                  nested_request refused_world 500 refusal_text H)).
Defined.

Lemma index_writes_one_entry_witness :
  index_document scalar_load path_digest (list Z) length_vector tick_stamp plain_store
                 ready_world plain_request
  = (indexed_once, Response plain_answer)
  /\ count ready_world <= count indexed_once <= count ready_world + 1.
Proof.
  assert (H : index_document scalar_load path_digest (list Z) length_vector
                tick_stamp plain_store ready_world plain_request
              = (indexed_once, Response plain_answer))
    by (vm_compute; reflexivity).
  split; [exact H|].
  destruct (index_writes_one_entry scalar_load path_digest (list Z)
              length_vector tick_stamp plain_store ready_world plain_request
              indexed_once plain_answer H)
    as (coll & coll1 & doc & e & _ & _ & _ & _ & _ & _ & _ & Hn).
  exact Hn.
Defined.

Lemma delete_undoes_index_witness :
  index_document scalar_load path_digest (list Z) length_vector tick_stamp plain_store
                 ready_world plain_request
  = (indexed_once, Response plain_answer)
  /\ collection (state ready_world) = Some ∅
  /\ (∅ : gmap str (IndexEntry (list Z)))
       !! path_digest (req_path plain_request) = None
  /\ exists w2 r2,
       delete_document path_digest (list Z) indexed_once
                       (req_path plain_request) = (w2, Response r2)
       /\ dr_doc_id r2 = ir_doc_id plain_answer
       /\ collection (state w2) = Some ∅.
Proof.
  assert (H : index_document scalar_load path_digest (list Z) length_vector
                tick_stamp plain_store ready_world plain_request
              = (indexed_once, Response plain_answer))
    by (vm_compute; reflexivity).
  split; [exact H|]. split; [reflexivity|]. split; [reflexivity|].
  exact (proj1 (delete_undoes_index scalar_load path_digest (list Z)
                  length_vector tick_stamp plain_store ready_world plain_request
                  indexed_once plain_answer ∅ H eq_refl eq_refl)).
Defined.

Lemma sweep_keeps_other_entries_witness :
  collection (state ready_world) = Some ∅
  /\ indexer (state ready_world) = Some default_indexer
  /\ vault_exists small_vault = true
  /\ file_succeeds scalar_load (list Z) length_vector plain_store
                   (state ready_world) (readable (py "notes/b.md") (py "beta"))
     = true
  /\ exists coll',
       collection (state (index_entire_vault scalar_load path_digest (list Z)
                            length_vector tick_stamp plain_store ready_world
                            small_vault).1) = Some coll'
       /\ is_Some (coll' !! path_digest (py "notes/b.md"))
       /\ coll' !! py "elsewhere.md" = None.
Proof.
  split; [reflexivity|]. split; [reflexivity|]. split; [reflexivity|].
  split; [reflexivity|].
  destruct (sweep_keeps_other_entries scalar_load path_digest (list Z)
              length_vector tick_stamp plain_store ready_world small_vault ∅
              default_indexer eq_refl eq_refl eq_refl)
    as (coll' & H1 & H2 & _ & H4).
  exists coll'. split; [exact H1|]. split.
  - apply (H4 (readable (py "notes/b.md") (py "beta")));
      [right; right; left; reflexivity|reflexivity].
  - rewrite H2; [apply lookup_empty|].
    intros f [<-|[<-|[<-|[<-|[]]]]]; discriminate.
Defined.

Lemma caller_fields_are_stored_witness :
  index_document scalar_load path_digest (list Z) length_vector tick_stamp plain_store
                 ready_world sourced_request
  = (indexed_sourced, Response sourced_answer)
  /\ req_metadata sourced_request = Some [(py "source", VStr (py "web"))]
  /\ List.NoDup (map fst [(py "source", VStr (py "web"))])
  /\ exists coll1 e,
       collection (state indexed_sourced) = Some coll1
       /\ coll1 !! ir_doc_id sourced_answer = Some e
       /\ dict_get (py "source") (entry_metadata e) = Some (VStr (py "web")).
Proof.
  assert (H : index_document scalar_load path_digest (list Z) length_vector
                tick_stamp plain_store ready_world sourced_request
              = (indexed_sourced, Response sourced_answer))
    by (vm_compute; reflexivity).
  assert (Hnd : List.NoDup (map fst [(py "source", VStr (py "web"))]))
    by (constructor; [intros []|constructor]).
  split; [exact H|]. split; [reflexivity|]. split; [exact Hnd|].
  destruct (caller_fields_are_stored scalar_load path_digest (list Z)
              length_vector tick_stamp plain_store ready_world sourced_request
              indexed_sourced sourced_answer _ H eq_refl Hnd)
    as (coll1 & e & doc & H1 & H2 & _ & _ & H5 & _).
  exists coll1, e. split; [exact H1|]. split; [exact H2|].
  apply H5; [reflexivity|discriminate|reflexivity].
Defined.

Lemma stats_counts_add_up_witness :
  get_stats (list Z) indexed_once (py "/vault") = Response stats_once
  /\ total_count (categories stats_once) = total_documents stats_once
  /\ total_documents stats_once = count indexed_once.
Proof.
  assert (H : get_stats (list Z) indexed_once (py "/vault")
              = Response stats_once) by (vm_compute; reflexivity).
  split; [exact H|].
  destruct (stats_counts_add_up (list Z) indexed_once (py "/vault")
              stats_once H) as (H1 & _ & H3 & _).
  split; assumption.
Defined.

Lemma uncategorized_in_stats_witness :
  index_document scalar_load path_digest (list Z) length_vector tick_stamp plain_store
                 (reset_index (list Z) true ready_world).1 top_request
  = (indexed_top, Response top_answer)
  /\ parse_markdown scalar_load (req_content top_request)
                    (req_path top_request) = Ok top_doc
  /\ truthy (category top_doc) = false
  /\ dict_get (py "category") (default [] (req_metadata top_request)) = None
  /\ exists stats,
       get_stats (list Z) indexed_top (py "/vault") = Response stats
       /\ total_documents stats = 1
       /\ categories stats = [(VStr (py "uncategorized"), 1)].
Proof.
  assert (H : index_document scalar_load path_digest (list Z) length_vector
                tick_stamp plain_store (reset_index (list Z) true ready_world).1
                top_request
              = (indexed_top, Response top_answer))
    by (vm_compute; reflexivity).
  split; [exact H|]. split; [reflexivity|]. split; [reflexivity|].
  split; [reflexivity|].
  exact (uncategorized_in_stats scalar_load path_digest (list Z)
           length_vector tick_stamp plain_store ready_world (py "/vault") top_request
           indexed_top top_answer top_doc H eq_refl eq_refl eq_refl).
Defined.

(** ** Titles *)

Section TitleFacts.

Lemma title_from_length s : forall b, length (Str.title_from b s) = length s.
Proof.
  induction s as [|c r IH]; intros b; cbn; [reflexivity|].
  destruct (Str.is_lower c); [cbn; rewrite IH; reflexivity|].
  destruct (Str.is_upper c); cbn; rewrite IH; reflexivity.
Qed.

Lemma cased_letter_plain c :
  (Str.to_upper c = "-"%char -> c = "-"%char)
  /\ (Str.to_upper c = "_"%char -> c = "_"%char)
  /\ (Str.to_lower c = "-"%char -> c = "-"%char)
  /\ (Str.to_lower c = "_"%char -> c = "_"%char).
Proof.
  destruct c as [[] [] [] [] [] [] [] []]; vm_compute;
    repeat split; intros H; try discriminate H; reflexivity.
Qed.

Lemma title_from_plain s : forall b,
  Forall (fun c => c <> "-"%char /\ c <> "_"%char) s ->
  Forall (fun c => c <> "-"%char /\ c <> "_"%char) (Str.title_from b s).
Proof.
  induction s as [|c r IH]; intros b Hs; cbn; [constructor|].
  inversion Hs as [|? ? [H1 H2] Hr]; subst.
  destruct (cased_letter_plain c) as (U1 & U2 & L1 & L2).
  destruct (Str.is_lower c).
  - constructor; [|apply IH, Hr]. destruct b; [tauto|]. split; auto.
  - destruct (Str.is_upper c); constructor; try (apply IH, Hr); try tauto.
    destruct b; [|tauto]. split; auto.
Qed.

Lemma replaced_plain s :
  Forall (fun c => c <> "-"%char /\ c <> "_"%char)
         (Str.replace_char "_" " " (Str.replace_char "-" " " s)).
Proof.
  unfold Str.replace_char. rewrite map_map. apply Forall_forall.
  intros c Hc. apply list_elem_of_In, in_map_iff in Hc.
  destruct Hc as (c0 & <- & _).
  destruct (Ascii.eqb_spec c0 "-") as [->|H1]; [split; discriminate|].
  destruct (Ascii.eqb_spec c0 "_") as [->|H2]; [split; discriminate|].
  split; assumption.
Qed.

End TitleFacts.

(** X21.  A text that opens with a hash, one space and a title on its first
    line has no frontmatter block and gets that title, trimmed, whatever the
    YAML loader does and whatever follows the first line. *)
Theorem first_line_heading_is_title (safe_load : str -> result pyval)
        (t rest p : str) :
  starts_ns t ->
  Forall (fun c => not_newline c = true) t ->
  (rest = [] \/ exists r, rest = "010"%char :: r) ->
  exists doc,
    parse_markdown safe_load (py "# " ++ t ++ rest) p = Ok doc
    /\ title doc = VStr (Str.strip t)
    /\ metadata doc = []
    /\ content doc = Str.strip (py "# " ++ t ++ rest).
Proof.
  intros Hs Ht Hrest.
  assert (Hh : HEADING_PATTERN_search (py "# " ++ t ++ rest) = Some t).
  { unfold HEADING_PATTERN_search.
    change (py "# " ++ t ++ rest) with ("#"%char :: " "%char :: t ++ rest).
    cbn [heading_search_from]. unfold heading_at.
    change (Ascii.eqb "#" "#") with true. cbv beta iota.
    destruct t as [|c t']; [destruct Hs|]. cbn in Hs.
    cbn [Str.take_while Str.drop_while app].
    change (Str.is_space " ") with true. cbv beta iota. rewrite Hs.
    cbv beta iota.
    inversion Ht as [|? ? Hc Ht']; subst.
    rewrite Hc, take_while_line by assumption. reflexivity. }
  unfold parse_markdown, extract_frontmatter, mbind, result_bind.
  change (FRONTMATTER_PATTERN_match (py "# " ++ t ++ rest)) with (@None (str * str)).
  cbv beta iota. cbn [get_method dict_get default truthy].
  rewrite Hh. eexists. split; [reflexivity|]. cbn. auto.
Qed.

Lemma first_line_heading_is_title_witness :
  starts_ns (py "Alpha ")
  /\ Forall (fun c => not_newline c = true) (py "Alpha ")
  /\ exists doc,
       parse_markdown broken_yaml_load (py "# Alpha 
body") (py "a.md") = Ok doc
       /\ title doc = VStr (py "Alpha").
Proof.
  assert (H1 : starts_ns (py "Alpha ")) by reflexivity.
  assert (H2 : Forall (fun c => not_newline c = true) (py "Alpha "))
    by (repeat constructor).
  split; [exact H1|]. split; [exact H2|].
  destruct (first_line_heading_is_title broken_yaml_load (py "Alpha ")
              (py "
body") (py "a.md") H1 H2) as (doc & Hd & Ht & _).
  { right. eexists. reflexivity. }
  exists doc. split; [exact Hd|exact Ht].
Defined.

Lemma cased_letter_ascii c :
  is_ascii c = true ->
  is_ascii (Str.to_upper c) = true /\ is_ascii (Str.to_lower c) = true.
Proof.
  destruct c as [[] [] [] [] [] [] [] []]; vm_compute;
    intros H; try discriminate H; split; reflexivity.
Qed.

Lemma title_from_ascii s : forall b,
  ascii_text s -> ascii_text (Str.title_from b s).
Proof.
  unfold ascii_text.
  induction s as [|c r IH]; intros b Hs; cbn; [constructor|].
  inversion Hs as [|? ? Hc Hr]; subst.
  destruct (cased_letter_ascii c Hc) as [U L].
  destruct (Str.is_lower c).
  - constructor; [destruct b; assumption|apply IH, Hr].
  - destruct (Str.is_upper c); constructor; try (apply IH, Hr);
      try assumption.
    destruct b; assumption.
Qed.

(** X22.  For a path whose stem is ASCII text, the title made from the
    file name has as many characters as the stem, has neither hyphen nor
    underscore, and is ASCII text. *)
Theorem filename_title_shape (p : str) :
  ascii_text (Path.stem p) ->
  len (filename_title p) = len (Path.stem p)
  /\ Forall (fun c => c <> "-"%char /\ c <> "_"%char) (filename_title p)
  /\ ascii_text (filename_title p).
Proof.
  intros Ha. unfold filename_title, Str.title. split; [|split].
  - unfold len. rewrite title_from_length.
    unfold Str.replace_char. rewrite !length_map. reflexivity.
  - apply title_from_plain, replaced_plain.
  - apply title_from_ascii. unfold ascii_text, Str.replace_char in *.
    rewrite !Forall_map. eapply Forall_impl; [exact Ha|].
    intros c Hc. cbn.
    destruct (Ascii.eqb c "-"); cbn; [reflexivity|].
    destruct (Ascii.eqb c "_"); [reflexivity|exact Hc].
Qed.

Lemma filename_title_shape_witness :
  ascii_text (Path.stem (py "notes/my-first_note.md"))
  /\ filename_title (py "notes/my-first_note.md") = py "My First Note"
  /\ len (filename_title (py "notes/my-first_note.md"))
     = len (Path.stem (py "notes/my-first_note.md")).
Proof.
  assert (Ha : ascii_text (Path.stem (py "notes/my-first_note.md")))
    by (vm_compute; repeat constructor).
  split; [exact Ha|]. split; [reflexivity|].
  exact (proj1 (filename_title_shape (py "notes/my-first_note.md") Ha)).
Defined.

